(** * UTransformerComponent: selection, domain, cloning and replication

    A shallow embedding of [TransformerComponent.cpp] (the runtime
    transformer component of the RuntimeTransformer plugin).  Engine
    objects are identified by natural numbers, a pointer is an [option]
    (the null pointer is [None]), the engine's object store is a pair of
    finite maps, and every member function of the component is a function
    on an explicit state.  Notifications, log warnings and remote
    procedure calls leaving the participant are appended to an event log. *)

From stdpp Require Import gmap list.

(** ** Scalars, vectors and transforms *)

(** The engine computes with floating point numbers.  The operations
    embedded here only use the constants zero and one, sums, products and
    the strict order; they are kept abstract so that every result holds for
    any interpretation of the scalars. *)
Class Scalar (F : Type) := {
  fzero : F;
  fone : F;
  fadd : F → F → F;
  fmul : F → F → F;
  fgt : F → F → bool
}.

(** Identities of [USceneComponent]s and [AActor]s, and a
    [USceneComponent*], whose null pointer is [None]. *)
Abbreviation Comp := nat.
Abbreviation Actor := nat.
Abbreviation Ptr := (option nat).

(** The result of code that can dereference a null pointer or loop for
    ever. *)
Inductive Outcome (A : Type) :=
  | Done (a : A)
  | NullDereference
  | Diverges.
Arguments Done {A} a.
Arguments NullDereference {A}.
Arguments Diverges {A}.

Section Model.
Context {F : Type} `{!Scalar F}.

Record FVector := { VX : F; VY : F; VZ : F }.
Record FQuat := { QX : F; QY : F; QZ : F; QW : F }.
Record FTransform := { Rotation : FQuat; Translation : FVector; Scale3D : FVector }.

Definition ZeroVector : FVector := {| VX := fzero; VY := fzero; VZ := fzero |}.
Definition OneVector : FVector := {| VX := fone; VY := fone; VZ := fone |}.
Definition QuatIdentity : FQuat := {| QX := fzero; QY := fzero; QZ := fzero; QW := fone |}.

(** [FTransform()]: the default constructor builds the identity. *)
Definition FTransform_Identity : FTransform :=
  {| Rotation := QuatIdentity; Translation := ZeroVector; Scale3D := OneVector |}.

Definition SetScale3D (v : FVector) (t : FTransform) : FTransform :=
  {| Rotation := Rotation t; Translation := Translation t; Scale3D := v |}.

Definition vadd (a b : FVector) : FVector :=
  {| VX := fadd (VX a) (VX b); VY := fadd (VY a) (VY b); VZ := fadd (VZ a) (VZ b) |}.
Definition vscale (a : FVector) (k : F) : FVector :=
  {| VX := fmul (VX a) k; VY := fmul (VY a) k; VZ := fmul (VZ a) k |}.

(** ** Enumerations *)

Inductive ETransformationType := TT_NoTransform | TT_Translation | TT_Rotation | TT_Scale.

(** Only [TD_None] is named by the component; the other values are the
    axes, planes and the uniform mode a gizmo part can stand for. *)
Inductive ETransformationDomain :=
  TD_None | TD_X_Axis | TD_Y_Axis | TD_Z_Axis | TD_XY_Plane | TD_YZ_Plane | TD_XZ_Plane | TD_XYZ.

Inductive ESpaceType := ST_None | ST_Local | ST_World.
Inductive EGizmoPlacement := GP_None | GP_OnFirstSelection | GP_OnLastSelection.

(** The engine's network roles, in increasing order. *)
Inductive ENetRole := ROLE_None | ROLE_SimulatedProxy | ROLE_AutonomousProxy | ROLE_Authority.

#[export] Instance ETransformationType_eq_dec : EqDecision ETransformationType.
Proof. solve_decision. Defined.
#[export] Instance ETransformationDomain_eq_dec : EqDecision ETransformationDomain.
Proof. solve_decision. Defined.
#[export] Instance ENetRole_eq_dec : EqDecision ENetRole.
Proof. solve_decision. Defined.

(** ** The engine's objects *)

Record CompData := {
  c_owner : option Actor;      (* GetOwner() *)
  c_parent : option Comp;      (* GetAttachParent() *)
  c_focusable : bool;          (* Implements<UFocusableObject>() *)
  c_net : bool;                (* IsSupportedForNetworking() *)
  c_begun_play : bool;         (* HasBegunPlay() *)
  c_valid : bool;              (* IsValid(): not pending kill *)
  c_movable : bool             (* Mobility == EComponentMobility::Movable *)
}.

(** What the component reads and writes of an [ABaseGizmo]. *)
Record GizmoData := {
  gz_type : ETransformationType;       (* GetGizmoType() *)
  gz_attached : option Comp;           (* AttachToComponent *)
  gz_progress : bool;                  (* SetTransformProgressState *)
  gz_domain : ETransformationDomain;
  gz_space : ESpaceType                (* UpdateGizmoSpace *)
}.

Record ActorData := {
  a_root : option Comp;        (* GetRootComponent() *)
  a_focusable : bool;          (* Implements<UFocusableObject>() *)
  a_net : bool;                (* IsSupportedForNetworking() *)
  a_valid : bool;              (* not destroyed *)
  a_net_startup : bool;        (* bNetStartup *)
  a_gizmo : option GizmoData   (* Cast<ABaseGizmo>(actor) *)
}.

Record World := {
  comps : gmap nat CompData;
  actors : gmap nat ActorData
}.

Definition GetOwner (w : World) (c : Comp) : option Actor :=
  d ← comps w !! c; c_owner d.
Definition GetAttachParent (w : World) (c : Comp) : option Comp :=
  d ← comps w !! c; c_parent d.
Definition GetRootComponent (w : World) (a : Actor) : option Comp :=
  d ← actors w !! a; a_root d.
Definition comp_flag (f : CompData → bool) (w : World) (c : Comp) : bool :=
  match comps w !! c with Some d => f d | None => false end.
Definition actor_flag (f : ActorData → bool) (w : World) (a : Actor) : bool :=
  match actors w !! a with Some d => f d | None => false end.
Definition GetGizmoData (w : World) (a : Actor) : option GizmoData :=
  d ← actors w !! a; a_gizmo d.
(** [Cast<ABaseGizmo>(actor)] is not null. *)
Definition IsGizmo (w : World) (a : option Actor) : bool :=
  match a with Some a => bool_decide (is_Some (GetGizmoData w a)) | None => false end.

Definition set_comps (m : gmap nat CompData) (w : World) : World :=
  {| comps := m; actors := actors w |}.
Definition set_actors (m : gmap nat ActorData) (w : World) : World :=
  {| comps := comps w; actors := m |}.

Definition set_c_parent (p : option Comp) (d : CompData) : CompData :=
  {| c_owner := c_owner d; c_parent := p; c_focusable := c_focusable d;
     c_net := c_net d; c_begun_play := c_begun_play d; c_valid := c_valid d;
     c_movable := c_movable d |}.
Definition set_c_owner (a : option Actor) (d : CompData) : CompData :=
  {| c_owner := a; c_parent := c_parent d; c_focusable := c_focusable d;
     c_net := c_net d; c_begun_play := c_begun_play d; c_valid := c_valid d;
     c_movable := c_movable d |}.
Definition set_c_valid (b : bool) (d : CompData) : CompData :=
  {| c_owner := c_owner d; c_parent := c_parent d; c_focusable := c_focusable d;
     c_net := c_net d; c_begun_play := c_begun_play d; c_valid := b; c_movable := c_movable d |}.
Definition set_c_movable (b : bool) (d : CompData) : CompData :=
  {| c_owner := c_owner d; c_parent := c_parent d; c_focusable := c_focusable d;
     c_net := c_net d; c_begun_play := c_begun_play d; c_valid := c_valid d;
     c_movable := b |}.
Definition set_a_valid (b : bool) (d : ActorData) : ActorData :=
  {| a_root := a_root d; a_focusable := a_focusable d; a_net := a_net d;
     a_valid := b; a_net_startup := a_net_startup d; a_gizmo := a_gizmo d |}.
Definition set_a_net_startup (b : bool) (d : ActorData) : ActorData :=
  {| a_root := a_root d; a_focusable := a_focusable d; a_net := a_net d;
     a_valid := a_valid d; a_net_startup := b; a_gizmo := a_gizmo d |}.
Definition set_a_gizmo (g : option GizmoData) (d : ActorData) : ActorData :=
  {| a_root := a_root d; a_focusable := a_focusable d; a_net := a_net d;
     a_valid := a_valid d; a_net_startup := a_net_startup d; a_gizmo := g |}.

(** Updates the gizmo data of actor [g], when it is a gizmo. *)
Definition alter_gizmo (f : GizmoData → GizmoData) (g : Actor) (w : World) : World :=
  set_actors (alter (λ d, set_a_gizmo (f <$> a_gizmo d) d) g (actors w)) w.

(** [AActor::Destroy]: the actor and the components it owns become
    invalid.  Like [DestroyComponent] below this is the engine's function;
    the model keeps of it what the component tests afterwards
    ([IsValid]). *)
Definition DestroyActor (a : Actor) (w : World) : World :=
  {| comps := (λ d, if bool_decide (c_owner d = Some a) then set_c_valid false d else d) <$> comps w;
     actors := alter (set_a_valid false) a (actors w) |}.
(** [c->DestroyComponent(true)]: the component becomes invalid.  The
    argument asks the engine to promote the children of the component;
    what the engine then does with the attachments and with the root of
    the owner is not in the source of the component and is not modelled.
    The model keeps the one effect the component tests afterwards,
    [IsValid], and leaves attachments and roots as they are. *)
Definition DestroyComponent (c : Comp) (w : World) : World :=
  set_comps (alter (set_c_valid false) c (comps w)) w.
(** [actor->GetComponents().Num()]: the live components the actor owns. *)
Definition NumComponents (w : World) (a : Actor) : nat :=
  size (filter (λ kv, c_owner kv.2 = Some a ∧ c_valid kv.2 = true) (comps w)).

(** A hit of the trace collaborator. *)
Record FHitResult := {
  hit_actor : option Actor;      (* GetActor() *)
  hit_component : option Comp    (* Component, when still valid *)
}.

(** The three kinds of line trace the engine offers. *)
Inductive TraceQuery :=
  | ByObjectType (CollisionChannels : list nat)
  | ByChannel (TraceChannel : nat)
  | ByProfile (ProfileName : nat).

(** ** Messages and notifications *)

Inductive UObject := UComp (c : Comp) | UActor (a : Actor).

(** Remote procedure calls that run on the authority; each constructor
    is the request for the [Server...] function of the same name. *)
Inductive ServerRPC :=
  | ReqTrace (q : TraceQuery) (StartLocation EndLocation : FVector) (bAppendToList : bool)
  | ReqClearDomain
  | ReqApplyTransform (DeltaTransform : FTransform)
  | ReqDeselectAll (bDestroySelected : bool)
  | ReqSetDomain (Domain : ETransformationDomain)
  | ReqSyncSelectedComponents
  | ReqCloneSelected (bSelectNewClones bAppendToList : bool).

(** Remote procedure calls the authority runs on every participant; each
    constructor is the broadcast of the [Multicast...] function of the
    same name. *)
Inductive MulticastRPC :=
  | BcastClearDomain
  | BcastApplyTransform (DeltaTransform : FTransform)
  | BcastDeselectAll (bDestroySelected : bool)
  | BcastSetDomain (Domain : ETransformationDomain)
  | BcastSetSelectedComponents (Components : list Ptr).

Inductive Warning :=
  | RemovingHitNotSupportedForNetworking (a : Actor) (c : Comp)
  | SettingTransformationTypeToNone
  | ComponentCloningNotSupported
  | ResyncingSelection
  | ResyncingFinished
  | TransformWillNotAffectComponent (c : Comp).

(** What leaves the component: notifications to the selected objects and
    to the owner, warnings written to the log, remote procedure calls, and
    the writes of world transforms.  World transforms are not part of this
    model: the transform that [ApplyDeltaTransform] hands on is the
    engine's vector arithmetic on the old transform of the component, the
    location of the gizmo and the delta, and the two events of a move
    carry the delta it is computed from. *)
Inductive Event :=
  | Focus (o : UObject) (c : Ptr) (bComponentBased : bool)
  | Unfocus (o : UObject) (c : Ptr) (bComponentBased : bool)
  | OnComponentSelectionChange (c : Ptr) (bSelected bImplementsUFocusable : bool)
  | OnNewTransformation (o : UObject) (c : Ptr) (DeltaTransform : FTransform)
      (bComponentBased : bool)
  | SetWorldTransform (c : Comp) (DeltaTransform : FTransform)
  | LogWarning (w : Warning)
  | SendToServer (r : ServerRPC)
  | SendToAll (m : MulticastRPC).

(** ** Configuration and collaborators *)

(** What an operation reads and never writes: the role of the
    participant, the settings of the component, and the collaborators
    that live outside the component (the overridable [ShouldSelect] hook,
    the gizmo's part-to-domain table, the player's view and the trace).
    [DeselectAll_default] is the value that the declaration of
    [DeselectAll] gives to its parameter when a caller leaves it out; the
    declaration is in the header, so the value is left open here and the
    results below hold for either one. *)
Record Config := {
  OwnerRole : ENetRole;                          (* GetOwnerRole() *)
  HasWorld : bool;                               (* GetWorld() is not null *)
  GizmoPlacement : EGizmoPlacement;
  CurrentSpaceType : ESpaceType;
  TranslationGizmoClass : option ETransformationType;
  RotationGizmoClass : option ETransformationType;
  ScaleGizmoClass : option ETransformationType;
  MinimumCloneReplicationTime : F;
  bIgnoreNonReplicatedObjects : bool;
  bToggleSelectedInMultiSelection : bool;
  bForceMobility : bool;
  bTransformUFocusableObjects : bool;
  DeselectAll_default : bool;                    (* default of bDestroyDeselected *)
  ShouldSelect : option Actor → Ptr → bool;
  GetTransformationDomain : Comp → ETransformationDomain;
  OwnerIsPlayerController : bool;                (* GetPlayerController() is not null *)
  IsLocalController : bool;
  DeprojectMousePositionToWorld : option (FVector * FVector);
  LineTraceMulti : TraceQuery → FVector → FVector → list Actor → bool * list FHitResult
}.

(** ** The component *)

Record State := {
  cfg : Config;
  world : World;
  CurrentTransformation : ETransformationType;
  CurrentDomain : ETransformationDomain;
  bComponentBased : bool;
  bResyncSelection : bool;
  AccumulatedDeltaTransform : FTransform;
  NetworkDeltaTransform : FTransform;
  SelectedComponents : list Ptr;
  UnreplicatedComponentClones : list Ptr;
  Gizmo : option Actor;
  CheckUnrepTimerHandle : bool;       (* IsValid() of the handle *)
  ResyncSelectionTimerHandle : bool;  (* IsValid() of the handle *)
  out : list Event
}.

Definition set_world (x : World) (s : State) : State :=
  {| cfg := cfg s; world := x; CurrentTransformation := CurrentTransformation s;
     CurrentDomain := CurrentDomain s; bComponentBased := bComponentBased s;
     bResyncSelection := bResyncSelection s;
     AccumulatedDeltaTransform := AccumulatedDeltaTransform s;
     NetworkDeltaTransform := NetworkDeltaTransform s;
     SelectedComponents := SelectedComponents s;
     UnreplicatedComponentClones := UnreplicatedComponentClones s; Gizmo := Gizmo s;
     CheckUnrepTimerHandle := CheckUnrepTimerHandle s;
     ResyncSelectionTimerHandle := ResyncSelectionTimerHandle s; out := out s |}.
Definition set_CurrentTransformation (x : ETransformationType) (s : State) : State :=
  {| cfg := cfg s; world := world s; CurrentTransformation := x;
     CurrentDomain := CurrentDomain s; bComponentBased := bComponentBased s;
     bResyncSelection := bResyncSelection s;
     AccumulatedDeltaTransform := AccumulatedDeltaTransform s;
     NetworkDeltaTransform := NetworkDeltaTransform s;
     SelectedComponents := SelectedComponents s;
     UnreplicatedComponentClones := UnreplicatedComponentClones s; Gizmo := Gizmo s;
     CheckUnrepTimerHandle := CheckUnrepTimerHandle s;
     ResyncSelectionTimerHandle := ResyncSelectionTimerHandle s; out := out s |}.
Definition set_CurrentDomain (x : ETransformationDomain) (s : State) : State :=
  {| cfg := cfg s; world := world s; CurrentTransformation := CurrentTransformation s;
     CurrentDomain := x; bComponentBased := bComponentBased s;
     bResyncSelection := bResyncSelection s;
     AccumulatedDeltaTransform := AccumulatedDeltaTransform s;
     NetworkDeltaTransform := NetworkDeltaTransform s;
     SelectedComponents := SelectedComponents s;
     UnreplicatedComponentClones := UnreplicatedComponentClones s; Gizmo := Gizmo s;
     CheckUnrepTimerHandle := CheckUnrepTimerHandle s;
     ResyncSelectionTimerHandle := ResyncSelectionTimerHandle s; out := out s |}.
Definition set_bComponentBased (x : bool) (s : State) : State :=
  {| cfg := cfg s; world := world s; CurrentTransformation := CurrentTransformation s;
     CurrentDomain := CurrentDomain s; bComponentBased := x;
     bResyncSelection := bResyncSelection s;
     AccumulatedDeltaTransform := AccumulatedDeltaTransform s;
     NetworkDeltaTransform := NetworkDeltaTransform s;
     SelectedComponents := SelectedComponents s;
     UnreplicatedComponentClones := UnreplicatedComponentClones s; Gizmo := Gizmo s;
     CheckUnrepTimerHandle := CheckUnrepTimerHandle s;
     ResyncSelectionTimerHandle := ResyncSelectionTimerHandle s; out := out s |}.
Definition set_bResyncSelection (x : bool) (s : State) : State :=
  {| cfg := cfg s; world := world s; CurrentTransformation := CurrentTransformation s;
     CurrentDomain := CurrentDomain s; bComponentBased := bComponentBased s;
     bResyncSelection := x;
     AccumulatedDeltaTransform := AccumulatedDeltaTransform s;
     NetworkDeltaTransform := NetworkDeltaTransform s;
     SelectedComponents := SelectedComponents s;
     UnreplicatedComponentClones := UnreplicatedComponentClones s; Gizmo := Gizmo s;
     CheckUnrepTimerHandle := CheckUnrepTimerHandle s;
     ResyncSelectionTimerHandle := ResyncSelectionTimerHandle s; out := out s |}.
Definition set_AccumulatedDeltaTransform (x : FTransform) (s : State) : State :=
  {| cfg := cfg s; world := world s; CurrentTransformation := CurrentTransformation s;
     CurrentDomain := CurrentDomain s; bComponentBased := bComponentBased s;
     bResyncSelection := bResyncSelection s;
     AccumulatedDeltaTransform := x;
     NetworkDeltaTransform := NetworkDeltaTransform s;
     SelectedComponents := SelectedComponents s;
     UnreplicatedComponentClones := UnreplicatedComponentClones s; Gizmo := Gizmo s;
     CheckUnrepTimerHandle := CheckUnrepTimerHandle s;
     ResyncSelectionTimerHandle := ResyncSelectionTimerHandle s; out := out s |}.
Definition set_NetworkDeltaTransform (x : FTransform) (s : State) : State :=
  {| cfg := cfg s; world := world s; CurrentTransformation := CurrentTransformation s;
     CurrentDomain := CurrentDomain s; bComponentBased := bComponentBased s;
     bResyncSelection := bResyncSelection s;
     AccumulatedDeltaTransform := AccumulatedDeltaTransform s;
     NetworkDeltaTransform := x;
     SelectedComponents := SelectedComponents s;
     UnreplicatedComponentClones := UnreplicatedComponentClones s; Gizmo := Gizmo s;
     CheckUnrepTimerHandle := CheckUnrepTimerHandle s;
     ResyncSelectionTimerHandle := ResyncSelectionTimerHandle s; out := out s |}.
Definition set_SelectedComponents (x : list Ptr) (s : State) : State :=
  {| cfg := cfg s; world := world s; CurrentTransformation := CurrentTransformation s;
     CurrentDomain := CurrentDomain s; bComponentBased := bComponentBased s;
     bResyncSelection := bResyncSelection s;
     AccumulatedDeltaTransform := AccumulatedDeltaTransform s;
     NetworkDeltaTransform := NetworkDeltaTransform s;
     SelectedComponents := x;
     UnreplicatedComponentClones := UnreplicatedComponentClones s; Gizmo := Gizmo s;
     CheckUnrepTimerHandle := CheckUnrepTimerHandle s;
     ResyncSelectionTimerHandle := ResyncSelectionTimerHandle s; out := out s |}.
Definition set_UnreplicatedComponentClones (x : list Ptr) (s : State) : State :=
  {| cfg := cfg s; world := world s; CurrentTransformation := CurrentTransformation s;
     CurrentDomain := CurrentDomain s; bComponentBased := bComponentBased s;
     bResyncSelection := bResyncSelection s;
     AccumulatedDeltaTransform := AccumulatedDeltaTransform s;
     NetworkDeltaTransform := NetworkDeltaTransform s;
     SelectedComponents := SelectedComponents s;
     UnreplicatedComponentClones := x; Gizmo := Gizmo s;
     CheckUnrepTimerHandle := CheckUnrepTimerHandle s;
     ResyncSelectionTimerHandle := ResyncSelectionTimerHandle s; out := out s |}.
Definition set_Gizmo (x : option Actor) (s : State) : State :=
  {| cfg := cfg s; world := world s; CurrentTransformation := CurrentTransformation s;
     CurrentDomain := CurrentDomain s; bComponentBased := bComponentBased s;
     bResyncSelection := bResyncSelection s;
     AccumulatedDeltaTransform := AccumulatedDeltaTransform s;
     NetworkDeltaTransform := NetworkDeltaTransform s;
     SelectedComponents := SelectedComponents s;
     UnreplicatedComponentClones := UnreplicatedComponentClones s; Gizmo := x;
     CheckUnrepTimerHandle := CheckUnrepTimerHandle s;
     ResyncSelectionTimerHandle := ResyncSelectionTimerHandle s; out := out s |}.
Definition set_CheckUnrepTimerHandle (x : bool) (s : State) : State :=
  {| cfg := cfg s; world := world s; CurrentTransformation := CurrentTransformation s;
     CurrentDomain := CurrentDomain s; bComponentBased := bComponentBased s;
     bResyncSelection := bResyncSelection s;
     AccumulatedDeltaTransform := AccumulatedDeltaTransform s;
     NetworkDeltaTransform := NetworkDeltaTransform s;
     SelectedComponents := SelectedComponents s;
     UnreplicatedComponentClones := UnreplicatedComponentClones s; Gizmo := Gizmo s;
     CheckUnrepTimerHandle := x;
     ResyncSelectionTimerHandle := ResyncSelectionTimerHandle s; out := out s |}.
Definition set_ResyncSelectionTimerHandle (x : bool) (s : State) : State :=
  {| cfg := cfg s; world := world s; CurrentTransformation := CurrentTransformation s;
     CurrentDomain := CurrentDomain s; bComponentBased := bComponentBased s;
     bResyncSelection := bResyncSelection s;
     AccumulatedDeltaTransform := AccumulatedDeltaTransform s;
     NetworkDeltaTransform := NetworkDeltaTransform s;
     SelectedComponents := SelectedComponents s;
     UnreplicatedComponentClones := UnreplicatedComponentClones s; Gizmo := Gizmo s;
     CheckUnrepTimerHandle := CheckUnrepTimerHandle s;
     ResyncSelectionTimerHandle := x; out := out s |}.
Definition set_out (x : list Event) (s : State) : State :=
  {| cfg := cfg s; world := world s; CurrentTransformation := CurrentTransformation s;
     CurrentDomain := CurrentDomain s; bComponentBased := bComponentBased s;
     bResyncSelection := bResyncSelection s;
     AccumulatedDeltaTransform := AccumulatedDeltaTransform s;
     NetworkDeltaTransform := NetworkDeltaTransform s;
     SelectedComponents := SelectedComponents s;
     UnreplicatedComponentClones := UnreplicatedComponentClones s; Gizmo := Gizmo s;
     CheckUnrepTimerHandle := CheckUnrepTimerHandle s;
     ResyncSelectionTimerHandle := ResyncSelectionTimerHandle s; out := x |}.

(** Appends an event to the log. *)
Definition emit (e : Event) (s : State) : State := set_out (out s ++ [e]) s.

(** [GetOwner()->HasAuthority()] and [GetOwnerRole()] both read the local
    role of the owning actor. *)
Definition HasAuthority (s : State) : bool :=
  bool_decide (OwnerRole (cfg s) = ROLE_Authority).

(** ** Selection *)

(** [TArray::Find]: the index of the first occurrence; [None] stands for
    [INDEX_NONE]. *)
Definition Find (l : list Ptr) (x : Ptr) : option nat :=
  fst <$> list_find (λ y, y = x) l.

Definition GetUFocusable (s : State) (Component : Ptr) : option UObject :=
  match Component with
  | None => None
  | Some c =>
      if bComponentBased s then
        if comp_flag c_focusable (world s) c then Some (UComp c) else None
      else
        match GetOwner (world s) c with
        | Some ComponentOwner =>
            if actor_flag a_focusable (world s) ComponentOwner
            then Some (UActor ComponentOwner) else None
        | None => None
        end
  end.

(** [Select] and [Deselect] return what they store in [bImplementsUFocusable]. *)
Definition Select (Component : Ptr) (s : State) : bool * State :=
  match GetUFocusable s Component with
  | Some focusableObject => (true, emit (Focus focusableObject Component (bComponentBased s)) s)
  | None => (false, s)
  end.

Definition Deselect (Component : Ptr) (s : State) : bool * State :=
  match GetUFocusable s Component with
  | Some focusableObject => (true, emit (Unfocus focusableObject Component (bComponentBased s)) s)
  | None => (false, s)
  end.

Definition set_gz_attached (c : option Comp) (g : GizmoData) : GizmoData :=
  {| gz_type := gz_type g; gz_attached := c; gz_progress := gz_progress g;
     gz_domain := gz_domain g; gz_space := gz_space g |}.
Definition UpdateGizmoSpace (sp : ESpaceType) (g : GizmoData) : GizmoData :=
  {| gz_type := gz_type g; gz_attached := gz_attached g; gz_progress := gz_progress g;
     gz_domain := gz_domain g; gz_space := sp |}.
Definition SetTransformProgressState (b : bool) (d : ETransformationDomain) (g : GizmoData)
  : GizmoData :=
  {| gz_type := gz_type g; gz_attached := gz_attached g; gz_progress := b;
     gz_domain := d; gz_space := gz_space g |}.

(** As in the source, the class is chosen by [CurrentTransformation], not
    by the argument.  A gizmo class is given by the kind its instances
    report. *)
Definition GetGizmoClass (s : State) (TransformationType : ETransformationType)
  : option ETransformationType :=
  match CurrentTransformation s with
  | TT_Translation => TranslationGizmoClass (cfg s)
  | TT_Rotation => RotationGizmoClass (cfg s)
  | TT_Scale => ScaleGizmoClass (cfg s)
  | TT_NoTransform => None
  end.

(** [world->SpawnActor(GizmoClass)]: a new actor, which is a gizmo. *)
Definition SpawnGizmo (ty : ETransformationType) (w : World) : Actor * World :=
  let g := fresh (dom (actors w)) in
  (g, set_actors (<[g := {| a_root := None; a_focusable := false; a_net := false;
                            a_valid := true; a_net_startup := false;
                            a_gizmo := Some {| gz_type := ty; gz_attached := None;
                                               gz_progress := false; gz_domain := TD_None;
                                               gz_space := ST_None |} |}]> (actors w)) w).

Definition SetGizmo (s : State) : State :=
  if bool_decide (0 < length (SelectedComponents s)) then
    let '(bCreateGizmo, s1) :=
      match Gizmo s with
      | Some g =>
          if bool_decide (gz_type <$> GetGizmoData (world s) g = Some (CurrentTransformation s))
          then (false, s)
          else (true, set_world (DestroyActor g (world s)) s)
      | None => (true, s)
      end in
    if bCreateGizmo then
      if HasWorld (cfg s1) then
        match GetGizmoClass s1 (CurrentTransformation s1) with
        | Some GizmoClass =>
            let '(g, w) := SpawnGizmo GizmoClass (world s1) in
            set_Gizmo (Some g) (set_world w s1)
        | None => s1
        end
      else s1
    else s1
  else
    match Gizmo s with
    | Some g => set_Gizmo None (set_world (DestroyActor g (world s)) s)
    | None => s
    end.

Definition UpdateGizmoPlacement (s : State) : State :=
  let s1 := SetGizmo s in
  match Gizmo s1 with
  | None => s1
  | Some g =>
      let ComponentToAttachTo : Ptr :=
        match GizmoPlacement (cfg s1) with
        | GP_OnFirstSelection => mjoin (head (SelectedComponents s1))
        | GP_OnLastSelection => mjoin (last (SelectedComponents s1))
        | GP_None => None
        end in
      let w1 :=
        match ComponentToAttachTo with
        | Some c => alter_gizmo (set_gz_attached (Some c)) g (world s1)
        | None => world s1
        end in
      set_world (alter_gizmo (UpdateGizmoSpace (CurrentSpaceType (cfg s1))) g w1) s1
  end.

(** The list argument of the three [_Internal] functions is
    [SelectedComponents] at every call. *)
Definition DeselectComponentAtIndex_Internal (Index : nat) (s : State) : State :=
  match SelectedComponents s !! Index with
  | Some Component =>
      let '(bImplementsInterface, s1) := Deselect Component s in
      let s2 := set_SelectedComponents (delete Index (SelectedComponents s1)) s1 in
      emit (OnComponentSelectionChange Component false bImplementsInterface) s2
  | None => s
  end.

Definition AddComponent_Internal (Component : Ptr) (s : State) : State :=
  match Find (SelectedComponents s) Component with
  | None =>
      let s1 := set_SelectedComponents (SelectedComponents s ++ [Component]) s in
      let '(bImplementsInterface, s2) := Select (mjoin (last (SelectedComponents s1))) s1 in
      emit (OnComponentSelectionChange Component true bImplementsInterface) s2
  | Some Index =>
      if bToggleSelectedInMultiSelection (cfg s)
      then DeselectComponentAtIndex_Internal Index s else s
  end.

Definition DeselectComponent_Internal (Component : Ptr) (s : State) : State :=
  match Find (SelectedComponents s) Component with
  | Some Index => DeselectComponentAtIndex_Internal Index s
  | None => s
  end.

Definition DeselectComponent (Component : Ptr) (s : State) : State :=
  match Component with
  | None => s
  | Some _ => UpdateGizmoPlacement (DeselectComponent_Internal Component s)
  end.

Definition DeselectActor (Actor : option Actor) (s : State) : State :=
  match Actor with
  | Some a => DeselectComponent (GetRootComponent (world s) a) s
  | None => s
  end.

(** The destruction loop of [DeselectAll]. *)
Definition DestroyDeselected (s : State) (c : Ptr) : State :=
  match c with
  | None => s
  | Some c' =>
      if negb (comp_flag c_valid (world s) c') then s
      else
        match GetOwner (world s) c' with
        | Some actor =>
            if bComponentBased s && bool_decide (1 < NumComponents (world s) actor)
            then set_world (DestroyComponent c' (world s)) s
            else set_world (DestroyActor actor (world s)) s
        | None => s
        end
  end.

(** Returns the deselected components and the new state. *)
Definition DeselectAll (bDestroyDeselected : bool) (s : State) : list Ptr * State :=
  let componentsToDeselect := SelectedComponents s in
  let s1 := foldl (λ s i, DeselectComponent i s) s componentsToDeselect in
  let s2 := UpdateGizmoPlacement (set_SelectedComponents [] s1) in
  let s3 := if bDestroyDeselected then foldl DestroyDeselected s2 componentsToDeselect else s2 in
  (componentsToDeselect, s3).

Definition SelectComponent (Component : Ptr) (bAppendToList : bool) (s : State) : State :=
  match Component with
  | None => s
  | Some c =>
      if ShouldSelect (cfg s) (GetOwner (world s) c) Component then
        let s1 := if bAppendToList then s else (DeselectAll (DeselectAll_default (cfg s)) s).2 in
        UpdateGizmoPlacement (AddComponent_Internal Component s1)
      else s
  end.

Definition SelectActor (Actor : option Actor) (bAppendToList : bool) (s : State) : State :=
  match Actor with
  | None => s
  | Some a =>
      if ShouldSelect (cfg s) Actor (GetRootComponent (world s) a) then
        let s1 := if bAppendToList then s else (DeselectAll (DeselectAll_default (cfg s)) s).2 in
        UpdateGizmoPlacement (AddComponent_Internal (GetRootComponent (world s1) a) s1)
      else s
  end.

(** One iteration of the loop of [SelectMultipleComponents]; the loop
    carries the local [bAppendToList] and [bValidList]. *)
Definition SelectMultipleComponents_step (acc : bool * bool * State) (c : Ptr)
  : bool * bool * State :=
  let '(bAppendToList, bValidList, s) := acc in
  match c with
  | None => acc
  | Some c' =>
      if negb (ShouldSelect (cfg s) (GetOwner (world s) c') c) then acc
      else
        let s1 := if bAppendToList then s else (DeselectAll (DeselectAll_default (cfg s)) s).2 in
        (true, true, AddComponent_Internal c s1)
  end.

Definition SelectMultipleComponents (Components : list Ptr) (bAppendToList : bool) (s : State)
  : State :=
  let '(_, bValidList, s1) :=
    foldl SelectMultipleComponents_step (bAppendToList, false, s) Components in
  if bValidList then UpdateGizmoPlacement s1 else s1.

Definition SelectMultipleActors_step (acc : bool * bool * State) (a : option Actor)
  : bool * bool * State :=
  let '(bAppendToList, bValidList, s) := acc in
  match a with
  | None => acc
  | Some a' =>
      if negb (ShouldSelect (cfg s) a (GetRootComponent (world s) a')) then acc
      else
        let s1 := if bAppendToList then s else (DeselectAll (DeselectAll_default (cfg s)) s).2 in
        (true, true, AddComponent_Internal (GetRootComponent (world s1) a') s1)
  end.

Definition SelectMultipleActors (Actors : list (option Actor)) (bAppendToList : bool) (s : State)
  : State :=
  let '(_, bValidList, s1) :=
    foldl SelectMultipleActors_step (bAppendToList, false, s) Actors in
  if bValidList then UpdateGizmoPlacement s1 else s1.

(** ** Vocabulary of the statements about selection *)

(** The notifications fired when [c] leaves and when it enters the
    selection: the focus call reaches the object only when it implements
    [UFocusableObject]; the selection-change event is always fired. *)
Definition DeselectEvents (s : State) (c : Ptr) : list Event :=
  match GetUFocusable s c with
  | Some o => [Unfocus o c (bComponentBased s); OnComponentSelectionChange c false true]
  | None => [OnComponentSelectionChange c false false]
  end.

Definition SelectEvents (s : State) (c : Ptr) : list Event :=
  match GetUFocusable s c with
  | Some o => [Focus o c (bComponentBased s); OnComponentSelectionChange c true true]
  | None => [OnComponentSelectionChange c true false]
  end.

(** [DeselectAll] goes through [DeselectComponent], which returns at once
    on a null entry. *)
Definition DeselectAllEvents (s : State) (l : list Ptr) : list Event :=
  l ≫= λ c, match c with Some _ => DeselectEvents s c | None => [] end.

(** Two object stores that agree on what selection reads: owners, roots
    and who implements [UFocusableObject]. *)
Definition same_objects (w w' : World) : Prop :=
  (∀ c, GetOwner w' c = GetOwner w c) ∧
  (∀ c, comp_flag c_focusable w' c = comp_flag c_focusable w c) ∧
  (∀ a, actor_flag a_focusable w' a = actor_flag a_focusable w a) ∧
  (∀ a, GetRootComponent w' a = GetRootComponent w a).

(** What the selection operations leave alone: they write the selection,
    the gizmo, the log, and validity and gizmo data in the object store. *)
Definition sel_frame (s s' : State) : Prop :=
  cfg s' = cfg s ∧
  CurrentTransformation s' = CurrentTransformation s ∧
  CurrentDomain s' = CurrentDomain s ∧
  bComponentBased s' = bComponentBased s ∧
  bResyncSelection s' = bResyncSelection s ∧
  AccumulatedDeltaTransform s' = AccumulatedDeltaTransform s ∧
  NetworkDeltaTransform s' = NetworkDeltaTransform s ∧
  UnreplicatedComponentClones s' = UnreplicatedComponentClones s ∧
  CheckUnrepTimerHandle s' = CheckUnrepTimerHandle s ∧
  ResyncSelectionTimerHandle s' = ResyncSelectionTimerHandle s ∧
  same_objects (world s) (world s').

(** ** Domain and transformation kind *)

(** [ResetDeltaTransform] overwrites its argument, whatever it held. *)
Definition ResetDeltaTransform (Transform : FTransform) : FTransform :=
  SetScale3D ZeroVector FTransform_Identity.

Definition SetDomain (Domain : ETransformationDomain) (s : State) : State :=
  let s1 := set_CurrentDomain Domain s in
  match Gizmo s1 with
  | Some g =>
      set_world (alter_gizmo (SetTransformProgressState
                                (negb (bool_decide (CurrentDomain s1 = TD_None)))
                                (CurrentDomain s1)) g (world s1)) s1
  | None => s1
  end.

Definition ClearDomain (s : State) : State :=
  SetDomain TD_None
    (set_AccumulatedDeltaTransform (ResetDeltaTransform (AccumulatedDeltaTransform s)) s).

Definition SetTransformationType (TransformationType : ETransformationType) (s : State)
  : State :=
  if bool_decide (CurrentTransformation s = TransformationType) then s
  else
    let s1 := if bool_decide (TransformationType = TT_NoTransform)
              then emit (LogWarning SettingTransformationTypeToNone) s else s in
    let s2 := set_CurrentTransformation TransformationType s1 in
    let s3 := set_AccumulatedDeltaTransform
                (ResetDeltaTransform (AccumulatedDeltaTransform s2)) s2 in
    UpdateGizmoPlacement s3.

(** The state the constructor leaves.  Its two calls at the end are
    without effect: [SetTransformationType] is given the current kind, and
    [SetSpaceType] finds the selection empty and no gizmo. *)
Definition UTransformerComponent (c : Config) (w : World) : State :=
  {| cfg := c; world := w;
     CurrentTransformation := TT_Translation;
     CurrentDomain := TD_None;
     bComponentBased := false;
     bResyncSelection := false;
     AccumulatedDeltaTransform := ResetDeltaTransform FTransform_Identity;
     NetworkDeltaTransform := ResetDeltaTransform FTransform_Identity;
     SelectedComponents := [];
     UnreplicatedComponentClones := [];
     Gizmo := None;
     CheckUnrepTimerHandle := false;
     ResyncSelectionTimerHandle := false;
     out := [] |}.

(** ** Sequences of selection operations *)

Inductive SelectionOp :=
  | OpSelectComponent (Component : Ptr) (bAppendToList : bool)
  | OpSelectActor (Actor : option Actor) (bAppendToList : bool)
  | OpSelectMultipleComponents (Components : list Ptr) (bAppendToList : bool)
  | OpSelectMultipleActors (Actors : list (option Actor)) (bAppendToList : bool)
  | OpDeselectComponent (Component : Ptr)
  | OpDeselectActor (Actor : option Actor)
  | OpDeselectAll (bDestroyDeselected : bool).

Definition run_op (s : State) (op : SelectionOp) : State :=
  match op with
  | OpSelectComponent c b => SelectComponent c b s
  | OpSelectActor a b => SelectActor a b s
  | OpSelectMultipleComponents cs b => SelectMultipleComponents cs b s
  | OpSelectMultipleActors l b => SelectMultipleActors l b s
  | OpDeselectComponent c => DeselectComponent c s
  | OpDeselectActor a => DeselectActor a s
  | OpDeselectAll b => (DeselectAll b s).2
  end.

Definition run_ops (s : State) (ops : list SelectionOp) : State := foldl run_op s ops.

(** The objects an operation names are valid: an actor that is selected
    has a root component.  (A null reference is legal and ignored.) *)
Definition actor_rooted (w : World) (a : option Actor) : Prop :=
  match a with Some a' => is_Some (GetRootComponent w a') | None => True end.

Definition op_valid (w : World) (op : SelectionOp) : Prop :=
  match op with
  | OpSelectActor a _ => actor_rooted w a
  | OpSelectMultipleActors l _ => Forall (actor_rooted w) l
  | _ => True
  end.

(** The number of objects added to, and removed from, the selection
    according to the selection-change events of a log. *)
Definition is_added (e : Event) : bool :=
  match e with OnComponentSelectionChange _ true _ => true | _ => false end.
Definition is_removed (e : Event) : bool :=
  match e with OnComponentSelectionChange _ false _ => true | _ => false end.
Definition added (log : list Event) : nat := length (filter (λ e, is_added e = true) log).
Definition removed (log : list Event) : nat := length (filter (λ e, is_removed e = true) log).

(** The elementary changes of the selection: an absent reference is
    appended, an entry is removed, the list is cleared, or the gizmo alone
    is updated.  With [nn] set, only references that are not null are
    appended. *)
Inductive sel_step (nn : bool) (s s' : State) : Prop :=
  | step_add c :
      c ∉ SelectedComponents s → (nn = true → is_Some c) → sel_frame s s' →
      SelectedComponents s' = SelectedComponents s ++ [c] →
      out s' = out s ++ SelectEvents s c → sel_step nn s s'
  | step_del i c :
      SelectedComponents s !! i = Some c → sel_frame s s' →
      SelectedComponents s' = delete i (SelectedComponents s) →
      out s' = out s ++ DeselectEvents s c → sel_step nn s s'
  | step_clear :
      sel_frame s s' → SelectedComponents s' = [] →
      out s' = out s ++ DeselectAllEvents s (SelectedComponents s) → sel_step nn s s'
  | step_gizmo :
      sel_frame s s' → SelectedComponents s' = SelectedComponents s →
      out s' = out s → sel_step nn s s'.

(** ** Remote procedure calls *)

(** A [Server] function called on the authority runs its implementation
    at once; called on another participant it is sent to the authority
    and has no local effect. *)
Definition call_server (r : ServerRPC) (impl : State → State) (s : State) : State :=
  if HasAuthority s then impl s else emit (SendToServer r) s.

(** A [NetMulticast] function called on the authority is sent to every
    other participant and runs locally; called elsewhere it only runs
    locally. *)
Definition call_multicast (m : MulticastRPC) (impl : State → State) (s : State) : State :=
  impl (if HasAuthority s then emit (SendToAll m) s else s).

(** The same for an implementation that can fail. *)
Definition try_call_server (r : ServerRPC) (impl : State → Outcome State) (s : State)
  : Outcome State :=
  if HasAuthority s then impl s else Done (emit (SendToServer r) s).
Definition try_call_multicast (m : MulticastRPC) (impl : State → Outcome State) (s : State)
  : Outcome State :=
  impl (if HasAuthority s then emit (SendToAll m) s else s).

Definition MulticastClearDomain_Implementation (s : State) : State := ClearDomain s.
Definition MulticastClearDomain : State → State :=
  call_multicast BcastClearDomain MulticastClearDomain_Implementation.
Definition ServerClearDomain_Implementation (s : State) : State := MulticastClearDomain s.
Definition ServerClearDomain : State → State :=
  call_server ReqClearDomain ServerClearDomain_Implementation.

(** [USceneComponent::SetMobility(EComponentMobility::Movable)]. *)
Definition SetMobility (c : Comp) (w : World) : World :=
  set_comps (alter (set_c_movable true) c (comps w)) w.

(** [SetTransform]: an object that implements [UFocusableObject] is told
    of the new transformation, and the component is moved unless such
    objects are left to move themselves. *)
Definition SetTransform (Component : Ptr) (DeltaTransform : FTransform) (s : State) : State :=
  match Component with
  | None => s
  | Some c =>
      match GetUFocusable s Component with
      | Some focusableObject =>
          let s1 := emit (OnNewTransformation focusableObject Component DeltaTransform
                                              (bComponentBased s)) s in
          if bTransformUFocusableObjects (cfg s1)
          then emit (SetWorldTransform c DeltaTransform) s1 else s1
      | None => emit (SetWorldTransform c DeltaTransform) s
      end
  end.

(** One iteration of the loop of [ApplyDeltaTransform].  For a component
    that is moved the location of the gizmo is read through [Gizmo]
    without a test. *)
Definition ApplyDeltaTransform_step (DeltaTransform : FTransform) (acc : Outcome State)
  (sc : Ptr) : Outcome State :=
  match acc with
  | Done s =>
      match sc with
      | None => Done s
      | Some c =>
          if bForceMobility (cfg s) || comp_flag c_movable (world s) c then
            match Gizmo s with
            | Some _ =>
                Done (SetTransform sc DeltaTransform (set_world (SetMobility c (world s)) s))
            | None => NullDereference
            end
          else Done (emit (LogWarning (TransformWillNotAffectComponent c)) s)
      end
  | NullDereference => NullDereference
  | Diverges => Diverges
  end.

Definition ApplyDeltaTransform (DeltaTransform : FTransform) (s : State) : Outcome State :=
  foldl (ApplyDeltaTransform_step DeltaTransform) (Done s) (SelectedComponents s).

Definition MulticastApplyTransform_Implementation (DeltaTransform : FTransform) (s : State)
  : Outcome State :=
  if OwnerIsPlayerController (cfg s) && negb (IsLocalController (cfg s))
  then ApplyDeltaTransform DeltaTransform s else Done s.
Definition MulticastApplyTransform (DeltaTransform : FTransform) : State → Outcome State :=
  try_call_multicast (BcastApplyTransform DeltaTransform)
                     (MulticastApplyTransform_Implementation DeltaTransform).
Definition ServerApplyTransform_Implementation (DeltaTransform : FTransform) (s : State)
  : Outcome State := MulticastApplyTransform DeltaTransform s.
Definition ServerApplyTransform (DeltaTransform : FTransform) : State → Outcome State :=
  try_call_server (ReqApplyTransform DeltaTransform)
                  (ServerApplyTransform_Implementation DeltaTransform).

Definition ReplicateFinishTransform (s : State) : Outcome State :=
  let s1 := ServerClearDomain s in
  match ServerApplyTransform (NetworkDeltaTransform s1) s1 with
  | Done s2 =>
      Done (set_NetworkDeltaTransform (ResetDeltaTransform (NetworkDeltaTransform s2)) s2)
  | NullDereference => NullDereference
  | Diverges => Diverges
  end.

Definition MulticastDeselectAll_Implementation (bDestroySelected : bool) (s : State) : State :=
  (DeselectAll bDestroySelected s).2.
Definition MulticastDeselectAll (bDestroySelected : bool) : State → State :=
  call_multicast (BcastDeselectAll bDestroySelected)
                 (MulticastDeselectAll_Implementation bDestroySelected).
Definition ServerDeselectAll_Implementation (bDestroySelected : bool) (s : State) : State :=
  MulticastDeselectAll bDestroySelected s.
Definition ServerDeselectAll (bDestroySelected : bool) : State → State :=
  call_server (ReqDeselectAll bDestroySelected)
              (ServerDeselectAll_Implementation bDestroySelected).

Definition MulticastSetDomain_Implementation (Domain : ETransformationDomain) (s : State)
  : State := SetDomain Domain s.
Definition MulticastSetDomain (Domain : ETransformationDomain) : State → State :=
  call_multicast (BcastSetDomain Domain) (MulticastSetDomain_Implementation Domain).
Definition ServerSetDomain_Implementation (Domain : ETransformationDomain) (s : State)
  : State := MulticastSetDomain Domain s.
Definition ServerSetDomain (Domain : ETransformationDomain) : State → State :=
  call_server (ReqSetDomain Domain) (ServerSetDomain_Implementation Domain).

(** ** Selection broadcast and resync *)

(** The timer manager owns the two timers; the component sees whether
    their handles are valid.  [SetTimer] makes a handle valid and
    [ClearTimer] invalidates it; a looping timer with a valid handle
    calls its function once per interval. *)
Definition MulticastSetSelectedComponents_Implementation (Components : list Ptr) (s : State)
  : State :=
  let s1 := (DeselectAll (DeselectAll_default (cfg s)) s).2 in
  let s2 := SelectMultipleComponents Components true s1 in
  let s3 := set_bResyncSelection
              (negb (bool_decide (length Components = length (SelectedComponents s2)))) s2 in
  if bResyncSelection s3 then
    if HasWorld (cfg s3) then
      if negb (ResyncSelectionTimerHandle s3)
      then set_ResyncSelectionTimerHandle true s3 else s3
    else s3
  else s3.
Definition MulticastSetSelectedComponents (Components : list Ptr) : State → State :=
  call_multicast (BcastSetSelectedComponents Components)
                 (MulticastSetSelectedComponents_Implementation Components).
Definition ServerSyncSelectedComponents_Implementation (s : State) : State :=
  MulticastSetSelectedComponents (SelectedComponents s) s.
Definition ServerSyncSelectedComponents : State → State :=
  call_server ReqSyncSelectedComponents ServerSyncSelectedComponents_Implementation.

Definition ResyncSelection (s : State) : State :=
  if bResyncSelection s then
    ServerSyncSelectedComponents (emit (LogWarning ResyncingSelection) s)
  else
    set_ResyncSelectionTimerHandle false (emit (LogWarning ResyncingFinished) s).

(** One interval of the resync timer: nothing is called once the handle
    is cleared. *)
Definition ResyncSelection_timer (s : State) : State :=
  if ResyncSelectionTimerHandle s then ResyncSelection s else s.

(** ** Traces *)

Definition GetMouseStartEndPoints (TraceDistance : F) (s : State)
  : option (FVector * FVector) :=
  if OwnerIsPlayerController (cfg s) then
    match DeprojectMousePositionToWorld (cfg s) with
    | Some (worldLocation, worldDirection) =>
        Some (worldLocation, vadd worldLocation (vscale worldDirection TraceDistance))
    | None => None
    end
  else None.

(** Whether [FilterHits] keeps a hit when non-replicated objects are
    ignored.  [Component.IsValid()] is the test of the weak pointer of the
    hit, which [hit_component] holds when it is valid. *)
Definition hit_supported (s : State) (h : FHitResult) : bool :=
  IsGizmo (world s) (hit_actor h) ||
  match hit_actor h with
  | Some a =>
      actor_flag a_net (world s) a &&
      (if bComponentBased s then
         match hit_component h with
         | Some c => comp_flag c_net (world s) c
         | None => false
         end
       else true)
  | None => false
  end.

Definition FilterHits_warning (h : FHitResult) : list Event :=
  match hit_actor h, hit_component h with
  | Some a, Some c => [LogWarning (RemovingHitNotSupportedForNetworking a c)]
  | _, _ => []
  end.

Definition FilterHits (outHits : list FHitResult) (s : State) : list FHitResult * State :=
  if bIgnoreNonReplicatedObjects (cfg s) then
    (filter (λ h, hit_supported s h = true) outHits,
     set_out (out s ++ (filter (λ h, hit_supported s h ≠ true) outHits ≫= FilterHits_warning)) s)
  else (outHits, s).

(** The first loop of [HandleTracedObjects]: is our gizmo [g] hit on a
    part that has a domain? *)
Fixpoint HandleTracedObjects_gizmo (g : Actor) (HitResults : list FHitResult) (s : State)
  : bool * State :=
  match HitResults with
  | [] => (false, s)
  | hitResult :: rest =>
      if bool_decide (hit_actor hitResult = Some g) then
        match hit_component hitResult with
        | Some componentHit =>
            let s1 := SetDomain (GetTransformationDomain (cfg s) componentHit) s in
            if bool_decide (CurrentDomain s1 = TD_None)
            then HandleTracedObjects_gizmo g rest s1
            else (true, set_world (alter_gizmo (SetTransformProgressState true (CurrentDomain s1))
                                               g (world s1)) s1)
        | None => HandleTracedObjects_gizmo g rest s
        end
      else HandleTracedObjects_gizmo g rest s
  end.

(** The second loop: the first hit that is not a gizmo is selected. *)
Fixpoint HandleTracedObjects_select (HitResults : list FHitResult) (bAppendToList : bool)
  (s : State) : bool * State :=
  match HitResults with
  | [] => (false, s)
  | hits :: rest =>
      if IsGizmo (world s) (hit_actor hits) then HandleTracedObjects_select rest bAppendToList s
      else if bComponentBased s
      then (true, SelectComponent (hit_component hits) bAppendToList s)
      else (true, SelectActor (hit_actor hits) bAppendToList s)
  end.

Definition HandleTracedObjects (HitResults : list FHitResult) (bAppendToList : bool) (s : State)
  : bool * State :=
  let s1 := ClearDomain s in
  let '(bGizmo, s2) :=
    match Gizmo s1 with
    | Some g => HandleTracedObjects_gizmo g HitResults s1
    | None => (false, s1)
    end in
  if bGizmo then (true, s2) else HandleTracedObjects_select HitResults bAppendToList s2.

(** [TraceByObjectTypes], [TraceByChannel] and [TraceByProfile] differ in
    the engine query alone. *)
Definition TraceBy (q : TraceQuery) (StartLocation EndLocation : FVector)
  (IgnoredActors : list Actor) (bAppendToList : bool) (s : State) : bool * State :=
  if HasWorld (cfg s) then
    let '(bHit, OutHits) := LineTraceMulti (cfg s) q StartLocation EndLocation IgnoredActors in
    if bHit then
      let '(OutHits', s1) := FilterHits OutHits s in
      HandleTracedObjects OutHits' bAppendToList s1
    else (false, s)
  else (false, s).

Definition TraceByObjectTypes StartLocation EndLocation (CollisionChannels : list nat) :=
  TraceBy (ByObjectType CollisionChannels) StartLocation EndLocation.
Definition TraceByChannel StartLocation EndLocation (TraceChannel : nat) :=
  TraceBy (ByChannel TraceChannel) StartLocation EndLocation.
Definition TraceByProfile StartLocation EndLocation (ProfileName : nat) :=
  TraceBy (ByProfile ProfileName) StartLocation EndLocation.

Definition MouseTraceByObjectTypes (TraceDistance : F) (CollisionChannels : list nat)
  (IgnoredActors : list Actor) (bAppendToList : bool) (s : State) : bool * State :=
  match GetMouseStartEndPoints TraceDistance s with
  | Some (start, end_) =>
      let '(bTraceSuccessful, s1) :=
        TraceByObjectTypes start end_ CollisionChannels IgnoredActors bAppendToList s in
      (bTraceSuccessful,
       if negb bTraceSuccessful && negb bAppendToList then ServerDeselectAll false s1 else s1)
  | None => (false, s)
  end.

Definition MouseTraceByChannel (TraceDistance : F) (TraceChannel : nat)
  (IgnoredActors : list Actor) (bAppendToList : bool) (s : State) : bool * State :=
  match GetMouseStartEndPoints TraceDistance s with
  | Some (start, end_) =>
      let '(bTraceSuccessful, s1) :=
        TraceByChannel start end_ TraceChannel IgnoredActors bAppendToList s in
      (false,
       if negb bTraceSuccessful && negb bAppendToList then ServerDeselectAll false s1 else s1)
  | None => (false, s)
  end.

Definition MouseTraceByProfile (TraceDistance : F) (ProfileName : nat)
  (IgnoredActors : list Actor) (bAppendToList : bool) (s : State) : bool * State :=
  match GetMouseStartEndPoints TraceDistance s with
  | Some (start, end_) =>
      let '(bTraceSuccessful, s1) :=
        TraceByProfile start end_ ProfileName IgnoredActors bAppendToList s in
      (bTraceSuccessful,
       if negb bTraceSuccessful && negb bAppendToList then ServerDeselectAll false s1 else s1)
  | None => (false, s)
  end.

(** [GetPlayerController()] is dereferenced without a test: the owner
    has to be a player controller. *)
Definition GetIgnoredActorsForServerTrace (s : State) : Outcome (list Actor) :=
  if OwnerIsPlayerController (cfg s) then
    Done (if negb (IsLocalController (cfg s)) then
            match Gizmo s with Some g => [g] | None => [] end
          else [])
  else NullDereference.

(** [ServerTraceByObjectTypes_Implementation] and its two siblings. *)
Definition ServerTraceBy_Implementation (q : TraceQuery) (StartLocation EndLocation : FVector)
  (bAppendToList : bool) (s : State) : Outcome State :=
  match GetIgnoredActorsForServerTrace s with
  | Done ignoredActors =>
      let '(bTraceSuccessful, s1) :=
        TraceBy q StartLocation EndLocation ignoredActors bAppendToList s in
      let s2 := if negb bTraceSuccessful && negb bAppendToList
                then (DeselectAll false s1).2 else s1 in
      let s3 := MulticastSetDomain (CurrentDomain s2) s2 in
      Done (MulticastSetSelectedComponents (SelectedComponents s3) s3)
  | NullDereference => NullDereference
  | Diverges => Diverges
  end.

Definition ServerTraceByObjectTypes_Implementation StartLocation EndLocation
  (CollisionChannels : list nat) :=
  ServerTraceBy_Implementation (ByObjectType CollisionChannels) StartLocation EndLocation.
Definition ServerTraceByChannel_Implementation StartLocation EndLocation (TraceChannel : nat) :=
  ServerTraceBy_Implementation (ByChannel TraceChannel) StartLocation EndLocation.
Definition ServerTraceByProfile_Implementation StartLocation EndLocation (ProfileName : nat) :=
  ServerTraceBy_Implementation (ByProfile ProfileName) StartLocation EndLocation.

Definition ServerTraceBy (q : TraceQuery) (StartLocation EndLocation : FVector)
  (bAppendToList : bool) : State → Outcome State :=
  try_call_server (ReqTrace q StartLocation EndLocation bAppendToList)
                  (ServerTraceBy_Implementation q StartLocation EndLocation bAppendToList).

Definition ReplicateServerTraceResults (bTraceSuccessful bAppendToList : bool) (s : State)
  : State :=
  if negb (HasAuthority s) then
    let s1 := if negb bTraceSuccessful && negb bAppendToList
              then (DeselectAll false s).2 else s in
    let s2 := MulticastSetDomain (CurrentDomain s1) s1 in
    MulticastSetSelectedComponents (SelectedComponents s2) s2
  else s.

Definition ReplicatedMouseTraceByObjectTypes (TraceDistance : F)
  (CollisionChannels : list nat) (bAppendToList : bool) (s : State) : Outcome State :=
  match GetMouseStartEndPoints TraceDistance s with
  | Some (start, end_) =>
      let '(bTraceSuccessful, s1) :=
        TraceByObjectTypes start end_ CollisionChannels [] bAppendToList s in
      if bool_decide (OwnerRole (cfg s1) = ROLE_Authority) then
        Done (ReplicateServerTraceResults bTraceSuccessful bAppendToList s1)
      else if negb bTraceSuccessful && negb bAppendToList
      then Done (ServerDeselectAll false s1)
      else if bool_decide (CurrentDomain s1 = TD_None)
      then ServerTraceBy (ByObjectType CollisionChannels) start end_ bAppendToList s1
      else Done (ServerSetDomain (CurrentDomain s1) s1)
  | None => Done s
  end.

(** The channel and profile variants send the trace or the domain to the
    authority after a miss as well. *)
Definition ReplicatedMouseTraceBy (q : TraceQuery) (TraceDistance : F) (bAppendToList : bool)
  (s : State) : Outcome State :=
  match GetMouseStartEndPoints TraceDistance s with
  | Some (start, end_) =>
      let '(bTraceSuccessful, s1) := TraceBy q start end_ [] bAppendToList s in
      if bool_decide (OwnerRole (cfg s1) = ROLE_Authority) then
        Done (ReplicateServerTraceResults bTraceSuccessful bAppendToList s1)
      else
        let s2 := if negb bTraceSuccessful && negb bAppendToList
                  then ServerDeselectAll false s1 else s1 in
        if bool_decide (CurrentDomain s2 = TD_None)
        then ServerTraceBy q start end_ bAppendToList s2
        else Done (ServerSetDomain (CurrentDomain s2) s2)
  | None => Done s
  end.

Definition ReplicatedMouseTraceByChannel (TraceDistance : F) (CollisionChannel : nat) :=
  ReplicatedMouseTraceBy (ByChannel CollisionChannel) TraceDistance.
Definition ReplicatedMouseTraceByProfile (TraceDistance : F) (ProfileName : nat) :=
  ReplicatedMouseTraceBy (ByProfile ProfileName) TraceDistance.

(** ** Cloning *)

Definition set_a_root (r : option Comp) (d : ActorData) : ActorData :=
  {| a_root := r; a_focusable := a_focusable d; a_net := a_net d;
     a_valid := a_valid d; a_net_startup := a_net_startup d; a_gizmo := a_gizmo d |}.

Definition set_c_begun_play (b : bool) (d : CompData) : CompData :=
  {| c_owner := c_owner d; c_parent := c_parent d; c_focusable := c_focusable d;
     c_net := c_net d; c_begun_play := b; c_valid := c_valid d;
     c_movable := c_movable d |}.

(** The engine finishes the initialization of a component: from then on
    [HasBegunPlay()] holds. *)
Definition BeginPlay (c : Comp) (w : World) : World :=
  set_comps (alter (set_c_begun_play true) c (comps w)) w.

(** [world->SpawnActor(class, transform, params)] with a template: a new
    actor that copies the template.  This is the engine's function and
    not the component's: the model lets it succeed on every template of
    the store, holds of the copied components the root alone (the only
    one the component refers to), and starts the copy as one that has not
    begun play, which the engine changes on its own schedule
    ([BeginPlay]).  No general statement about cloning below rests on
    that initial value; the run that shows the defect of the readiness
    poll uses it for the one clone that has not begun play. *)
Definition SpawnActor (templateActor : Actor) (w : World) : option Actor * World :=
  match actors w !! templateActor with
  | None => (None, w)
  | Some d =>
      let actor := fresh (dom (actors w)) in
      match a_root d ≫= λ r, comps w !! r with
      | Some rd =>
          let root := fresh (dom (comps w)) in
          (Some actor,
           {| comps := <[root := set_c_begun_play false
                                   (set_c_parent None (set_c_owner (Some actor) rd))]> (comps w);
              actors := <[actor := set_a_root (Some root) d]> (actors w) |})
      | None => (Some actor, set_actors (<[actor := set_a_root None d]> (actors w)) w)
      end
  end.

(** One iteration of the loop of [CloneActors], which carries the set
    [actorsProcessed], the world and [outClones].  The template is
    written before it is copied: [templateActor->bNetStartup = false]. *)
Definition CloneActors_step (acc : gset nat * World * list Ptr) (templateActor : option Actor)
  : gset nat * World * list Ptr :=
  let '(actorsProcessed, w, outClones) := acc in
  match templateActor with
  | None => acc
  | Some t =>
      if bool_decide (t ∈ actorsProcessed) then acc
      else
        let w1 := set_actors (alter (set_a_net_startup false) t (actors w)) w in
        match SpawnActor t w1 with
        | (Some actor, w') =>
            ({[t]} ∪ actorsProcessed, w', outClones ++ [GetRootComponent w' actor])
        | (None, w') => ({[t]} ∪ actorsProcessed, w', outClones)
        end
  end.

Definition CloneActors (Actors : list (option Actor)) (s : State) : list Ptr * State :=
  if HasWorld (cfg s) then
    let '(_, w, outClones) := foldl CloneActors_step (∅, world s, []) Actors in
    (outClones, set_world w s)
  else ([], s).

(** The duplication phase of [CloneComponents].  The loop carries the
    world, [outClones], the map [OcCc] from an original to its clone and
    the map [CcOp] from a clone to its original parent.  The keys of
    [CcOp] are new objects, so no entry is ever replaced, and the map is
    traversed in the order of insertion: it is kept as a list. *)
Definition clone_step (acc : World * list Ptr * gmap nat nat * list (nat * Ptr))
  (templateComponent : Ptr) : World * list Ptr * gmap nat nat * list (nat * Ptr) :=
  let '(w, outClones, OcCc, CcOp) := acc in
  match templateComponent with
  | None => acc
  | Some t =>
      match comps w !! t with
      | None => acc
      | Some d =>
          match c_owner d with
          | None => acc
          | Some owner =>
              let clone := fresh (dom (comps w)) in
              let w' := set_comps (<[clone := set_c_owner (Some owner) d]> (comps w)) w in
              let originalParent :=
                if bool_decide (Some t = GetRootComponent w owner)
                then GetRootComponent w owner else c_parent d in
              (w', outClones ++ [Some clone], <[t := clone]> OcCc,
               CcOp ++ [(clone, originalParent)])
          end
      end
  end.

(** The loop [while (1)] of the reparenting phase.  [root] is
    [actorOwner->GetRootComponent()], [original] is [cp.Value], and the
    fuel bounds the number of iterations. *)
Fixpoint reparent_walk (fuel : nat) (w : World) (OcCc : gmap nat nat) (root : Ptr)
  (original : Comp) (parent : Ptr) : Outcome Ptr :=
  match fuel with
  | 0 => Diverges
  | S fuel' =>
      if bool_decide (parent = root) then Done (Some original)
      else
        match parent with
        | None => NullDereference
        | Some p =>
            match GetAttachParent w p ≫= λ q, OcCc !! q with
            | Some cloneParent => Done (Some cloneParent)
            | None => reparent_walk fuel' w OcCc root original (GetAttachParent w p)
            end
        end
  end.

(** The parent chosen for the clone [clone] whose original parent is
    [originalParent]. *)
Definition reparent_target (fuel : nat) (w : World) (OcCc : gmap nat nat) (clone : Comp)
  (originalParent : Ptr) : Outcome Ptr :=
  match originalParent with
  | None => NullDereference
  | Some P =>
      match OcCc !! P with
      | Some cloneParent =>
          Done (if bool_decide (cloneParent = clone) then Some P else Some cloneParent)
      | None =>
          match GetOwner w P with
          | None => NullDereference
          | Some actorOwner =>
              reparent_walk fuel w OcCc (GetRootComponent w actorOwner) P (Some P)
          end
      end
  end.

(** [AttachToComponent] makes [parent] the attachment parent of [c].  The
    engine declines to attach a component to itself or below one of its
    own descendants; the model attaches in every case, and the results
    about the pass say that no clone ends up attached to itself or on a
    cycle. *)
Definition AttachToComponent (c : Comp) (parent : Ptr) (w : World) : World :=
  set_comps (alter (set_c_parent parent) c (comps w)) w.

Definition reparent_step (fuel : nat) (OcCc : gmap nat nat) (acc : Outcome World)
  (cp : nat * Ptr) : Outcome World :=
  match acc with
  | Done w =>
      match reparent_target fuel w OcCc cp.1 cp.2 with
      | Done parent => Done (AttachToComponent cp.1 parent w)
      | NullDereference => NullDereference
      | Diverges => Diverges
      end
  | NullDereference => NullDereference
  | Diverges => Diverges
  end.

(** A walk up a finite store that takes more steps than there are
    components runs for ever: that many steps are the fuel of each walk. *)
Definition CloneComponents_world (Components : list Ptr) (w : World)
  : Outcome (list Ptr * World) :=
  let '(w1, outClones, OcCc, CcOp) := foldl clone_step (w, [], ∅, []) Components in
  match foldl (reparent_step (S (size (comps w1))) OcCc) (Done w1) CcOp with
  | Done w2 => Done (outClones, w2)
  | NullDereference => NullDereference
  | Diverges => Diverges
  end.

Definition CloneComponents (Components : list Ptr) (s : State) : Outcome (list Ptr * State) :=
  if HasWorld (cfg s) then
    match CloneComponents_world Components (world s) with
    | Done (outClones, w) => Done (outClones, set_world w s)
    | NullDereference => NullDereference
    | Diverges => Diverges
    end
  else Done ([], s).

Definition CloneFromList (ComponentList : list Ptr) (s : State) : Outcome (list Ptr * State) :=
  let r :=
    if bComponentBased s then
      CloneComponents (filter is_Some ComponentList) s
    else
      Done (CloneActors (omap (λ i : Ptr, GetOwner (world s) <$> i) ComponentList) s) in
  match r with
  | Done (outClones, s1) =>
      Done (outClones,
            match Gizmo s1 with
            | Some g =>
                if bool_decide (CurrentDomain s1 = TD_None) then s1
                else set_world (alter_gizmo (SetTransformProgressState true (CurrentDomain s1))
                                            g (world s1)) s1
            | None => s1
            end)
  | NullDereference => NullDereference
  | Diverges => Diverges
  end.

Definition ServerCloneSelected_Implementation (bSelectNewClones bAppendToList : bool)
  (s : State) : Outcome State :=
  if bComponentBased s then
    Done (emit (LogWarning ComponentCloningNotSupported) s)
  else
    let ComponentListCopy := SelectedComponents s in
    match CloneFromList ComponentListCopy s with
    | Done (CloneList, s1) =>
        if bSelectNewClones then
          let s2 := SelectMultipleComponents CloneList bAppendToList s1 in
          let s3 := set_UnreplicatedComponentClones CloneList s2 in
          Done (if HasWorld (cfg s3) then
                  if negb (CheckUnrepTimerHandle s3)
                  then set_CheckUnrepTimerHandle true s3 else s3
                else s3)
        else Done s1
    | NullDereference => NullDereference
    | Diverges => Diverges
    end.

(** [TArray::RemoveAtSwap(Index, Count)]: the [Count] entries from
    [Index] on are removed, and the hole is filled with as many entries
    from the end of the array as fit. *)
Definition RemoveAtSwap {A} (Index Count : nat) (l : list A) : list A :=
  let NumElementsAfterHole := length l - (Index + Count) in
  let NumElementsToMoveIntoHole := Count `min` NumElementsAfterHole in
  take Index l ++ drop (length l - NumElementsToMoveIntoHole) l
    ++ take (NumElementsAfterHole - NumElementsToMoveIntoHole) (drop (Index + Count) l).

(** The test of the loop of [CheckUnreplicatedActors] on one clone. *)
Definition clone_replicated (s : State) (timeElapsed : F) (c : Ptr) : bool :=
  match c with
  | Some c' =>
      comp_flag c_begun_play (world s) c' && comp_flag c_net (world s) c' &&
      fgt timeElapsed (MinimumCloneReplicationTime (cfg s))
  | None => false
  end.

(** [timeElapsed] is what [GetTimerElapsed(CheckUnrepTimerHandle)] returns. *)
Definition CheckUnreplicatedActors (timeElapsed : F) (s : State) : State :=
  let RemoveCount :=
    length (filter (λ c, clone_replicated s timeElapsed c = true)
                   (UnreplicatedComponentClones s)) in
  let s1 := set_UnreplicatedComponentClones
              (RemoveAtSwap 0 RemoveCount (UnreplicatedComponentClones s)) s in
  if bool_decide (length (UnreplicatedComponentClones s1) = 0) then
    MulticastSetSelectedComponents (SelectedComponents s1)
      (set_CheckUnrepTimerHandle false s1)
  else s1.

(** One interval of the readiness timer. *)
Definition CheckUnreplicatedActors_timer (timeElapsed : F) (s : State) : State :=
  if CheckUnrepTimerHandle s then CheckUnreplicatedActors timeElapsed s else s.

(** The engine, between two calls of the component. *)
Definition engine_BeginPlay (c : Comp) (s : State) : State :=
  set_world (BeginPlay c (world s)) s.

(** ** What a proxy receives *)

Inductive ProxyInput :=
  | Broadcast (Components : list Ptr)   (* a selection broadcast arrives *)
  | TimerInterval.                      (* an interval of the resync timer passes *)

Definition proxy_step (s : State) (i : ProxyInput) : State :=
  match i with
  | Broadcast Components => MulticastSetSelectedComponents_Implementation Components s
  | TimerInterval => ResyncSelection_timer s
  end.

Definition proxy_run (s : State) (l : list ProxyInput) : State := foldl proxy_step s l.

(** The broadcasts in a log. *)
Definition is_broadcast (e : Event) : bool :=
  match e with SendToAll _ => true | _ => false end.

(** The number of resync requests in a log. *)
Definition is_sync_request (e : Event) : bool :=
  match e with SendToServer ReqSyncSelectedComponents => true | _ => false end.
Definition sync_requests (log : list Event) : nat :=
  length (filter (λ e, is_sync_request e = true) log).

(** ** The operations of the component *)

(** The operations of the component that are modelled: the calls of its
    public interface, the handlers of the requests (run by the authority)
    and of the broadcasts (run by every participant), and the two timers. *)
Definition server_handler (r : ServerRPC) (s : State) : Outcome State :=
  match r with
  | ReqTrace q StartLocation EndLocation bAppendToList =>
      ServerTraceBy_Implementation q StartLocation EndLocation bAppendToList s
  | ReqClearDomain => Done (ServerClearDomain_Implementation s)
  | ReqApplyTransform DeltaTransform => ServerApplyTransform_Implementation DeltaTransform s
  | ReqDeselectAll bDestroySelected => Done (ServerDeselectAll_Implementation bDestroySelected s)
  | ReqSetDomain Domain => Done (ServerSetDomain_Implementation Domain s)
  | ReqSyncSelectedComponents => Done (ServerSyncSelectedComponents_Implementation s)
  | ReqCloneSelected bSelectNewClones bAppendToList =>
      ServerCloneSelected_Implementation bSelectNewClones bAppendToList s
  end.

Definition multicast_handler (m : MulticastRPC) (s : State) : Outcome State :=
  match m with
  | BcastClearDomain => Done (MulticastClearDomain_Implementation s)
  | BcastApplyTransform DeltaTransform => MulticastApplyTransform_Implementation DeltaTransform s
  | BcastDeselectAll bDestroySelected =>
      Done (MulticastDeselectAll_Implementation bDestroySelected s)
  | BcastSetDomain Domain => Done (MulticastSetDomain_Implementation Domain s)
  | BcastSetSelectedComponents Components =>
      Done (MulticastSetSelectedComponents_Implementation Components s)
  end.

Inductive Operation :=
  | OpSelection (op : SelectionOp)
  | OpSetTransformationType (TransformationType : ETransformationType)
  | OpSetDomain (Domain : ETransformationDomain)
  | OpClearDomain
  | OpMouseTraceByObjectTypes (TraceDistance : F) (CollisionChannels : list nat)
      (IgnoredActors : list Actor) (bAppendToList : bool)
  | OpMouseTraceByChannel (TraceDistance : F) (TraceChannel : nat)
      (IgnoredActors : list Actor) (bAppendToList : bool)
  | OpMouseTraceByProfile (TraceDistance : F) (ProfileName : nat)
      (IgnoredActors : list Actor) (bAppendToList : bool)
  | OpReplicatedMouseTraceByObjectTypes (TraceDistance : F) (CollisionChannels : list nat)
      (bAppendToList : bool)
  | OpReplicatedMouseTraceByChannel (TraceDistance : F) (CollisionChannel : nat)
      (bAppendToList : bool)
  | OpReplicatedMouseTraceByProfile (TraceDistance : F) (ProfileName : nat)
      (bAppendToList : bool)
  | OpCloneFromSelection
  | OpServer (r : ServerRPC)
  | OpMulticast (m : MulticastRPC)
  | OpResyncTimer
  | OpCheckUnreplicatedTimer (timeElapsed : F)
  | OpReplicateFinishTransform.

Definition run_operation (s : State) (o : Operation) : Outcome State :=
  match o with
  | OpSelection op => Done (run_op s op)
  | OpSetTransformationType k => Done (SetTransformationType k s)
  | OpSetDomain d => Done (SetDomain d s)
  | OpClearDomain => Done (ClearDomain s)
  | OpMouseTraceByObjectTypes d ch ig b => Done (MouseTraceByObjectTypes d ch ig b s).2
  | OpMouseTraceByChannel d ch ig b => Done (MouseTraceByChannel d ch ig b s).2
  | OpMouseTraceByProfile d pn ig b => Done (MouseTraceByProfile d pn ig b s).2
  | OpReplicatedMouseTraceByObjectTypes d ch b => ReplicatedMouseTraceByObjectTypes d ch b s
  | OpReplicatedMouseTraceByChannel d ch b => ReplicatedMouseTraceByChannel d ch b s
  | OpReplicatedMouseTraceByProfile d pn b => ReplicatedMouseTraceByProfile d pn b s
  | OpCloneFromSelection =>
      match CloneFromList (SelectedComponents s) s with
      | Done (_, s') => Done s'
      | NullDereference => NullDereference
      | Diverges => Diverges
      end
  | OpServer r => server_handler r s
  | OpMulticast m => multicast_handler m s
  | OpResyncTimer => Done (ResyncSelection_timer s)
  | OpCheckUnreplicatedTimer t => Done (CheckUnreplicatedActors_timer t s)
  | OpReplicateFinishTransform => ReplicateFinishTransform s
  end.

(** ** Vocabulary of the statements about cloned hierarchies *)

(** A well-formed attachment hierarchy: attachment parents are components
    of the store, a rank decreases along the attachments (there is no
    cycle), and a component owned by an actor is the root of the actor or
    is attached to a component of the same actor. *)
Record hierarchy (w : World) (depth : Comp → nat) : Prop := {
  hierarchy_closed : ∀ c p, GetAttachParent w c = Some p → is_Some (comps w !! p);
  hierarchy_acyclic : ∀ c p, GetAttachParent w c = Some p → depth p < depth c;
  hierarchy_rooted : ∀ c a, GetOwner w c = Some a →
    GetRootComponent w a = Some c ∨
    ∃ p, GetAttachParent w c = Some p ∧ GetOwner w p = Some a
}.

Definition acyclic (w : World) : Prop :=
  ∃ depth : Comp → nat, ∀ c p, GetAttachParent w c = Some p → depth p < depth c.

(** What the duplication phase records as the original parent of the
    clone of [t]: the root of the owner when [t] is that root, the
    attachment parent of [t] otherwise. *)
Definition original_parent (w : World) (t : Comp) : Ptr :=
  match comps w !! t with
  | Some d =>
      match c_owner d with
      | Some owner =>
          if bool_decide (Some t = GetRootComponent w owner)
          then GetRootComponent w owner else c_parent d
      | None => None
      end
  | None => None
  end.

(** The templates that are cloned, each with its clone, in the order of
    cloning, determine the map from an original to its clone: a later
    clone of the same original replaces an earlier one. *)
Definition clone_map (tc : list (nat * nat)) : gmap nat nat :=
  foldl (λ m x, <[x.1 := x.2]> m) ∅ tc.

(** The walk up the original hierarchy from [c], below the root [r]: it
    ends at the clone of the nearest attachment ancestor of [c] that was
    cloned, or, when the root is reached first, at the original parent
    [P] of the clone being attached. *)
Inductive walk_up (w : World) (OcCc : gmap nat nat) (r P : Comp) : Comp → Comp → Prop :=
  | walk_root : walk_up w OcCc r P r P
  | walk_found c q kq :
      c ≠ r → GetAttachParent w c = Some q → OcCc !! q = Some kq →
      walk_up w OcCc r P c kq
  | walk_next c q target :
      c ≠ r → GetAttachParent w c = Some q → OcCc !! q = None →
      walk_up w OcCc r P q target → walk_up w OcCc r P c target.

(** The component the clone [k] with original parent [P] is attached to:
    the clone of [P] when [P] was cloned, unless that clone is [k] itself
    (the clone of a root), which is attached to the original root [P];
    the end of the walk up from [P] when [P] was not cloned. *)
Inductive attach_target (w : World) (OcCc : gmap nat nat) (k P : Comp) : Comp → Prop :=
  | target_clone_of_parent kp :
      OcCc !! P = Some kp → kp ≠ k → attach_target w OcCc k P kp
  | target_original_root :
      OcCc !! P = Some k → attach_target w OcCc k P P
  | target_walk a r target :
      OcCc !! P = None → GetOwner w P = Some a → GetRootComponent w a = Some r →
      walk_up w OcCc r P P target → attach_target w OcCc k P target.

(** A store that holds the actors and the components of [w0] as they
    are, and possibly more components. *)
Definition extends (w0 w : World) : Prop :=
  actors w = actors w0 ∧ ∀ c, is_Some (comps w0 !! c) → comps w !! c = comps w0 !! c.

(** What the duplication phase has built when the templates [tc.*1] have
    been cloned into [tc.*2], starting from the store [w0]. *)
Definition duplicated (w0 : World) (tc : list (nat * nat))
  (acc : World * list Ptr * gmap nat nat * list (nat * Ptr)) : Prop :=
  acc.1.1.2 = Some <$> tc.*2 ∧
  acc.1.2 = clone_map tc ∧
  acc.2 = (λ x, (x.2, original_parent w0 x.1)) <$> tc ∧
  extends w0 acc.1.1.1 ∧
  NoDup tc.*2 ∧
  dom (comps acc.1.1.1) = dom (comps w0) ∪ list_to_set tc.*2 ∧
  ∀ t k, (t, k) ∈ tc →
    comps w0 !! k = None ∧
    ∃ d a, comps w0 !! t = Some d ∧ c_owner d = Some a ∧
           comps acc.1.1.1 !! k = Some (set_c_owner (Some a) d).

(** The template a reference names when it is cloned: the reference is
    not null and the component has an owner. *)
Definition cloneable (w : World) (p : Ptr) : option nat :=
  t ← p; _ ← GetOwner w t; Some t.

(** The template of each clone. *)
Definition template_map (tc : list (nat * nat)) : gmap nat nat :=
  list_to_map (prod_swap <$> tc).

(** A bound on the rank of the components of a store. *)
Definition depth_bound (w : World) (depth : nat → nat) : nat :=
  S (max_list (depth <$> elements (dom (comps w)))).

(** A rank for the store after cloning: the originals keep their rank;
    the clones come above all originals, ordered by the rank of their
    templates, and an earlier clone of a template comes above the latest
    one. *)
Definition cloned_rank (w : World) (depth : nat → nat) (tc : list (nat * nat)) (c : nat)
  : nat :=
  match template_map tc !! c with
  | Some t =>
      depth_bound w depth + 2 * depth t +
      (if bool_decide (clone_map tc !! t = Some c) then 0 else 1)
  | None => depth c
  end.

(** A test of [hierarchy] on the finitely many components of a store. *)
Definition check_component (w : World) (depth : nat → nat) (c : nat) (d : CompData) : bool :=
  match c_parent d with
  | Some p => bool_decide (is_Some (comps w !! p)) && bool_decide (depth p < depth c)
  | None => true
  end &&
  match c_owner d with
  | Some a =>
      bool_decide (GetRootComponent w a = Some c) ||
      match c_parent d with
      | Some p => bool_decide (GetOwner w p = Some a)
      | None => false
      end
  | None => true
  end.

Definition check_hierarchy (w : World) (depth : nat → nat) : bool :=
  forallb (λ x, check_component w depth x.1 x.2) (map_to_list (comps w)).

(** ** Space, mode and local cloning *)

Definition set_CurrentSpaceType (x : ESpaceType) (c : Config) : Config :=
  {| OwnerRole := OwnerRole c; HasWorld := HasWorld c; GizmoPlacement := GizmoPlacement c;
     CurrentSpaceType := x;
     TranslationGizmoClass := TranslationGizmoClass c;
     RotationGizmoClass := RotationGizmoClass c;
     ScaleGizmoClass := ScaleGizmoClass c;
     MinimumCloneReplicationTime := MinimumCloneReplicationTime c;
     bIgnoreNonReplicatedObjects := bIgnoreNonReplicatedObjects c;
     bToggleSelectedInMultiSelection := bToggleSelectedInMultiSelection c;
     bForceMobility := bForceMobility c;
     bTransformUFocusableObjects := bTransformUFocusableObjects c;
     DeselectAll_default := DeselectAll_default c;
     ShouldSelect := ShouldSelect c;
     GetTransformationDomain := GetTransformationDomain c;
     OwnerIsPlayerController := OwnerIsPlayerController c;
     IsLocalController := IsLocalController c;
     DeprojectMousePositionToWorld := DeprojectMousePositionToWorld c;
     LineTraceMulti := LineTraceMulti c |}.

(** [ShouldSelect] is an overridable function of the owner, which is free
    to answer differently from one call to the next. *)
Definition set_ShouldSelect (x : option Actor → Ptr → bool) (c : Config) : Config :=
  {| OwnerRole := OwnerRole c; HasWorld := HasWorld c; GizmoPlacement := GizmoPlacement c;
     CurrentSpaceType := CurrentSpaceType c;
     TranslationGizmoClass := TranslationGizmoClass c;
     RotationGizmoClass := RotationGizmoClass c;
     ScaleGizmoClass := ScaleGizmoClass c;
     MinimumCloneReplicationTime := MinimumCloneReplicationTime c;
     bIgnoreNonReplicatedObjects := bIgnoreNonReplicatedObjects c;
     bToggleSelectedInMultiSelection := bToggleSelectedInMultiSelection c;
     bForceMobility := bForceMobility c;
     bTransformUFocusableObjects := bTransformUFocusableObjects c;
     DeselectAll_default := DeselectAll_default c;
     ShouldSelect := x;
     GetTransformationDomain := GetTransformationDomain c;
     OwnerIsPlayerController := OwnerIsPlayerController c;
     IsLocalController := IsLocalController c;
     DeprojectMousePositionToWorld := DeprojectMousePositionToWorld c;
     LineTraceMulti := LineTraceMulti c |}.

Definition set_cfg (x : Config) (s : State) : State :=
  {| cfg := x; world := world s; CurrentTransformation := CurrentTransformation s;
     CurrentDomain := CurrentDomain s; bComponentBased := bComponentBased s;
     bResyncSelection := bResyncSelection s;
     AccumulatedDeltaTransform := AccumulatedDeltaTransform s;
     NetworkDeltaTransform := NetworkDeltaTransform s;
     SelectedComponents := SelectedComponents s;
     UnreplicatedComponentClones := UnreplicatedComponentClones s; Gizmo := Gizmo s;
     CheckUnrepTimerHandle := CheckUnrepTimerHandle s;
     ResyncSelectionTimerHandle := ResyncSelectionTimerHandle s; out := out s |}.

(** [SetSpaceType] writes the one setting of [cfg] that the component
    changes after construction, and calls [SetGizmo], not
    [UpdateGizmoPlacement]: a gizmo that is kept is not told. *)
Definition SetSpaceType (SpaceType : ESpaceType) (s : State) : State :=
  SetGizmo (set_cfg (set_CurrentSpaceType SpaceType (cfg s)) s).

Definition MulticastSetSpaceType_Implementation (Space : ESpaceType) (s : State) : State :=
  SetSpaceType Space s.

Definition MulticastSetTransformationType_Implementation
  (Transformation : ETransformationType) (s : State) : State :=
  SetTransformationType Transformation s.

(** The domain, and [TransformInProgress]. *)
Definition GetCurrentDomain (s : State) : ETransformationDomain * bool :=
  (CurrentDomain s, negb (bool_decide (CurrentDomain s = TD_None))).

(** The loop of [SetComponentBased] that collects the owners:
    [c->GetOwner()] is evaluated on every entry, null or not. *)
Fixpoint owners_of (w : World) (selectedComponents : list Ptr)
  : Outcome (list (option Actor)) :=
  match selectedComponents with
  | [] => Done []
  | None :: _ => NullDereference
  | Some c :: rest =>
      match owners_of w rest with
      | Done actors => Done (GetOwner w c :: actors)
      | NullDereference => NullDereference
      | Diverges => Diverges
      end
  end.

Definition SetComponentBased (bIsComponentBased : bool) (s : State) : Outcome State :=
  let '(selectedComponents, s1) := DeselectAll (DeselectAll_default (cfg s)) s in
  let s2 := set_bComponentBased bIsComponentBased s1 in
  if bComponentBased s2 then
    Done (SelectMultipleComponents selectedComponents false s2)
  else
    match owners_of (world s2) selectedComponents with
    | Done actors => Done (SelectMultipleActors actors false s2)
    | NullDereference => NullDereference
    | Diverges => Diverges
    end.

Definition MulticastSetComponentBased_Implementation (bIsComponentBased : bool) (s : State)
  : Outcome State := SetComponentBased bIsComponentBased s.

(** [CloneSelected], the call for a participant that is alone.  Its
    warning is returned beside the outcome; the call goes on after it. *)
Inductive LogLine := CloningInNonAuthority.

Definition CloneSelected (bSelectNewClones bAppendToList : bool) (s : State)
  : list LogLine * Outcome State :=
  (if HasAuthority s then [] else [CloningInNonAuthority],
   match CloneFromList (SelectedComponents s) s with
   | Done (CloneComponents, s1) =>
       Done (if bSelectNewClones
             then SelectMultipleComponents CloneComponents bAppendToList s1 else s1)
   | NullDereference => NullDereference
   | Diverges => Diverges
   end).

(** ** Vocabulary of the further statements *)

(** A reference that the selection functions take up: it is not null
    and [ShouldSelect] accepts it with its owner. *)
Definition accepted (s : State) (c : Ptr) : bool :=
  match c with
  | Some c' => ShouldSelect (cfg s) (GetOwner (world s) c') c
  | None => false
  end.

(** An actor that the selection functions take up, with its root. *)
Definition accepted_actor (s : State) (a : option Actor) : bool :=
  match a with
  | Some a' => ShouldSelect (cfg s) a (GetRootComponent (world s) a')
  | None => false
  end.

(** The object that is told when a part enters or leaves the selection,
    as the specification has it: the part itself in part-based mode and
    its owning aggregate otherwise, and that object only when it has the
    Focusable capability. *)
Definition notified (w : World) (partBased : bool) (k : Comp) : option UObject :=
  if partBased then
    if comp_flag c_focusable w k then Some (UComp k) else None
  else
    match GetOwner w k with
    | Some a => if actor_flag a_focusable w a then Some (UActor a) else None
    | None => None
    end.

(** The notifications that are due when the part [k] enters the
    selection, and when it leaves it: the call of the Focusable object, if
    there is one, and then the selection-change event, which says whether
    there was one. *)
Definition focus_notifications (w : World) (partBased : bool) (k : Comp) : list Event :=
  match notified w partBased k with
  | Some o => [Focus o (Some k) partBased; OnComponentSelectionChange (Some k) true true]
  | None => [OnComponentSelectionChange (Some k) true false]
  end.
Definition unfocus_notifications (w : World) (partBased : bool) (k : Comp) : list Event :=
  match notified w partBased k with
  | Some o => [Unfocus o (Some k) partBased; OnComponentSelectionChange (Some k) false true]
  | None => [OnComponentSelectionChange (Some k) false false]
  end.

(** What [AddComponent_Internal] makes of the list: an absent reference
    is appended; a member is removed under the toggle policy and left
    where it is otherwise. *)
Definition toggle_in (bToggle : bool) (l : list Ptr) (c : Ptr) : list Ptr :=
  match Find l c with
  | None => l ++ [c]
  | Some Index => if bToggle then delete Index l else l
  end.

(** The transform session and the replication state of [s'] are those
    of [s]: the settings, the transformation kind, the domain, the mode,
    the out-of-sync flag, the two accumulated deltas, the pending clones
    and the two timers. *)
Definition same_session (s s' : State) : Prop :=
  cfg s' = cfg s ∧
  CurrentTransformation s' = CurrentTransformation s ∧
  CurrentDomain s' = CurrentDomain s ∧
  bComponentBased s' = bComponentBased s ∧
  bResyncSelection s' = bResyncSelection s ∧
  AccumulatedDeltaTransform s' = AccumulatedDeltaTransform s ∧
  NetworkDeltaTransform s' = NetworkDeltaTransform s ∧
  UnreplicatedComponentClones s' = UnreplicatedComponentClones s ∧
  CheckUnrepTimerHandle s' = CheckUnrepTimerHandle s ∧
  ResyncSelectionTimerHandle s' = ResyncSelectionTimerHandle s.

(** A gizmo exists only while something is selected. *)
Definition gizmo_needs_selection (s : State) : Prop :=
  SelectedComponents s = [] → Gizmo s = None.

(** The remote procedure calls of a log, in order: the requests sent to
    the authority and the broadcasts sent to every participant. *)
Definition is_message (e : Event) : bool :=
  match e with SendToServer _ | SendToAll _ => true | _ => false end.
Definition messages (log : list Event) : list Event :=
  filter (λ e, is_message e = true) log.

(** A sequence of operations, run until one of them fails. *)
Fixpoint run_operations (s : State) (os : list Operation) : Outcome State :=
  match os with
  | [] => Done s
  | o :: os' =>
      match run_operation s o with
      | Done s' => run_operations s' os'
      | NullDereference => NullDereference
      | Diverges => Diverges
      end
  end.

(** What the loop of [SelectMultipleComponents], in append mode, makes
    of the list [l]: the references that are accepted are taken up one
    after the other. *)
Definition select_all (s : State) (l : list Ptr) (Components : list Ptr) : list Ptr :=
  foldl (λ l c, if accepted s c
                then toggle_in (bToggleSelectedInMultiSelection (cfg s)) l c else l)
        l Components.

(** A hit that does not engage the gizmo [g]: it is on another actor, or
    on no component, or on a part without a domain. *)
Definition no_domain_hit (s : State) (g : Actor) (h : FHitResult) : Prop :=
  hit_actor h = Some g →
  ∀ k, hit_component h = Some k → GetTransformationDomain (cfg s) k = TD_None.



(** The gizmo class that is configured for a kind. *)
Definition GizmoClassFor (c : Config) (k : ETransformationType) : option ETransformationType :=
  match k with
  | TT_Translation => TranslationGizmoClass c
  | TT_Rotation => RotationGizmoClass c
  | TT_Scale => ScaleGizmoClass c
  | TT_NoTransform => None
  end.

(** The component that [UpdateGizmoPlacement] attaches the gizmo to. *)
Definition ComponentToAttachTo (s : State) : Ptr :=
  match GizmoPlacement (cfg s) with
  | GP_OnFirstSelection => mjoin (head (SelectedComponents s))
  | GP_OnLastSelection => mjoin (last (SelectedComponents s))
  | GP_None => None
  end.

(** What the loop of [SelectMultipleActors], in append mode, makes of
    the list [l]: the root of each actor that is accepted is taken up. *)
Definition select_all_actors (s : State) (l : list Ptr) (Actors : list (option Actor))
  : list Ptr :=
  foldl (λ l a, if accepted_actor s a
                then toggle_in (bToggleSelectedInMultiSelection (cfg s)) l
                               (a ≫= GetRootComponent (world s))
                else l)
        l Actors.

End Model.

Arguments FVector : clear implicits.
Arguments FQuat : clear implicits.
Arguments FTransform : clear implicits.
Arguments ServerRPC : clear implicits.
Arguments MulticastRPC : clear implicits.
Arguments Event : clear implicits.
Arguments Config : clear implicits.
Arguments State : clear implicits.
Arguments Operation : clear implicits.

(** ** A small scene

    Scalars are read as integers (times in milliseconds).  Actor [0] has
    the root component [0], with component [1] attached to it and
    component [2] attached to [1]; actor [1] has the root component [3]
    only.  Component [1] and both actors implement [UFocusableObject]. *)

#[export] Instance Z_Scalar : Scalar Z :=
  {| fzero := 0%Z; fone := 1%Z; fadd := Z.add; fmul := Z.mul; fgt := Z.gtb |}.

Definition demo_comp (owner : Actor) (parent : option Comp) (focusable : bool) : CompData :=
  {| c_owner := Some owner; c_parent := parent; c_focusable := focusable;
     c_net := true; c_begun_play := true; c_valid := true; c_movable := true |}.

Definition demo_actor (root : Comp) (focusable : bool) : ActorData :=
  {| a_root := Some root; a_focusable := focusable; a_net := true; a_valid := true;
     a_net_startup := true; a_gizmo := None |}.

Definition demo_world : World :=
  {| comps := <[0 := demo_comp 0 None false]> (<[1 := demo_comp 0 (Some 0) true]>
              (<[2 := demo_comp 0 (Some 1) false]> (<[3 := demo_comp 1 None false]> ∅)));
     actors := <[0 := demo_actor 0 true]> (<[1 := demo_actor 3 true]> ∅) |}.

(** Two actors of three components each: [1] is attached to the root [0]
    and [2] to [1]; [4] is attached to the root [3] and [5] to [4]. *)
Definition demo_tree : World :=
  {| comps := <[0 := demo_comp 0 None false]> (<[1 := demo_comp 0 (Some 0) false]>
              (<[2 := demo_comp 0 (Some 1) false]> (<[3 := demo_comp 1 None false]>
              (<[4 := demo_comp 1 (Some 3) false]> (<[5 := demo_comp 1 (Some 4) false]> ∅)))));
     actors := <[0 := demo_actor 0 false]> (<[1 := demo_actor 3 false]> ∅) |}.

(** An actor with the root [0] and a component [1] that is not attached
    to anything: there is no cycle, and [1] is not below the root. *)
Definition demo_detached : World :=
  {| comps := <[0 := demo_comp 0 None false]> (<[1 := demo_comp 0 None false]> ∅);
     actors := <[0 := demo_actor 0 false]> ∅ |}.

(** An actor with the root [0] whose components [1] and [2] are attached
    to each other, and [3] to [1]. *)
Definition demo_cycle : World :=
  {| comps := <[0 := demo_comp 0 None false]> (<[1 := demo_comp 0 (Some 2) false]>
              (<[2 := demo_comp 0 (Some 1) false]> (<[3 := demo_comp 0 (Some 1) false]> ∅)));
     actors := <[0 := demo_actor 0 false]> ∅ |}.

(** The settings the constructor chooses, on a participant with the given
    role, and what the trace collaborator answers. *)
Definition demo_cfg_trace (role : ENetRole) (tr : bool * list FHitResult) : Config Z :=
  {| OwnerRole := role; HasWorld := true;
     GizmoPlacement := GP_OnLastSelection; CurrentSpaceType := ST_World;
     TranslationGizmoClass := Some TT_Translation;
     RotationGizmoClass := Some TT_Rotation;
     ScaleGizmoClass := Some TT_Scale;
     MinimumCloneReplicationTime := 10%Z;
     bIgnoreNonReplicatedObjects := false;
     bToggleSelectedInMultiSelection := true;
     bForceMobility := false;
     bTransformUFocusableObjects := true;
     DeselectAll_default := false;
     ShouldSelect := λ _ _, true;
     GetTransformationDomain := λ _, TD_X_Axis;
     OwnerIsPlayerController := true;
     IsLocalController := true;
     DeprojectMousePositionToWorld :=
       Some ({| VX := 0; VY := 0; VZ := 0 |}, {| VX := 1; VY := 0; VZ := 0 |})%Z;
     LineTraceMulti := λ _ _ _ _, tr |}.

(** A participant whose trace finds nothing. *)
Definition demo_cfg (role : ENetRole) : Config Z := demo_cfg_trace role (false, []).

Definition demo_state (role : ENetRole) : State Z :=
  UTransformerComponent (demo_cfg role) demo_world.

(** A participant whose trace hits component [0] of actor [0], with
    nothing selected. *)
Definition demo_hit_object (role : ENetRole) : State Z :=
  UTransformerComponent
    (demo_cfg_trace role (true, [{| hit_actor := Some 0; hit_component := Some 0 |}]))
    demo_world.

(** A participant with component [0] selected, whose trace hits part [7]
    of its gizmo (the gizmo is the new actor [2]). *)
Definition demo_hit_gizmo (role : ENetRole) : State Z :=
  SelectComponent (Some 0) false
    (UTransformerComponent
       (demo_cfg_trace role (true, [{| hit_actor := Some 2; hit_component := Some 7 |}]))
       demo_world).

(** The selection [0; 1], built by two calls of [SelectComponent]. *)
Definition demo_selected (role : ENetRole) : State Z :=
  SelectComponent (Some 1) true (SelectComponent (Some 0) false (demo_state role)).

(** The roots of the two actors selected on the authority, in
    aggregate mode. *)
Definition demo_two_actors : State Z :=
  SelectActor (Some 1) true (SelectActor (Some 0) false (demo_state ROLE_Authority)).

(** The same selection in part-based mode. *)
Definition demo_parts (role : ENetRole) : State Z :=
  set_bComponentBased true (demo_selected role).

(** A drag in progress: the snapping remainder holds three units along X
    and the gesture has moved the selection by five. *)
Definition demo_delta (x : Z) : FTransform Z :=
  {| Rotation := QuatIdentity;
     Translation := {| VX := x; VY := 0%Z; VZ := 0%Z |};
     Scale3D := ZeroVector |}.
Definition demo_dragging (role : ENetRole) : State Z :=
  set_NetworkDeltaTransform (demo_delta 5)
    (set_AccumulatedDeltaTransform (demo_delta 3) (demo_selected role)).

(** A sequence of operations that adds, toggles, replaces and removes. *)
Definition demo_ops : list SelectionOp :=
  [ OpSelectComponent (Some 0) false; OpSelectComponent (Some 1) true;
    OpSelectComponent (Some 0) true; OpSelectActor (Some 1) false;
    OpSelectMultipleComponents [Some 0; None; Some 2; Some 1] true;
    OpSelectComponent None true; OpDeselectComponent (Some 1);
    OpDeselectComponent (Some 1) ].

(** The scene with a third actor, [2], that has no root component. *)
Definition demo_rootless : World :=
  set_actors (<[2 := {| a_root := None; a_focusable := false; a_net := true;
                        a_valid := true; a_net_startup := true;
                        a_gizmo := None |}]> (actors demo_world))
             demo_world.

(** The state a run of operations reaches from [s]; [s] itself when the
    run fails. *)
Definition reached (s : State Z) (os : list (Operation Z)) : State Z :=
  match run_operations s os with Done s' => s' | _ => s end.

(** A run on a fresh authority: a component is selected, the kind is set
    to rotation, a trace that finds nothing clears the selection, an actor
    is selected, and a broadcast deselects everything. *)
Definition demo_operations : list (Operation Z) :=
  [ OpSelection (OpSelectComponent (Some 0) false);
    OpSetTransformationType TT_Rotation;
    OpMouseTraceByObjectTypes 1000%Z [0] [] false;
    OpSelection (OpSelectActor (Some 1) true);
    OpMulticast (BcastDeselectAll false) ].

(** The authority after a clone request for the two selected actors,
    when both clones have begun play. *)
Definition demo_pending : State Z :=
  engine_BeginPlay 4 (engine_BeginPlay 5
    (reached demo_two_actors [OpServer (ReqCloneSelected true false)])).


(** The selection [0; 1] on a participant whose [ShouldSelect] hook has
    since come to reject every object: the hook is game code, and its
    answer may change from one call to the next. *)
Definition demo_vetoed : State Z :=
  set_cfg (set_ShouldSelect (λ _ _, false) (demo_cfg ROLE_Authority))
    (demo_selected ROLE_Authority).

(** An authority whose hook rejects the objects of actor [1], with
    component [0] selected and the gizmo spawned as the actor [2]. *)
Definition demo_picky : State Z :=
  SelectComponent (Some 0) false
    (UTransformerComponent
       (set_ShouldSelect (λ a _, bool_decide (a ≠ Some 1)) (demo_cfg ROLE_Authority))
       demo_world).

(** A fresh authority on the scene with the actor [2] that has no root
    component. *)
Definition demo_rootless_state : State Z :=
  UTransformerComponent (demo_cfg ROLE_Authority) demo_rootless.

(** A proxy that a broadcast with a null reference has left out of sync. *)
Definition demo_out_of_sync : State Z :=
  proxy_step (demo_state ROLE_AutonomousProxy) (Broadcast [Some 0; None]).

(** The settings of an authority whose owner is not a local player
    controller: no player controller at all, or one of another machine. *)
Definition demo_cfg_remote (pc : bool) : Config Z :=
  {| OwnerRole := ROLE_Authority; HasWorld := true;
     GizmoPlacement := GP_OnLastSelection; CurrentSpaceType := ST_World;
     TranslationGizmoClass := Some TT_Translation;
     RotationGizmoClass := Some TT_Rotation;
     ScaleGizmoClass := Some TT_Scale;
     MinimumCloneReplicationTime := 10%Z;
     bIgnoreNonReplicatedObjects := false;
     bToggleSelectedInMultiSelection := true;
     bForceMobility := false;
     bTransformUFocusableObjects := true;
     DeselectAll_default := false;
     ShouldSelect := λ _ _, true;
     GetTransformationDomain := λ _, TD_X_Axis;
     OwnerIsPlayerController := pc;
     IsLocalController := false;
     DeprojectMousePositionToWorld := None;
     LineTraceMulti := λ _ _ _ _, (false, []) |}.

(** Such an authority, for a remote player, with the kind set to none
    and component [0] selected: no gizmo class is configured for the kind,
    so there is a selection and no gizmo. *)
Definition demo_no_gizmo : State Z :=
  SelectComponent (Some 0) false
    (SetTransformationType TT_NoTransform
       (UTransformerComponent (demo_cfg_remote true) demo_world)).

(** The selection [0; 1] after the kind was set to none: the component
    still refers to the translation gizmo [2], which is destroyed. *)
Definition demo_gizmo_destroyed : State Z :=
  SetTransformationType TT_NoTransform (demo_selected ROLE_Authority).

(** The scene when actor [1] is not supported for networking, nor
    component [1] of actor [0]. *)
Definition demo_unreplicated : World :=
  {| comps := <[0 := demo_comp 0 None false]>
              (<[1 := {| c_owner := Some 0; c_parent := Some 0; c_focusable := true;
                         c_net := false; c_begun_play := true; c_valid := true;
                         c_movable := true |}]>
              (<[2 := demo_comp 0 (Some 1) false]>
              (<[3 := demo_comp 1 None false]> ∅)));
     actors := <[0 := demo_actor 0 true]>
               (<[1 := {| a_root := Some 3; a_focusable := true; a_net := false;
                          a_valid := true; a_net_startup := true; a_gizmo := None |}]> ∅) |}.

(** A participant on that scene, in part-based mode, that ignores
    objects which are not replicated. *)
Definition demo_filtering : State Z :=
  set_bComponentBased true
    (UTransformerComponent
       {| OwnerRole := ROLE_Authority; HasWorld := true;
          GizmoPlacement := GP_OnLastSelection; CurrentSpaceType := ST_World;
          TranslationGizmoClass := Some TT_Translation;
          RotationGizmoClass := Some TT_Rotation;
          ScaleGizmoClass := Some TT_Scale;
          MinimumCloneReplicationTime := 10%Z;
          bIgnoreNonReplicatedObjects := true;
          bToggleSelectedInMultiSelection := true;
          bForceMobility := false;
          bTransformUFocusableObjects := true;
          DeselectAll_default := false;
          ShouldSelect := λ _ _, true;
          GetTransformationDomain := λ _, TD_X_Axis;
          OwnerIsPlayerController := true;
          IsLocalController := true;
          DeprojectMousePositionToWorld := None;
          LineTraceMulti := λ _ _ _ _, (false, []) |}
       demo_unreplicated).

(** Four hits: component [0] of actor [0]; component [1] of the same
    actor, which is not replicated; the actor [0] with a component that
    is no longer valid; and component [3] of the actor [1] that is not
    replicated. *)
Definition demo_hits : list FHitResult :=
  [ {| hit_actor := Some 0; hit_component := Some 0 |};
    {| hit_actor := Some 0; hit_component := Some 1 |};
    {| hit_actor := Some 0; hit_component := None |};
    {| hit_actor := Some 1; hit_component := Some 3 |} ].

(** * Properties *)

Section Properties.
Context {F : Type} `{!Scalar F}.
Implicit Types (s : State F) (w : World) (c : Ptr) (l : list Ptr).

(** ** Object stores *)

Lemma same_objects_refl w : same_objects w w.
Proof. by repeat split. Qed.

Lemma same_objects_trans w1 w2 w3 :
  same_objects w1 w2 → same_objects w2 w3 → same_objects w1 w3.
Proof.
  intros (A1 & A2 & A3 & A4) (B1 & B2 & B3 & B4).
  repeat split; intros x; [rewrite B1|rewrite B2|rewrite B3|rewrite B4]; done.
Qed.

Lemma same_objects_DestroyActor a w : same_objects w (DestroyActor a w).
Proof.
  repeat split; intros x; unfold GetOwner, GetRootComponent, comp_flag, actor_flag; simpl.
  - rewrite lookup_fmap. destruct (comps w !! x) as [d|]; simpl; [|done].
    by case_bool_decide.
  - rewrite lookup_fmap. destruct (comps w !! x) as [d|]; simpl; [|done].
    by case_bool_decide.
  - rewrite lookup_alter. case_decide; [subst|done]. by destruct (actors w !! x).
  - rewrite lookup_alter. case_decide; [subst|done]. by destruct (actors w !! x).
Qed.

Lemma same_objects_DestroyComponent k w : same_objects w (DestroyComponent k w).
Proof.
  repeat split; intros x; unfold GetOwner, GetRootComponent, comp_flag, actor_flag; simpl;
    try done; rewrite lookup_alter; (case_decide; [subst|done]);
    by destruct (comps w !! x).
Qed.

Lemma same_objects_alter_gizmo f g w : same_objects w (alter_gizmo f g w).
Proof.
  repeat split; intros x; unfold GetOwner, GetRootComponent, comp_flag, actor_flag; simpl;
    try done; rewrite lookup_alter; (case_decide; [subst|done]);
    by destruct (actors w !! x).
Qed.

Lemma same_objects_SpawnGizmo ty w : same_objects w (SpawnGizmo ty w).2.
Proof.
  assert (actors w !! fresh (dom (actors w)) = None) as Hfresh
    by (apply not_elem_of_dom, is_fresh).
  repeat split; intros x; unfold GetOwner, GetRootComponent, comp_flag, actor_flag; simpl;
    try done; rewrite lookup_insert; (case_decide; [subst|done]); by rewrite Hfresh.
Qed.

(** ** What selection leaves alone *)

Lemma sel_frame_refl s : sel_frame s s.
Proof. repeat split; done. Qed.

Lemma sel_frame_trans s1 s2 s3 : sel_frame s1 s2 → sel_frame s2 s3 → sel_frame s1 s3.
Proof.
  unfold sel_frame. intros H1 H2. destruct_and!.
  repeat split; try congruence; eapply same_objects_trans; eauto; apply same_objects_refl.
Qed.

Lemma sel_frame_emit e s : sel_frame s (emit e s).
Proof. repeat split; done. Qed.

Lemma sel_frame_set_world w s : same_objects (world s) w → sel_frame s (set_world w s).
Proof. intros Hw. repeat split; try done; apply Hw. Qed.

Lemma sel_frame_set_Gizmo g s : sel_frame s (set_Gizmo g s).
Proof. repeat split; done. Qed.

Lemma sel_frame_set_SelectedComponents l s : sel_frame s (set_SelectedComponents l s).
Proof. repeat split; done. Qed.

Lemma GetUFocusable_frame s s' c : sel_frame s s' → GetUFocusable s' c = GetUFocusable s c.
Proof.
  intros (_ & _ & _ & Hcb & _ & _ & _ & _ & _ & _ & Ho & Hc & Ha & _).
  unfold GetUFocusable. destruct c as [k|]; [|done].
  rewrite Hcb, Hc, Ho. destruct (bComponentBased s); [done|].
  destruct (GetOwner (world s) k); [|done]. by rewrite Ha.
Qed.

Lemma DeselectEvents_frame s s' c : sel_frame s s' → DeselectEvents s' c = DeselectEvents s c.
Proof.
  intros Hf. unfold DeselectEvents. rewrite (GetUFocusable_frame s s' c Hf).
  by destruct Hf as (_ & _ & _ & -> & _).
Qed.

Lemma SelectEvents_frame s s' c : sel_frame s s' → SelectEvents s' c = SelectEvents s c.
Proof.
  intros Hf. unfold SelectEvents. rewrite (GetUFocusable_frame s s' c Hf).
  by destruct Hf as (_ & _ & _ & -> & _).
Qed.

(** The gizmo is placed without a word to anybody: the selection and the
    log stay as they are. *)
Lemma SetGizmo_spec s :
  sel_frame s (SetGizmo s) ∧
  SelectedComponents (SetGizmo s) = SelectedComponents s ∧ out (SetGizmo s) = out s.
Proof.
  unfold SetGizmo. case_bool_decide.
  - destruct (Gizmo s) as [g|]; [case_bool_decide|]; simpl.
    + split; [apply sel_frame_refl|done].
    + destruct (HasWorld (cfg s)); [|split; [apply sel_frame_set_world, same_objects_DestroyActor|done]].
      destruct (GetGizmoClass _ _) as [ty|];
        [|split; [apply sel_frame_set_world, same_objects_DestroyActor|done]].
      split; [|done]. simpl.
      eapply sel_frame_trans; [apply sel_frame_set_world, (same_objects_DestroyActor g)|].
      eapply sel_frame_trans; [|apply sel_frame_set_Gizmo].
      apply sel_frame_set_world, same_objects_SpawnGizmo.
    + destruct (HasWorld (cfg s)); [|split; [apply sel_frame_refl|done]].
      destruct (GetGizmoClass _ _) as [ty|]; [|split; [apply sel_frame_refl|done]].
      split; [|done]. simpl.
      eapply sel_frame_trans; [|apply sel_frame_set_Gizmo].
      apply sel_frame_set_world, same_objects_SpawnGizmo.
  - destruct (Gizmo s) as [g|]; [|split; [apply sel_frame_refl|done]].
    split; [|done].
    eapply sel_frame_trans; [|apply sel_frame_set_Gizmo].
    apply sel_frame_set_world, same_objects_DestroyActor.
Qed.

Lemma UpdateGizmoPlacement_spec s :
  sel_frame s (UpdateGizmoPlacement s) ∧
  SelectedComponents (UpdateGizmoPlacement s) = SelectedComponents s ∧
  out (UpdateGizmoPlacement s) = out s.
Proof.
  unfold UpdateGizmoPlacement. destruct (SetGizmo_spec s) as (Hf & Hs & Ho).
  destruct (Gizmo (SetGizmo s)) as [g|]; [|done].
  split; [|done]. eapply sel_frame_trans; [exact Hf|].
  apply sel_frame_set_world.
  eapply same_objects_trans; [|apply same_objects_alter_gizmo].
  case_match; [apply same_objects_alter_gizmo|apply same_objects_refl].
Qed.

(** ** The selection list *)

Lemma Find_Some l x i : Find l x = Some i → l !! i = Some x.
Proof.
  unfold Find. intros Hf. apply fmap_Some in Hf as ([j y] & Hf & ->).
  apply list_find_Some in Hf as (Hl & -> & _). done.
Qed.

Lemma Find_None l x : Find l x = None ↔ x ∉ l.
Proof.
  unfold Find. rewrite fmap_None, list_find_None, Forall_forall. split.
  - intros Hall Hin. by apply (Hall x).
  - intros Hnin y Hy ->. done.
Qed.

Lemma Find_is_Some l x : x ∈ l → is_Some (Find l x).
Proof.
  intros Hin. destruct (Find l x) eqn:Hf; [by eexists|]. by apply Find_None in Hf.
Qed.

Lemma DeselectComponentAtIndex_Internal_spec s i c :
  SelectedComponents s !! i = Some c →
  sel_frame s (DeselectComponentAtIndex_Internal i s) ∧
  SelectedComponents (DeselectComponentAtIndex_Internal i s) = delete i (SelectedComponents s) ∧
  out (DeselectComponentAtIndex_Internal i s) = out s ++ DeselectEvents s c.
Proof.
  intros Hi. unfold DeselectComponentAtIndex_Internal, Deselect, DeselectEvents. rewrite Hi.
  destruct (GetUFocusable s c) as [o|]; simpl.
  - split; [repeat split; done|]. split; [done|]. by rewrite <- app_assoc.
  - split; [repeat split; done|]. done.
Qed.

Lemma AddComponent_Internal_new s c :
  c ∉ SelectedComponents s →
  sel_frame s (AddComponent_Internal c s) ∧
  SelectedComponents (AddComponent_Internal c s) = SelectedComponents s ++ [c] ∧
  out (AddComponent_Internal c s) = out s ++ SelectEvents s c.
Proof.
  intros Hnin. apply Find_None in Hnin.
  unfold AddComponent_Internal, Select, SelectEvents. rewrite Hnin. simpl.
  rewrite last_snoc. simpl.
  change (GetUFocusable (set_SelectedComponents (SelectedComponents s ++ [c]) s) c)
    with (GetUFocusable s c).
  destruct (GetUFocusable s c) as [o|]; simpl.
  - split; [repeat split; done|]. split; [done|]. by rewrite <- app_assoc.
  - split; [repeat split; done|]. done.
Qed.

Lemma AddComponent_Internal_toggle s c i :
  Find (SelectedComponents s) c = Some i →
  bToggleSelectedInMultiSelection (cfg s) = true →
  sel_frame s (AddComponent_Internal c s) ∧
  SelectedComponents (AddComponent_Internal c s) = delete i (SelectedComponents s) ∧
  out (AddComponent_Internal c s) = out s ++ DeselectEvents s c.
Proof.
  intros Hf Ht. unfold AddComponent_Internal. rewrite Hf, Ht.
  by apply DeselectComponentAtIndex_Internal_spec, Find_Some.
Qed.

Lemma AddComponent_Internal_keep s c :
  c ∈ SelectedComponents s →
  bToggleSelectedInMultiSelection (cfg s) = false →
  AddComponent_Internal c s = s.
Proof.
  intros Hin Ht. unfold AddComponent_Internal.
  destruct (Find_is_Some _ _ Hin) as [i ->]. by rewrite Ht.
Qed.

Lemma DeselectComponent_Internal_present s c i :
  Find (SelectedComponents s) c = Some i →
  sel_frame s (DeselectComponent_Internal c s) ∧
  SelectedComponents (DeselectComponent_Internal c s) = delete i (SelectedComponents s) ∧
  out (DeselectComponent_Internal c s) = out s ++ DeselectEvents s c.
Proof.
  intros Hf. unfold DeselectComponent_Internal. rewrite Hf.
  by apply DeselectComponentAtIndex_Internal_spec, Find_Some.
Qed.

Lemma DeselectComponent_Internal_absent s c :
  c ∉ SelectedComponents s → DeselectComponent_Internal c s = s.
Proof. intros Hnin. apply Find_None in Hnin. unfold DeselectComponent_Internal. by rewrite Hnin. Qed.

Lemma DeselectAllEvents_frame s s' l :
  sel_frame s s' → DeselectAllEvents s' l = DeselectAllEvents s l.
Proof.
  intros Hf. unfold DeselectAllEvents. apply list_bind_ext; [|done].
  intros [k|]; [|done]. by apply DeselectEvents_frame.
Qed.

Lemma DeselectComponent_present s k i :
  Find (SelectedComponents s) (Some k) = Some i →
  sel_frame s (DeselectComponent (Some k) s) ∧
  SelectedComponents (DeselectComponent (Some k) s) = delete i (SelectedComponents s) ∧
  out (DeselectComponent (Some k) s) = out s ++ DeselectEvents s (Some k).
Proof.
  intros Hf. unfold DeselectComponent.
  destruct (DeselectComponent_Internal_present s _ _ Hf) as (Hfr & Hs & Ho).
  destruct (UpdateGizmoPlacement_spec (DeselectComponent_Internal (Some k) s)) as (Hfr' & Hs' & Ho').
  split; [by eapply sel_frame_trans|]. by rewrite Hs', Ho'.
Qed.

Lemma DeselectComponent_absent s c :
  c ∉ SelectedComponents s →
  sel_frame s (DeselectComponent c s) ∧
  SelectedComponents (DeselectComponent c s) = SelectedComponents s ∧
  out (DeselectComponent c s) = out s.
Proof.
  intros Hnin. unfold DeselectComponent. destruct c as [k|]; [|by split; [apply sel_frame_refl|]].
  rewrite DeselectComponent_Internal_absent by done. apply UpdateGizmoPlacement_spec.
Qed.

(** The loop of [DeselectAll] over a copy of the selection: every entry
    that is not null is found, removed and notified. *)
Lemma DeselectAll_loop todo : ∀ s extra,
  SelectedComponents s ≡ₚ todo ++ extra →
  sel_frame s (foldl (λ s i, DeselectComponent i s) s todo) ∧
  out (foldl (λ s i, DeselectComponent i s) s todo) = out s ++ DeselectAllEvents s todo.
Proof.
  induction todo as [|i todo IH]; intros s extra Hp; simpl.
  { split; [apply sel_frame_refl|]. by rewrite app_nil_r. }
  destruct i as [k|].
  - assert (Some k ∈ SelectedComponents s) as Hin by (rewrite Hp; simpl; left).
    destruct (Find_is_Some _ _ Hin) as [j Hj].
    destruct (DeselectComponent_present s k j Hj) as (Hfr & Hs & Ho).
    destruct (IH (DeselectComponent (Some k) s) extra) as (Hfr' & Ho').
    { rewrite Hs. apply (Permutation_cons_inv (a:=Some k)).
      rewrite <- delete_Permutation by (by apply Find_Some). done. }
    split; [by eapply sel_frame_trans|].
    rewrite Ho', Ho, <- app_assoc. f_equal. unfold DeselectAllEvents at 2. simpl.
    f_equal. apply (DeselectAllEvents_frame _ _ _ Hfr).
  - destruct (IH s (None :: extra)) as (Hfr' & Ho').
    { rewrite Hp. simpl. by rewrite Permutation_middle. }
    done.
Qed.

Lemma DestroyDeselected_loop l : ∀ s,
  sel_frame s (foldl DestroyDeselected s l) ∧
  SelectedComponents (foldl DestroyDeselected s l) = SelectedComponents s ∧
  out (foldl DestroyDeselected s l) = out s.
Proof.
  induction l as [|c l IH]; intros s; simpl; [by split; [apply sel_frame_refl|]|].
  destruct (IH (DestroyDeselected s c)) as (Hfr & -> & ->).
  assert (sel_frame s (DestroyDeselected s c) ∧
          SelectedComponents (DestroyDeselected s c) = SelectedComponents s ∧
          out (DestroyDeselected s c) = out s) as (Hfr' & Hs & Ho).
  { unfold DestroyDeselected. destruct c as [k|]; [|by split; [apply sel_frame_refl|]].
    destruct (negb _); [by split; [apply sel_frame_refl|]|].
    destruct (GetOwner (world s) k) as [a|]; [|by split; [apply sel_frame_refl|]].
    destruct (_ && _); (split; [|done]); apply sel_frame_set_world.
    - apply same_objects_DestroyComponent.
    - apply same_objects_DestroyActor. }
  split; [by eapply sel_frame_trans|done].
Qed.

(** [DeselectAll] empties the selection, whatever it held, returns what
    it held, and notifies every entry that is not null, in order. *)
Lemma DeselectAll_spec b s :
  (DeselectAll b s).1 = SelectedComponents s ∧
  sel_frame s (DeselectAll b s).2 ∧
  SelectedComponents (DeselectAll b s).2 = [] ∧
  out (DeselectAll b s).2 = out s ++ DeselectAllEvents s (SelectedComponents s).
Proof.
  unfold DeselectAll. simpl. split; [done|].
  destruct (DeselectAll_loop (SelectedComponents s) s []) as (Hfr & Ho);
    [by rewrite app_nil_r|].
  set (s1 := foldl _ s _) in *.
  destruct (UpdateGizmoPlacement_spec (set_SelectedComponents [] s1)) as (Hfr2 & Hs2 & Ho2).
  assert (sel_frame s (UpdateGizmoPlacement (set_SelectedComponents [] s1))) as Hfr3.
  { eapply sel_frame_trans; [exact Hfr|].
    eapply sel_frame_trans; [apply (sel_frame_set_SelectedComponents [])|exact Hfr2]. }
  destruct b.
  - destruct (DestroyDeselected_loop (SelectedComponents s)
                (UpdateGizmoPlacement (set_SelectedComponents [] s1))) as (Hfr4 & -> & ->).
    split; [by eapply sel_frame_trans|]. by rewrite Hs2, Ho2.
  - split; [done|]. by rewrite Hs2, Ho2.
Qed.

Lemma SelectComponent_append s k :
  ShouldSelect (cfg s) (GetOwner (world s) k) (Some k) = true →
  sel_frame s (SelectComponent (Some k) true s) ∧
  SelectedComponents (SelectComponent (Some k) true s)
    = SelectedComponents (AddComponent_Internal (Some k) s) ∧
  out (SelectComponent (Some k) true s) = out (AddComponent_Internal (Some k) s).
Proof.
  intros Hsel. unfold SelectComponent. rewrite Hsel.
  destruct (UpdateGizmoPlacement_spec (AddComponent_Internal (Some k) s)) as (Hfr & Hs & Ho).
  split; [|done]. eapply sel_frame_trans; [|exact Hfr].
  destruct (decide (Some k ∈ SelectedComponents s)) as [Hin|Hnin].
  - destruct (Find_is_Some _ _ Hin) as [i Hi].
    destruct (bToggleSelectedInMultiSelection (cfg s)) eqn:Ht.
    + by apply (AddComponent_Internal_toggle s (Some k) i).
    + rewrite AddComponent_Internal_keep by done. apply sel_frame_refl.
  - by apply AddComponent_Internal_new.
Qed.

Lemma SelectComponent_replace s k :
  ShouldSelect (cfg s) (GetOwner (world s) k) (Some k) = true →
  sel_frame s (SelectComponent (Some k) false s) ∧
  SelectedComponents (SelectComponent (Some k) false s) = [Some k] ∧
  out (SelectComponent (Some k) false s)
    = out s ++ DeselectAllEvents s (SelectedComponents s) ++ SelectEvents s (Some k).
Proof.
  intros Hsel. unfold SelectComponent. rewrite Hsel.
  destruct (DeselectAll_spec (DeselectAll_default (cfg s)) s) as (_ & Hfr & Hs & Ho).
  set (s1 := (DeselectAll (DeselectAll_default (cfg s)) s).2) in *.
  destruct (AddComponent_Internal_new s1 (Some k)) as (Hfr2 & Hs2 & Ho2).
  { rewrite Hs. apply not_elem_of_nil. }
  destruct (UpdateGizmoPlacement_spec (AddComponent_Internal (Some k) s1)) as (Hfr3 & Hs3 & Ho3).
  split; [eapply sel_frame_trans; [exact Hfr|by eapply sel_frame_trans]|].
  rewrite Hs3, Ho3, Hs2, Ho2, Hs, Ho, (SelectEvents_frame s s1) by done.
  by rewrite <- app_assoc.
Qed.

(** ** Every selection operation is a sequence of elementary changes *)

Lemma sel_steps_frame nn s s' : rtc (sel_step nn) s s' → sel_frame s s'.
Proof.
  induction 1 as [|s1 s2 s3 Hstep _ IH]; [apply sel_frame_refl|].
  eapply sel_frame_trans; [|exact IH]. by destruct Hstep.
Qed.

Lemma steps_UpdateGizmoPlacement nn s : rtc (sel_step nn) s (UpdateGizmoPlacement s).
Proof.
  destruct (UpdateGizmoPlacement_spec s) as (Hfr & Hs & Ho).
  by apply rtc_once, step_gizmo.
Qed.

Lemma steps_AddComponent_Internal nn s c :
  (nn = true → is_Some c) → rtc (sel_step nn) s (AddComponent_Internal c s).
Proof.
  intros Hc. destruct (decide (c ∈ SelectedComponents s)) as [Hin|Hnin].
  - destruct (Find_is_Some _ _ Hin) as [i Hi].
    destruct (bToggleSelectedInMultiSelection (cfg s)) eqn:Ht.
    + destruct (AddComponent_Internal_toggle s c i Hi Ht) as (Hfr & Hs & Ho).
      apply rtc_once, (step_del _ _ _ i c); auto using Find_Some.
    + by rewrite AddComponent_Internal_keep.
  - destruct (AddComponent_Internal_new s c Hnin) as (Hfr & Hs & Ho).
    by apply rtc_once, (step_add _ _ _ c).
Qed.

Lemma steps_DeselectComponent nn s c : rtc (sel_step nn) s (DeselectComponent c s).
Proof.
  destruct c as [k|]; [|done].
  destruct (decide (Some k ∈ SelectedComponents s)) as [Hin|Hnin].
  - destruct (Find_is_Some _ _ Hin) as [i Hi].
    destruct (DeselectComponent_present s k i Hi) as (Hfr & Hs & Ho).
    apply rtc_once, (step_del _ _ _ i (Some k)); auto using Find_Some.
  - destruct (DeselectComponent_absent s (Some k) Hnin) as (Hfr & Hs & Ho).
    by apply rtc_once, step_gizmo.
Qed.

Lemma steps_DeselectAll nn b s : rtc (sel_step nn) s (DeselectAll b s).2.
Proof.
  destruct (DeselectAll_spec b s) as (_ & Hfr & Hs & Ho). by apply rtc_once, step_clear.
Qed.

Lemma steps_clear_first nn (b : bool) s :
  rtc (sel_step nn) s (if b then s else (DeselectAll (DeselectAll_default (cfg s)) s).2).
Proof. destruct b; [done|apply steps_DeselectAll]. Qed.

Lemma steps_SelectComponent nn s c b : rtc (sel_step nn) s (SelectComponent c b s).
Proof.
  unfold SelectComponent. destruct c as [k|]; [|done].
  destruct (ShouldSelect _ _ _); [|done].
  etrans; [apply (steps_clear_first nn b)|].
  etrans; [apply steps_AddComponent_Internal; by eauto|].
  apply steps_UpdateGizmoPlacement.
Qed.

Lemma actor_rooted_frame s s' a :
  sel_frame s s' → actor_rooted (world s) a → actor_rooted (world s') a.
Proof.
  intros (_ & _ & _ & _ & _ & _ & _ & _ & _ & _ & _ & _ & _ & Hr).
  destruct a as [a|]; [|done]. simpl. by rewrite Hr.
Qed.

Lemma steps_SelectActor nn s a b :
  (nn = true → actor_rooted (world s) a) → rtc (sel_step nn) s (SelectActor a b s).
Proof.
  intros Hroot. unfold SelectActor. destruct a as [a|]; [|done].
  destruct (ShouldSelect _ _ _); [|done].
  pose proof (steps_clear_first nn b s) as Hclear.
  etrans; [exact Hclear|].
  etrans; [apply steps_AddComponent_Internal|apply steps_UpdateGizmoPlacement].
  intros Hnn. apply (actor_rooted_frame _ _ (Some a) (sel_steps_frame _ _ _ Hclear)). auto.
Qed.

Lemma steps_SelectMultipleComponents nn s cs b :
  rtc (sel_step nn) s (SelectMultipleComponents cs b s).
Proof.
  unfold SelectMultipleComponents.
  assert (∀ acc : bool * bool * State F,
            rtc (sel_step nn) acc.2 (foldl SelectMultipleComponents_step acc cs).2) as Hloop.
  { induction cs as [|c cs IH]; intros [[b1 b2] s1]; simpl; [done|].
    etrans; [|apply IH]. destruct c as [k|]; [|done].
    destruct (negb _); [done|]. simpl.
    etrans; [apply (steps_clear_first nn b1)|].
    apply steps_AddComponent_Internal. by eauto. }
  specialize (Hloop (b, false, s)). simpl in Hloop.
  destruct (foldl _ _ _) as [[b1 b2] s1]. simpl in Hloop.
  destruct b2; [|done]. etrans; [exact Hloop|apply steps_UpdateGizmoPlacement].
Qed.

Lemma steps_SelectMultipleActors nn s l b :
  (nn = true → Forall (actor_rooted (world s)) l) →
  rtc (sel_step nn) s (SelectMultipleActors l b s).
Proof.
  intros Hroot. unfold SelectMultipleActors.
  assert (∀ acc : bool * bool * State F,
            (nn = true → Forall (actor_rooted (world acc.2)) l) →
                 rtc (sel_step nn) acc.2 (foldl SelectMultipleActors_step acc l).2) as Hloop.
  { clear Hroot. induction l as [|a l IH]; intros [[b1 b2] s1] Hroot; simpl in *; [done|].
    assert (rtc (sel_step nn) s1 (SelectMultipleActors_step (b1, b2, s1) a).2) as Hstep.
    { simpl. destruct a as [a|]; [|done]. destruct (negb _); [done|]. simpl.
      pose proof (steps_clear_first nn b1 s1) as Hclear.
      etrans; [exact Hclear|]. apply steps_AddComponent_Internal. intros Hnn.
      apply (actor_rooted_frame _ _ (Some a) (sel_steps_frame _ _ _ Hclear)).
      specialize (Hroot Hnn). by apply Forall_cons in Hroot as [? _]. }
    etrans; [exact Hstep|]. apply IH. intros Hnn. specialize (Hroot Hnn).
    apply Forall_cons in Hroot as [_ Hroot].
    eapply Forall_impl; [exact Hroot|]. intros a'.
    apply actor_rooted_frame, (sel_steps_frame _ _ _ Hstep). }
  specialize (Hloop (b, false, s) Hroot). simpl in Hloop.
  destruct (foldl _ _ _) as [[b1 b2] s1]. simpl in Hloop.
  destruct b2; [|done]. etrans; [exact Hloop|apply steps_UpdateGizmoPlacement].
Qed.

Lemma steps_run_op nn s op :
  (nn = true → op_valid (world s) op) → rtc (sel_step nn) s (run_op s op).
Proof.
  intros Hv. destruct op as [c b|a b|cs b|l b|c|a|b]; simpl in *.
  - apply steps_SelectComponent.
  - by apply steps_SelectActor.
  - apply steps_SelectMultipleComponents.
  - by apply steps_SelectMultipleActors.
  - apply steps_DeselectComponent.
  - destruct a; [apply steps_DeselectComponent|done].
  - apply steps_DeselectAll.
Qed.

Lemma op_valid_frame s s' op :
  sel_frame s s' → op_valid (world s) op → op_valid (world s') op.
Proof.
  intros Hfr. destruct op; simpl; try done.
  - by apply actor_rooted_frame.
  - intros Hall. eapply Forall_impl; [exact Hall|]. intros a. by apply actor_rooted_frame.
Qed.

Lemma steps_run_ops nn ops : ∀ s,
  (nn = true → Forall (op_valid (world s)) ops) → rtc (sel_step nn) s (run_ops s ops).
Proof.
  induction ops as [|op ops IH]; intros s Hv; simpl; [done|].
  assert (rtc (sel_step nn) s (run_op s op)) as Hstep.
  { apply steps_run_op. intros Hnn. specialize (Hv Hnn). by apply Forall_cons in Hv as [? _]. }
  etrans; [exact Hstep|]. apply IH. intros Hnn. specialize (Hv Hnn).
  apply Forall_cons in Hv as [_ Hv]. eapply Forall_impl; [exact Hv|].
  intros op'. apply op_valid_frame, (sel_steps_frame _ _ _ Hstep).
Qed.

(** ** What the elementary changes preserve *)

Lemma sel_step_NoDup nn s s' :
  sel_step nn s s' → NoDup (SelectedComponents s) → NoDup (SelectedComponents s').
Proof.
  intros [c Hnin _ _ -> _|i c Hi _ -> _|_ -> _|_ -> _] Hnd; try done.
  - apply NoDup_app. split; [done|]. split; [|apply NoDup_singleton].
    intros x Hx ->%list_elem_of_singleton. done.
  - eapply sublist_NoDup; [done|apply sublist_delete].
  - apply NoDup_nil_2.
Qed.

Lemma added_app (l1 l2 : list (Event F)) : added (l1 ++ l2) = added l1 + added l2.
Proof. unfold added. by rewrite filter_app, length_app. Qed.

Lemma removed_app (l1 l2 : list (Event F)) : removed (l1 ++ l2) = removed l1 + removed l2.
Proof. unfold removed. by rewrite filter_app, length_app. Qed.

Lemma count_SelectEvents s c : added (SelectEvents s c) = 1 ∧ removed (SelectEvents s c) = 0.
Proof. unfold SelectEvents. by destruct (GetUFocusable s c). Qed.

Lemma count_DeselectEvents s c :
  added (DeselectEvents s c) = 0 ∧ removed (DeselectEvents s c) = 1.
Proof. unfold DeselectEvents. by destruct (GetUFocusable s c). Qed.

Lemma count_DeselectAllEvents s l :
  Forall is_Some l →
  added (DeselectAllEvents s l) = 0 ∧ removed (DeselectAllEvents s l) = length l.
Proof.
  induction 1 as [|c l [k ->] _ [IHa IHr]]; [done|].
  unfold DeselectAllEvents in *. rewrite bind_cons, added_app, removed_app, IHa, IHr.
  destruct (count_DeselectEvents s (Some k)) as [-> ->]. done.
Qed.

Lemma sel_step_balance s s' :
  sel_step true s s' →
  Forall is_Some (SelectedComponents s) →
  length (SelectedComponents s) + removed (out s) = added (out s) →
  Forall is_Some (SelectedComponents s') ∧
  length (SelectedComponents s') + removed (out s') = added (out s').
Proof.
  intros [c _ Hc _ -> ->|i c Hi _ -> ->|_ -> ->|_ -> ->] Hsome Hbal; try done.
  - split; [apply Forall_app; split; [done|]; apply Forall_singleton; auto|].
    rewrite length_app, added_app, removed_app.
    destruct (count_SelectEvents s c) as [-> ->]. simpl. lia.
  - split; [by apply Forall_delete|].
    pose proof (lookup_lt_Some _ _ _ Hi) as Hlt.
    rewrite length_delete by eauto. rewrite added_app, removed_app.
    destruct (count_DeselectEvents s c) as [-> ->]. lia.
  - split; [done|]. rewrite added_app, removed_app.
    destruct (count_DeselectAllEvents s _ Hsome) as [-> ->]. simpl. lia.
Qed.

(** ** The network delta is written by the flush alone *)

Lemma SetDomain_accumulators d s :
  AccumulatedDeltaTransform (SetDomain d s) = AccumulatedDeltaTransform s ∧
  NetworkDeltaTransform (SetDomain d s) = NetworkDeltaTransform s ∧
  CurrentDomain (SetDomain d s) = d.
Proof. unfold SetDomain. simpl. by destruct (Gizmo s). Qed.

Lemma call_server_cases r impl s :
  (HasAuthority s = true ∧ call_server r impl s = impl s) ∨
  (HasAuthority s = false ∧ call_server r impl s = emit (SendToServer r) s).
Proof. unfold call_server. destruct (HasAuthority s); auto. Qed.

Lemma ServerClearDomain_network s :
  NetworkDeltaTransform (ServerClearDomain s) = NetworkDeltaTransform s.
Proof.
  unfold ServerClearDomain.
  destruct (call_server_cases ReqClearDomain ServerClearDomain_Implementation s)
    as [[_ ->]|[_ ->]]; [|done].
  unfold ServerClearDomain_Implementation, MulticastClearDomain, call_multicast,
    MulticastClearDomain_Implementation, ClearDomain.
  destruct (SetDomain_accumulators TD_None
    (set_AccumulatedDeltaTransform
       (ResetDeltaTransform (AccumulatedDeltaTransform
          (if HasAuthority s then emit (SendToAll BcastClearDomain) s else s)))
       (if HasAuthority s then emit (SendToAll BcastClearDomain) s else s))) as (_ & -> & _).
  by destruct (HasAuthority s).
Qed.


Lemma sel_frame_network s s' :
  sel_frame s s' → NetworkDeltaTransform s' = NetworkDeltaTransform s.
Proof. by intros (_ & _ & _ & _ & _ & _ & ? & _). Qed.

Lemma run_op_network s op :
  NetworkDeltaTransform (run_op s op) = NetworkDeltaTransform s.
Proof. by apply sel_frame_network, (sel_steps_frame false), steps_run_op. Qed.

Lemma SelectMultipleComponents_frame cs b s : sel_frame s (SelectMultipleComponents cs b s).
Proof. apply (sel_steps_frame false), steps_SelectMultipleComponents. Qed.

Lemma SetDomain_network d s : NetworkDeltaTransform (SetDomain d s) = NetworkDeltaTransform s.
Proof. by destruct (SetDomain_accumulators d s) as (_ & ? & _). Qed.

Lemma ClearDomain_network s : NetworkDeltaTransform (ClearDomain s) = NetworkDeltaTransform s.
Proof. unfold ClearDomain. by rewrite SetDomain_network. Qed.

Lemma DeselectAll_network b s :
  NetworkDeltaTransform (DeselectAll b s).2 = NetworkDeltaTransform s.
Proof. by destruct (DeselectAll_spec b s) as (_ & ?%sel_frame_network & _). Qed.

Lemma call_server_network r impl s :
  (∀ s, NetworkDeltaTransform (impl s) = NetworkDeltaTransform s) →
  NetworkDeltaTransform (call_server r impl s) = NetworkDeltaTransform s.
Proof. intros Himpl. unfold call_server. destruct (HasAuthority s); [apply Himpl|done]. Qed.

Lemma call_multicast_network m impl s :
  (∀ s, NetworkDeltaTransform (impl s) = NetworkDeltaTransform s) →
  NetworkDeltaTransform (call_multicast m impl s) = NetworkDeltaTransform s.
Proof.
  intros Himpl. unfold call_multicast. rewrite Himpl. by destruct (HasAuthority s).
Qed.

(** The handler of a selection broadcast: the selection is rebuilt from
    the references received, the flag is the comparison of the two
    counts, and the timer is started when the flag is set. *)
Lemma MulticastSetSelectedComponents_Implementation_spec cs s :
  let s2 := SelectMultipleComponents cs true (DeselectAll (DeselectAll_default (cfg s)) s).2 in
  let s' := MulticastSetSelectedComponents_Implementation cs s in
  sel_frame s s2 ∧
  cfg s' = cfg s ∧
  NetworkDeltaTransform s' = NetworkDeltaTransform s ∧
  SelectedComponents s' = SelectedComponents s2 ∧
  out s' = out s2 ∧
  bResyncSelection s' = negb (bool_decide (length cs = length (SelectedComponents s'))) ∧
  ResyncSelectionTimerHandle s'
    = ResyncSelectionTimerHandle s || (bResyncSelection s' && HasWorld (cfg s)) ∧
  UnreplicatedComponentClones s' = UnreplicatedComponentClones s ∧
  CheckUnrepTimerHandle s' = CheckUnrepTimerHandle s.
Proof.
  intros s2 s'.
  assert (sel_frame s s2) as Hfr.
  { eapply sel_frame_trans; [|apply SelectMultipleComponents_frame].
    by destruct (DeselectAll_spec (DeselectAll_default (cfg s)) s) as (_ & ? & _). }
  split; [done|].
  destruct Hfr as (Hcfg & _ & _ & _ & _ & _ & Hnet & Hunrep & Hcheck & Htimer & _).
  subst s'. unfold MulticastSetSelectedComponents_Implementation. fold s2.
  simpl. rewrite Hcfg.
  destruct (negb (bool_decide (length cs = length (SelectedComponents s2)))) eqn:Hflag;
    simpl; [|by rewrite Htimer, Hflag, orb_false_r].
  destruct (HasWorld (cfg s)); simpl; [|by rewrite Htimer, Hflag, orb_false_r].
  rewrite Htimer. destruct (ResyncSelectionTimerHandle s); simpl; by rewrite ?Htimer, Hflag.
Qed.

(** [ApplyDeltaTransform] moves the selected components that are movable
    and leaves the component as it is, but for the log: it writes no field
    of the component, it makes a component movable that was so already or
    is forced to be, and it sends nothing.  It stops on the null pointer
    exactly when there is no gizmo and some selected component is to be
    moved. *)
Lemma SetTransform_spec (x : Ptr) D s :
  sel_frame s (SetTransform x D s) ∧
  world (SetTransform x D s) = world s ∧
  SelectedComponents (SetTransform x D s) = SelectedComponents s ∧
  Gizmo (SetTransform x D s) = Gizmo s ∧
  filter (λ e, is_message e = true) (out (SetTransform x D s))
    = filter (λ e, is_message e = true) (out s).
Proof.
  unfold SetTransform. destruct x as [k|]; [|by split; [apply sel_frame_refl|]].
  destruct (GetUFocusable s (Some k)) as [o|]; simpl.
  - destruct (bTransformUFocusableObjects (cfg s)); simpl;
      (split; [repeat split|]); rewrite ?filter_app, ?app_nil_r; done.
  - split; [repeat split|]. by rewrite filter_app, app_nil_r.
Qed.

Lemma same_objects_SetMobility (k : nat) w : same_objects w (SetMobility k w).
Proof.
  unfold same_objects, SetMobility, GetOwner, comp_flag, GetRootComponent. simpl.
  split_and!; try done; intros k'; destruct (decide (k' = k)) as [->|];
    rewrite ?lookup_alter_eq, ?lookup_alter_ne by done; try done;
    by destruct (comps w !! k).
Qed.

Lemma some_or_none (f : nat → bool) l :
  (∃ k, Some k ∈ l ∧ f k = true) ∨ (∀ k, Some k ∈ l → f k = false).
Proof.
  induction l as [|x l [(k & Hk & Hf)|IH]].
  - right. by intros k ?%elem_of_nil.
  - left. exists k. split; [by right|done].
  - destruct x as [k|].
    + destruct (f k) eqn:Hf; [left; exists k; split; [left|done]|].
      right. intros k' [[= ->]|Hk']%elem_of_cons; auto.
    + right. intros k' [?|Hk']%elem_of_cons; [done|auto].
Qed.

Lemma ApplyDeltaTransform_loop D l : ∀ s,
  (∀ k, Some k ∈ l → is_Some (Gizmo s) ∨
                     bForceMobility (cfg s) || comp_flag c_movable (world s) k = false) →
  ∃ s', foldl (ApplyDeltaTransform_step D) (Done s) l = Done s' ∧
        sel_frame s s' ∧ SelectedComponents s' = SelectedComponents s ∧
        Gizmo s' = Gizmo s ∧
        (Gizmo s = None → world s' = world s) ∧
        filter (λ e, is_message e = true) (out s')
          = filter (λ e, is_message e = true) (out s).
Proof.
  induction l as [|x l IH]; intros s Hok; simpl.
  { exists s. split_and!; try done; apply sel_frame_refl. }
  destruct x as [k|]; [|by apply IH; intros k Hk; apply Hok; right].
  destruct (bForceMobility (cfg s) || comp_flag c_movable (world s) k) eqn:Hm.
  - destruct (Hok k ltac:(by left)) as [[g Hg]|Hf]; [|congruence].
    rewrite Hg. set (s1 := set_world (SetMobility k (world s)) s).
    destruct (SetTransform_spec (Some k) D s1) as (Hfr & Hw & Hsel & Hgz & Hmsg).
    destruct (IH (SetTransform (Some k) D s1)) as (s' & -> & Hfr' & Hsel' & Hgz' & _ & Hmsg').
    { intros k' Hk'. left. rewrite Hgz. by exists g. }
    exists s'. split_and!; try done.
    + eapply sel_frame_trans; [|exact Hfr'].
      eapply sel_frame_trans; [|exact Hfr].
      apply sel_frame_set_world, same_objects_SetMobility.
    + by rewrite Hsel', Hsel.
    + by rewrite Hgz', Hgz.
    + by rewrite Hmsg', Hmsg.
  - destruct (IH (emit (LogWarning (TransformWillNotAffectComponent k)) s))
      as (s' & -> & Hfr' & Hsel' & Hgz' & Hw' & Hmsg').
    { intros k' Hk'. apply Hok. by right. }
    exists s'. split_and!; try done.
    rewrite Hmsg'. simpl. by rewrite filter_app, app_nil_r.
Qed.

Lemma ApplyDeltaTransform_crash D l : ∀ s,
  Gizmo s = None →
  (∃ k, Some k ∈ l ∧ bForceMobility (cfg s) || comp_flag c_movable (world s) k = true) →
  foldl (ApplyDeltaTransform_step D) (Done s) l = NullDereference.
Proof.
  assert (∀ l', foldl (ApplyDeltaTransform_step D) NullDereference l' = NullDereference)
    as Hstuck by (by induction l').
  induction l as [|x l IH]; intros s Hg (k & Hk & Hm).
  { by apply elem_of_nil in Hk. }
  simpl. destruct x as [k'|].
  - destruct (bForceMobility (cfg s) || comp_flag c_movable (world s) k') eqn:Hc.
    + by rewrite Hg, Hstuck.
    + apply IH; [done|]. exists k. split; [|done].
      apply elem_of_cons in Hk as [[= ->]|Hk]; [congruence|done].
  - apply IH; [done|]. exists k. split; [|done].
    by apply elem_of_cons in Hk as [?|Hk].
Qed.

Lemma ApplyDeltaTransform_spec D s :
  let moved := ∃ k, Some k ∈ SelectedComponents s ∧
                    bForceMobility (cfg s) || comp_flag c_movable (world s) k = true in
  (ApplyDeltaTransform D s = NullDereference ↔ Gizmo s = None ∧ moved) ∧
  (ApplyDeltaTransform D s ≠ NullDereference →
   ∃ s', ApplyDeltaTransform D s = Done s' ∧
         sel_frame s s' ∧ SelectedComponents s' = SelectedComponents s ∧
         Gizmo s' = Gizmo s ∧
         filter (λ e, is_message e = true) (out s')
           = filter (λ e, is_message e = true) (out s)).
Proof.
  intros moved.
  assert (Gizmo s = None ∧ moved ∨
          ∃ s', ApplyDeltaTransform D s = Done s' ∧
                sel_frame s s' ∧ SelectedComponents s' = SelectedComponents s ∧
                Gizmo s' = Gizmo s ∧
                filter (λ e, is_message e = true) (out s')
                  = filter (λ e, is_message e = true) (out s)) as [Hc|(s' & Hs' & Hrest)].
  { destruct (Gizmo s) as [g|] eqn:Hg.
    - right. destruct (ApplyDeltaTransform_loop D (SelectedComponents s) s)
        as (s' & ? & ? & ? & ? & _ & ?); [|exists s'; by rewrite <- Hg].
      intros k _. left. rewrite Hg. by exists g.
    - destruct (some_or_none
        (λ k, bForceMobility (cfg s) || comp_flag c_movable (world s) k)
        (SelectedComponents s)) as [Hm|Hn]; [by left|right].
      destruct (ApplyDeltaTransform_loop D (SelectedComponents s) s)
        as (s' & ? & ? & ? & ? & _ & ?); [|exists s'; by rewrite <- Hg].
      intros k Hk. right. by apply Hn. }
  - pose proof (ApplyDeltaTransform_crash D (SelectedComponents s) s (proj1 Hc) (proj2 Hc))
      as Hcrash. split; [done|]. intros Hne. by destruct Hne.
  - split; [|by intros _; exists s'].
    rewrite Hs'. split; [done|]. intros [Hg Hm].
    pose proof (ApplyDeltaTransform_crash D (SelectedComponents s) s Hg Hm) as Hcrash.
    unfold ApplyDeltaTransform in Hs'. congruence.
Qed.

Lemma ApplyDeltaTransform_Done D s s' :
  ApplyDeltaTransform D s = Done s' →
  sel_frame s s' ∧ SelectedComponents s' = SelectedComponents s ∧ Gizmo s' = Gizmo s ∧
  filter (λ e, is_message e = true) (out s') = filter (λ e, is_message e = true) (out s).
Proof.
  intros Hd. destruct (ApplyDeltaTransform_spec D s) as [_ Hok].
  destruct Hok as (s1 & Hs1 & ?); [by rewrite Hd|].
  rewrite Hs1 in Hd. by injection Hd as <-.
Qed.

Lemma MulticastApplyTransform_Implementation_Done D s s' :
  MulticastApplyTransform_Implementation D s = Done s' →
  sel_frame s s' ∧ SelectedComponents s' = SelectedComponents s ∧ Gizmo s' = Gizmo s ∧
  filter (λ e, is_message e = true) (out s') = filter (λ e, is_message e = true) (out s).
Proof.
  unfold MulticastApplyTransform_Implementation. destruct (_ && _).
  - apply ApplyDeltaTransform_Done.
  - intros [= <-]. split; [apply sel_frame_refl|done].
Qed.

Lemma multicast_handler_network m s s' :
  multicast_handler m s = Done s' → NetworkDeltaTransform s' = NetworkDeltaTransform s.
Proof.
  destruct m as [|t|b|d|cs]; simpl; try (intros [= <-]).
  - apply ClearDomain_network.
  - by intros (?%sel_frame_network & _)%MulticastApplyTransform_Implementation_Done.
  - apply DeselectAll_network.
  - apply SetDomain_network.
  - by destruct (MulticastSetSelectedComponents_Implementation_spec cs s) as (_ & _ & ? & _).
Qed.

Lemma MulticastSetSelectedComponents_network cs s :
  NetworkDeltaTransform (MulticastSetSelectedComponents cs s) = NetworkDeltaTransform s.
Proof.
  apply call_multicast_network. intros s1.
  by apply (multicast_handler_network (BcastSetSelectedComponents cs)).
Qed.

Lemma MulticastSetDomain_network d s :
  NetworkDeltaTransform (MulticastSetDomain d s) = NetworkDeltaTransform s.
Proof. apply call_multicast_network, SetDomain_network. Qed.

Lemma ServerDeselectAll_network b s :
  NetworkDeltaTransform (ServerDeselectAll b s) = NetworkDeltaTransform s.
Proof.
  apply call_server_network. intros s1. apply call_multicast_network. intros s2.
  apply DeselectAll_network.
Qed.

Lemma HandleTracedObjects_network hits b s :
  NetworkDeltaTransform (HandleTracedObjects hits b s).2 = NetworkDeltaTransform s.
Proof.
  assert (∀ g hits s, NetworkDeltaTransform (HandleTracedObjects_gizmo g hits s).2
                      = NetworkDeltaTransform s) as Hgizmo.
  { clear. intros g hits. induction hits as [|h hits IH]; intros s; simpl; [done|].
    case_bool_decide; [|apply IH]. destruct (hit_component h); [|apply IH].
    case_bool_decide; [by rewrite IH, SetDomain_network|simpl; apply SetDomain_network]. }
  assert (∀ hits s, NetworkDeltaTransform (HandleTracedObjects_select hits b s).2
                    = NetworkDeltaTransform s) as Hselect.
  { clear. intros hits. induction hits as [|h hits IH]; intros s; simpl; [done|].
    destruct (IsGizmo _ _); [apply IH|]. destruct (bComponentBased s); simpl.
    - apply (run_op_network s (OpSelectComponent _ _)).
    - apply (run_op_network s (OpSelectActor _ _)). }
  unfold HandleTracedObjects.
  destruct (Gizmo (ClearDomain s)) as [g|].
  - specialize (Hgizmo g hits (ClearDomain s)).
    destruct (HandleTracedObjects_gizmo _ _ _) as [[] s2]; simpl in *.
    + by rewrite Hgizmo, ClearDomain_network.
    + by rewrite Hselect, Hgizmo, ClearDomain_network.
  - by rewrite Hselect, ClearDomain_network.
Qed.

Lemma TraceBy_network q st en ig b s :
  NetworkDeltaTransform (TraceBy q st en ig b s).2 = NetworkDeltaTransform s.
Proof.
  unfold TraceBy. destruct (HasWorld (cfg s)); [|done].
  destruct (LineTraceMulti _ _ _ _ _) as [[] hits]; [|done].
  unfold FilterHits. destruct (bIgnoreNonReplicatedObjects (cfg s));
    by rewrite HandleTracedObjects_network.
Qed.

Lemma after_miss_network (b1 b2 : bool) s :
  NetworkDeltaTransform (if negb b1 && negb b2 then ServerDeselectAll false s else s)
  = NetworkDeltaTransform s.
Proof. destruct (_ && _); [apply ServerDeselectAll_network|done]. Qed.

Lemma try_call_server_cases r impl s :
  (HasAuthority s = true ∧ try_call_server r impl s = impl s) ∨
  (HasAuthority s = false ∧ try_call_server r impl s = Done (emit (SendToServer r) s)).
Proof. unfold try_call_server. destruct (HasAuthority s); auto. Qed.

Lemma try_call_server_network r impl s s' :
  (∀ s s', impl s = Done s' → NetworkDeltaTransform s' = NetworkDeltaTransform s) →
  try_call_server r impl s = Done s' → NetworkDeltaTransform s' = NetworkDeltaTransform s.
Proof.
  intros Himpl. unfold try_call_server.
  destruct (HasAuthority s); [apply Himpl|by intros [= <-]].
Qed.

(** The handler of a trace request stops on the null pointer exactly
    when the owner is not a player controller. *)
Lemma ServerTraceBy_Implementation_cases q st en b s :
  if OwnerIsPlayerController (cfg s) then
    ∃ ig, GetIgnoredActorsForServerTrace s = Done ig ∧
      ServerTraceBy_Implementation q st en b s
      = Done (let r := TraceBy q st en ig b s in
              let s2 := if negb r.1 && negb b then (DeselectAll false r.2).2 else r.2 in
              let s3 := MulticastSetDomain (CurrentDomain s2) s2 in
              MulticastSetSelectedComponents (SelectedComponents s3) s3)
  else ServerTraceBy_Implementation q st en b s = NullDereference.
Proof.
  unfold ServerTraceBy_Implementation, GetIgnoredActorsForServerTrace.
  destruct (OwnerIsPlayerController (cfg s)); [|done].
  eexists. split; [done|]. by destruct (TraceBy _ _ _ _ _ _).
Qed.

Lemma ServerTraceBy_Implementation_network q st en b s s' :
  ServerTraceBy_Implementation q st en b s = Done s' →
  NetworkDeltaTransform s' = NetworkDeltaTransform s.
Proof.
  pose proof (ServerTraceBy_Implementation_cases q st en b s) as Hc.
  destruct (OwnerIsPlayerController (cfg s)); [|by rewrite Hc].
  destruct Hc as (ig & _ & ->). intros [= <-]. cbv zeta.
  rewrite MulticastSetSelectedComponents_network, MulticastSetDomain_network.
  pose proof (TraceBy_network q st en ig b s) as Ht.
  pose proof (DeselectAll_network false (TraceBy q st en ig b s).2) as Hd.
  destruct (negb (TraceBy q st en ig b s).1 && negb b); [exact (eq_trans Hd Ht)|exact Ht].
Qed.

Lemma ReplicateServerTraceResults_network ok b s :
  NetworkDeltaTransform (ReplicateServerTraceResults ok b s) = NetworkDeltaTransform s.
Proof.
  unfold ReplicateServerTraceResults. destruct (negb (HasAuthority s)); [|done].
  rewrite MulticastSetSelectedComponents_network, MulticastSetDomain_network.
  destruct (_ && _); [by rewrite DeselectAll_network|done].
Qed.

Lemma ServerTraceBy_network q st en b s s' :
  ServerTraceBy q st en b s = Done s' → NetworkDeltaTransform s' = NetworkDeltaTransform s.
Proof. apply try_call_server_network. intros ??. apply ServerTraceBy_Implementation_network. Qed.

Lemma ServerSetDomain_network d s :
  NetworkDeltaTransform (ServerSetDomain d s) = NetworkDeltaTransform s.
Proof. apply call_server_network. intros. apply MulticastSetDomain_network. Qed.

Lemma ReplicatedMouseTraceBy_network q d b s s' :
  ReplicatedMouseTraceBy q d b s = Done s' →
  NetworkDeltaTransform s' = NetworkDeltaTransform s.
Proof.
  unfold ReplicatedMouseTraceBy.
  destruct (GetMouseStartEndPoints d s) as [[st en]|]; [|by intros [= <-]].
  pose proof (TraceBy_network q st en [] b s) as Ht.
  destruct (TraceBy _ _ _ _ _ _) as [ok s1]. simpl in Ht.
  case_bool_decide; [intros [= <-]; by rewrite ReplicateServerTraceResults_network|].
  case_bool_decide.
  - intros ->%ServerTraceBy_network. by rewrite after_miss_network.
  - intros [= <-]. by rewrite ServerSetDomain_network, after_miss_network.
Qed.

Lemma ReplicatedMouseTraceByObjectTypes_network d ch b s s' :
  ReplicatedMouseTraceByObjectTypes d ch b s = Done s' →
  NetworkDeltaTransform s' = NetworkDeltaTransform s.
Proof.
  unfold ReplicatedMouseTraceByObjectTypes.
  destruct (GetMouseStartEndPoints d s) as [[st en]|]; [|by intros [= <-]].
  pose proof (TraceBy_network (ByObjectType ch) st en [] b s) as Ht.
  unfold TraceByObjectTypes.
  destruct (TraceBy _ _ _ _ _ _) as [ok s1]. simpl in Ht.
  case_bool_decide; [intros [= <-]; by rewrite ReplicateServerTraceResults_network|].
  destruct (_ && _); [intros [= <-]; by rewrite ServerDeselectAll_network|].
  case_bool_decide.
  - by intros ->%ServerTraceBy_network.
  - intros [= <-]. by rewrite ServerSetDomain_network.
Qed.

Lemma CloneFromList_network l s r s' :
  CloneFromList l s = Done (r, s') → NetworkDeltaTransform s' = NetworkDeltaTransform s.
Proof.
  unfold CloneFromList, CloneComponents, CloneActors. intros Hc.
  destruct (bComponentBased s).
  - destruct (HasWorld (cfg s)).
    + destruct (CloneComponents_world _ _) as [[cl w]| |]; try done.
      injection Hc as <- <-. simpl. by repeat case_match.
    + injection Hc as <- <-. by repeat case_match.
  - destruct (HasWorld (cfg s)).
    + destruct (foldl _ _ _) as [[pr w] cl]. injection Hc as <- <-. simpl. by repeat case_match.
    + injection Hc as <- <-. by repeat case_match.
Qed.

Lemma ServerCloneSelected_network b1 b2 s s' :
  ServerCloneSelected_Implementation b1 b2 s = Done s' →
  NetworkDeltaTransform s' = NetworkDeltaTransform s.
Proof.
  unfold ServerCloneSelected_Implementation. destruct (bComponentBased s).
  { by intros [= <-]. }
  destruct (CloneFromList _ _) as [[cl s1]| |] eqn:Hc; try done.
  apply CloneFromList_network in Hc. destruct b1; [|by intros [= <-]].
  intros [= <-]. rewrite <- Hc.
  pose proof (sel_frame_network _ _ (SelectMultipleComponents_frame cl b2 s1)) as Hs.
  by repeat case_match.
Qed.

Lemma server_handler_network r s s' :
  server_handler r s = Done s' → NetworkDeltaTransform s' = NetworkDeltaTransform s.
Proof.
  destruct r as [q st en b| |t|b|d| |b1 b2]; simpl.
  1: apply ServerTraceBy_Implementation_network.
  2: { unfold ServerApplyTransform_Implementation, MulticastApplyTransform,
         try_call_multicast.
       intros (->%sel_frame_network & _)%MulticastApplyTransform_Implementation_Done.
       by destruct (HasAuthority s). }
  5: apply ServerCloneSelected_network.
  all: intros [= <-].
  - apply call_multicast_network, ClearDomain_network.
  - apply call_multicast_network. intros s1. apply DeselectAll_network.
  - apply MulticastSetDomain_network.
  - apply MulticastSetSelectedComponents_network.
Qed.

Lemma timers_network t s :
  NetworkDeltaTransform (ResyncSelection_timer s) = NetworkDeltaTransform s ∧
  NetworkDeltaTransform (CheckUnreplicatedActors_timer t s) = NetworkDeltaTransform s.
Proof.
  split.
  - unfold ResyncSelection_timer, ResyncSelection.
    destruct (ResyncSelectionTimerHandle s); [|done]. destruct (bResyncSelection s); [|done].
    unfold ServerSyncSelectedComponents. rewrite call_server_network; [done|].
    intros s1. apply MulticastSetSelectedComponents_network.
  - unfold CheckUnreplicatedActors_timer, CheckUnreplicatedActors.
    destruct (CheckUnrepTimerHandle s); [|done]. case_bool_decide; [|done].
    by rewrite MulticastSetSelectedComponents_network.
Qed.

Lemma SetTransformationType_accumulated_aux s k :
  NetworkDeltaTransform (SetTransformationType k s) = NetworkDeltaTransform s.
Proof.
  unfold SetTransformationType. case_bool_decide; [done|].
  match goal with |- context [UpdateGizmoPlacement ?x] =>
    destruct (UpdateGizmoPlacement_spec x) as (->%sel_frame_network & _) end.
  simpl. by case_bool_decide.
Qed.

Lemma MouseTraceBy_network d (ch pn : nat) chs ig b s :
  NetworkDeltaTransform (MouseTraceByObjectTypes d chs ig b s).2 = NetworkDeltaTransform s ∧
  NetworkDeltaTransform (MouseTraceByChannel d ch ig b s).2 = NetworkDeltaTransform s ∧
  NetworkDeltaTransform (MouseTraceByProfile d pn ig b s).2 = NetworkDeltaTransform s.
Proof.
  unfold MouseTraceByObjectTypes, MouseTraceByChannel, MouseTraceByProfile,
    TraceByObjectTypes, TraceByChannel, TraceByProfile.
  destruct (GetMouseStartEndPoints d s) as [[st en]|]; [|done].
  pose proof (TraceBy_network (ByObjectType chs) st en ig b s) as H1.
  pose proof (TraceBy_network (ByChannel ch) st en ig b s) as H2.
  pose proof (TraceBy_network (ByProfile pn) st en ig b s) as H3.
  destruct (TraceBy (ByObjectType chs) _ _ _ _ _) as [ok1 s1].
  destruct (TraceBy (ByChannel ch) _ _ _ _ _) as [ok2 s2].
  destruct (TraceBy (ByProfile pn) _ _ _ _ _) as [ok3 s3].
  simpl in *. by rewrite !after_miss_network.
Qed.

(** Every operation but the flush leaves the network delta as it is. *)
Lemma run_operation_network s o s' :
  o ≠ OpReplicateFinishTransform → run_operation s o = Done s' →
  NetworkDeltaTransform s' = NetworkDeltaTransform s.
Proof.
  intros Hne. destruct o as [op|k|d| |d chs ig b|d ch ig b|d pn ig b|d chs b|d ch b|d pn b|
                             |r|m| |t|]; simpl; try done.
  8: apply ReplicatedMouseTraceByObjectTypes_network.
  8, 9: apply ReplicatedMouseTraceBy_network.
  9: apply server_handler_network.
  9: apply multicast_handler_network.
  all: try (intros [= <-]).
  - apply run_op_network.
  - pose proof (SetTransformationType_accumulated_aux s k) as H. exact H.
  - apply SetDomain_network.
  - apply ClearDomain_network.
  - by destruct (MouseTraceBy_network d 0 0 chs ig b s) as (? & _ & _).
  - by destruct (MouseTraceBy_network d ch 0 [] ig b s) as (_ & ? & _).
  - by destruct (MouseTraceBy_network d 0 pn [] ig b s) as (_ & _ & ?).
  - destruct (CloneFromList _ _) as [[cl s1]| |] eqn:Hc; try done.
    intros [= <-]. by apply CloneFromList_network in Hc.
  - apply (timers_network fzero).
  - apply timers_network.
Qed.

(** ** The resync poll of a proxy *)

Lemma ResyncSelection_timer_spec s :
  OwnerRole (cfg s) ≠ ROLE_Authority →
  cfg (ResyncSelection_timer s) = cfg s ∧
  SelectedComponents (ResyncSelection_timer s) = SelectedComponents s ∧
  bResyncSelection (ResyncSelection_timer s) = bResyncSelection s ∧
  ResyncSelectionTimerHandle (ResyncSelection_timer s)
    = ResyncSelectionTimerHandle s && bResyncSelection s ∧
  out (ResyncSelection_timer s)
    = out s ++
      (if ResyncSelectionTimerHandle s then
         if bResyncSelection s
         then [LogWarning ResyncingSelection; SendToServer ReqSyncSelectedComponents]
         else [LogWarning ResyncingFinished]
       else []).
Proof.
  intros Hrole. unfold ResyncSelection_timer, ResyncSelection, ServerSyncSelectedComponents,
    call_server, HasAuthority.
  destruct (ResyncSelectionTimerHandle s) eqn:Ht; simpl; [|by rewrite app_nil_r].
  destruct (bResyncSelection s) eqn:Hb; simpl; [|done].
  rewrite bool_decide_false by done. simpl. by rewrite <- app_assoc.
Qed.

Lemma proxy_step_cfg s i :
  OwnerRole (cfg s) ≠ ROLE_Authority → cfg (proxy_step s i) = cfg s.
Proof.
  intros Hrole. destruct i as [cs|]; simpl.
  - by destruct (MulticastSetSelectedComponents_Implementation_spec cs s) as (_ & ? & _).
  - by destruct (ResyncSelection_timer_spec s Hrole) as (? & _).
Qed.

(** ** Traces that hit nothing *)

Lemma TraceBy_miss q st en ig b s :
  (LineTraceMulti (cfg s) q st en ig).1 = false → TraceBy q st en ig b s = (false, s).
Proof.
  intros Hmiss. unfold TraceBy. destruct (HasWorld (cfg s)); [|done].
  destruct (LineTraceMulti _ _ _ _ _) as [hit hits]. simpl in Hmiss. by subst.
Qed.

Lemma multicast_deselect_all b s :
  SelectedComponents (MulticastDeselectAll_Implementation b s) = [].
Proof.
  unfold MulticastDeselectAll_Implementation.
  by destruct (DeselectAll_spec b s) as (_ & _ & ? & _).
Qed.

Lemma multicast_empty_selection s :
  SelectedComponents (MulticastSetSelectedComponents_Implementation [] s) = [].
Proof.
  destruct (MulticastSetSelectedComponents_Implementation_spec [] s)
    as (_ & _ & _ & -> & _).
  by destruct (DeselectAll_spec (DeselectAll_default (cfg s)) s) as (_ & _ & ? & _).
Qed.

Lemma SetDomain_fields d s :
  cfg (SetDomain d s) = cfg s ∧
  SelectedComponents (SetDomain d s) = SelectedComponents s ∧
  out (SetDomain d s) = out s.
Proof. unfold SetDomain. simpl. by destruct (Gizmo s). Qed.

Lemma MulticastSetDomain_fields d s :
  cfg (MulticastSetDomain d s) = cfg s ∧
  SelectedComponents (MulticastSetDomain d s) = SelectedComponents s.
Proof.
  unfold MulticastSetDomain, call_multicast, MulticastSetDomain_Implementation.
  destruct (SetDomain_fields d (if HasAuthority s then emit (SendToAll (BcastSetDomain d)) s
                                else s)) as (-> & -> & _).
  by destruct (HasAuthority s).
Qed.

(** The handler of a trace request on the authority, on a miss without
    append: the selection is emptied and the empty selection is broadcast. *)
Lemma ServerTraceBy_Implementation_after_miss q st en s ig :
  GetIgnoredActorsForServerTrace s = Done ig →
  (LineTraceMulti (cfg s) q st en ig).1 = false →
  ServerTraceBy_Implementation q st en false s
  = Done (MulticastSetSelectedComponents
      (SelectedComponents (MulticastSetDomain (CurrentDomain (DeselectAll false s).2)
                                              (DeselectAll false s).2))
      (MulticastSetDomain (CurrentDomain (DeselectAll false s).2) (DeselectAll false s).2)).
Proof.
  intros Hig Hmiss. unfold ServerTraceBy_Implementation. by rewrite Hig, TraceBy_miss.
Qed.

Lemma SelectMultipleComponents_nil b s : SelectMultipleComponents [] b s = s.
Proof. done. Qed.

Lemma ServerTraceBy_Implementation_miss q st en s ig :
  OwnerRole (cfg s) = ROLE_Authority →
  GetIgnoredActorsForServerTrace s = Done ig →
  (LineTraceMulti (cfg s) q st en ig).1 = false →
  ∃ s', ServerTraceBy_Implementation q st en false s = Done s' ∧
        SelectedComponents s' = [] ∧
        SendToAll (BcastSetSelectedComponents []) ∈ out s'.
Proof.
  intros Hrole Hig Hmiss.
  rewrite (ServerTraceBy_Implementation_after_miss q st en s ig) by done.
  eexists. split; [done|].
  destruct (DeselectAll_spec false s) as (_ & Hfr & Hsel & _).
  destruct (MulticastSetDomain_fields (CurrentDomain (DeselectAll false s).2)
              (DeselectAll false s).2) as (Hcfg3 & Hsel3).
  rewrite Hsel in Hsel3. rewrite Hsel3.
  generalize dependent (MulticastSetDomain (CurrentDomain (DeselectAll false s).2)
                          (DeselectAll false s).2).
  intros s3 Hcfg3 Hsel3.
  assert (HasAuthority s3 = true) as Hauth.
  { unfold HasAuthority. apply bool_decide_eq_true. rewrite Hcfg3.
    destruct Hfr as (-> & _). done. }
  unfold MulticastSetSelectedComponents, call_multicast. rewrite Hauth.
  split; [apply (multicast_empty_selection (emit _ s3))|].
  destruct (MulticastSetSelectedComponents_Implementation_spec []
              (emit (SendToAll (BcastSetSelectedComponents [])) s3)) as (_ & _ & _ & _ & -> & _).
  rewrite SelectMultipleComponents_nil.
  destruct (DeselectAll_spec
              (DeselectAll_default (cfg (emit (SendToAll (BcastSetSelectedComponents [])) s3)))
              (emit (SendToAll (BcastSetSelectedComponents [])) s3)) as (_ & _ & _ & ->).
  apply elem_of_app. left. apply elem_of_app. right. by apply list_elem_of_singleton.
Qed.

(** The local mouse trace, on a miss without append: the authority
    empties its selection and broadcasts the deselection; a proxy asks the
    authority to do so. *)
Lemma MouseTraceByObjectTypes_miss d chs ig s st en :
  GetMouseStartEndPoints d s = Some (st, en) →
  (LineTraceMulti (cfg s) (ByObjectType chs) st en ig).1 = false →
  if HasAuthority s then
    SelectedComponents (MouseTraceByObjectTypes d chs ig false s).2 = [] ∧
    SendToAll (BcastDeselectAll false) ∈ out (MouseTraceByObjectTypes d chs ig false s).2
  else
    (MouseTraceByObjectTypes d chs ig false s).2 = emit (SendToServer (ReqDeselectAll false)) s.
Proof.
  intros Hpts Hmiss.
  assert ((MouseTraceByObjectTypes d chs ig false s).2 = ServerDeselectAll false s) as ->.
  { unfold MouseTraceByObjectTypes, TraceByObjectTypes. by rewrite Hpts, TraceBy_miss. }
  unfold ServerDeselectAll, call_server.
  destruct (HasAuthority s) eqn:Hauth; [|done].
  unfold ServerDeselectAll_Implementation, MulticastDeselectAll, call_multicast,
    MulticastDeselectAll_Implementation. rewrite Hauth.
  destruct (DeselectAll_spec false (emit (SendToAll (BcastDeselectAll false)) s))
    as (_ & _ & -> & ->).
  split; [done|].
  apply elem_of_app. left. apply elem_of_app. right. by apply list_elem_of_singleton.
Qed.

(** The replicated mouse trace of a proxy, on a miss without append: the
    proxy asks the authority to deselect all. *)
Lemma ReplicatedMouseTraceByObjectTypes_proxy_miss d chs s st en :
  OwnerRole (cfg s) ≠ ROLE_Authority →
  GetMouseStartEndPoints d s = Some (st, en) →
  (LineTraceMulti (cfg s) (ByObjectType chs) st en []).1 = false →
  ReplicatedMouseTraceByObjectTypes d chs false s
  = Done (emit (SendToServer (ReqDeselectAll false)) s).
Proof.
  intros Hrole Hpts Hmiss. unfold ReplicatedMouseTraceByObjectTypes, TraceByObjectTypes.
  rewrite Hpts, TraceBy_miss by done. rewrite bool_decide_false by done. simpl.
  unfold ServerDeselectAll, call_server, HasAuthority. by rewrite bool_decide_false.
Qed.

(** ** The readiness poll of the authority *)

Lemma RemoveAtSwap_front {A} n (l : list A) :
  n ≤ length l →
  RemoveAtSwap 0 n l ≡ₚ drop n l ∧ length (RemoveAtSwap 0 n l) = length l - n.
Proof.
  intros Hn. unfold RemoveAtSwap. simpl.
  assert (RemoveAtSwapPerm :
    drop (length l - n `min` (length l - n)) l
      ++ take (length l - n - n `min` (length l - n)) (drop n l) ≡ₚ drop n l).
  { destruct (decide (n ≤ length l - n)) as [Hle|Hgt].
    - rewrite Nat.min_l by done.
      etrans; [apply Permutation_app_comm|].
      assert (drop (length l - n) l = drop (length l - n - n) (drop n l)) as ->
        by (rewrite drop_drop; f_equal; lia).
      by rewrite take_drop.
    - rewrite Nat.min_r by lia. replace (length l - (length l - n)) with n by lia.
      replace (length l - n - (length l - n)) with 0 by lia.
      by rewrite take_0, app_nil_r. }
  split; [done|]. by rewrite RemoveAtSwapPerm, length_drop.
Qed.

(** One call of [CheckUnreplicatedActors]: as many entries as there are
    replicated clones are dropped from the front of the pending list;
    when the list is then empty, the timer is stopped and (on the
    authority) the selection is broadcast; otherwise nothing else
    happens. *)
Lemma CheckUnreplicatedActors_spec t s :
  let RemoveCount := length (filter (λ c, clone_replicated s t c = true)
                                    (UnreplicatedComponentClones s)) in
  let s' := CheckUnreplicatedActors t s in
  UnreplicatedComponentClones s' ≡ₚ drop RemoveCount (UnreplicatedComponentClones s) ∧
  if bool_decide (RemoveCount = length (UnreplicatedComponentClones s)) then
    CheckUnrepTimerHandle s' = false ∧
    s' = MulticastSetSelectedComponents (SelectedComponents s)
           (set_CheckUnrepTimerHandle false (set_UnreplicatedComponentClones [] s))
  else
    CheckUnrepTimerHandle s' = CheckUnrepTimerHandle s ∧ out s' = out s ∧
    SelectedComponents s' = SelectedComponents s.
Proof.
  intros n s'. subst s'. unfold CheckUnreplicatedActors. fold n.
  assert (n ≤ length (UnreplicatedComponentClones s)) as Hn by apply length_filter.
  destruct (RemoveAtSwap_front n (UnreplicatedComponentClones s) Hn) as (Hperm & Hlen).
  cbn [UnreplicatedComponentClones set_UnreplicatedComponentClones].
  case_bool_decide as Hz; case_bool_decide as Hall; try lia.
  - apply nil_length_inv in Hz. rewrite Hz.
    set (s1 := set_CheckUnrepTimerHandle false (set_UnreplicatedComponentClones [] s)).
    change (SelectedComponents (set_UnreplicatedComponentClones [] s))
      with (SelectedComponents s).
    assert (UnreplicatedComponentClones
              (MulticastSetSelectedComponents (SelectedComponents s) s1) = [] ∧
            CheckUnrepTimerHandle
              (MulticastSetSelectedComponents (SelectedComponents s) s1) = false)
      as (Hu & Ht).
    { unfold MulticastSetSelectedComponents, call_multicast.
      destruct (MulticastSetSelectedComponents_Implementation_spec (SelectedComponents s)
                  (if HasAuthority s1
                   then emit (SendToAll (BcastSetSelectedComponents (SelectedComponents s))) s1
                   else s1)) as (_ & _ & _ & _ & _ & _ & _ & -> & ->).
      by destruct (HasAuthority s1). }
    split; [by rewrite Hu, <- Hz, <- Hperm|]. split; [by rewrite Ht|done].
  - done.
Qed.

(** ** Reparenting the clones *)

Lemma GetOwner_is_Some w (c : nat) a : GetOwner w c = Some a → is_Some (comps w !! c).
Proof. unfold GetOwner. destruct (comps w !! c); [by eexists|done]. Qed.

Lemma GetAttachParent_is_Some w (c : nat) p : GetAttachParent w c = Some p → is_Some (comps w !! c).
Proof. unfold GetAttachParent. destruct (comps w !! c); [by eexists|done]. Qed.

Lemma extends_refl w : extends w w.
Proof. by split. Qed.

Lemma extends_GetOwner w0 w (c : nat) :
  extends w0 w → is_Some (comps w0 !! c) → GetOwner w c = GetOwner w0 c.
Proof. intros [_ He] Hc. unfold GetOwner. by rewrite He. Qed.

Lemma extends_GetAttachParent w0 w (c : nat) :
  extends w0 w → is_Some (comps w0 !! c) → GetAttachParent w c = GetAttachParent w0 c.
Proof. intros [_ He] Hc. unfold GetAttachParent. by rewrite He. Qed.

Lemma extends_GetRootComponent w0 w a :
  extends w0 w → GetRootComponent w a = GetRootComponent w0 a.
Proof. intros [Ha _]. unfold GetRootComponent. by rewrite Ha. Qed.

(** In a hierarchy the actor that owns a component has a root. *)
Lemma hierarchy_has_root w depth (c : nat) a :
  hierarchy w depth → GetOwner w c = Some a → is_Some (GetRootComponent w a).
Proof.
  intros Hh. remember (depth c) as n eqn:Hn. revert c Hn.
  induction (lt_wf n) as [n _ IH]. intros c' -> Ho.
  rename c' into c.
  destruct (hierarchy_rooted _ _ Hh c a Ho) as [Hr|(p & Hp & Hop)]; [by eexists|].
  eapply (IH (depth p)); [|done|done]. by eapply hierarchy_acyclic.
Qed.

(** The loop terminates within the steps it is given and ends as
    [walk_up] says: the components it visits are distinct components of
    the store, for the rank decreases along the walk. *)
Lemma reparent_walk_spec w0 depth w OcCc a r P :
  hierarchy w0 depth → extends w0 w → GetRootComponent w0 a = Some r →
  ∀ fuel (visited : gset nat) (c : nat),
    GetOwner w0 c = Some a →
    visited ⊆ dom (comps w0) →
    (∀ v, v ∈ visited → depth c < depth v) →
    size (dom (comps w0)) < fuel + size visited →
    ∃ target, reparent_walk fuel w OcCc (Some r) P (Some c) = Done (Some target) ∧
              walk_up w0 OcCc r P c target.
Proof.
  intros Hh Hext Hroot. induction fuel as [|fuel IH]; intros visited c Ho Hsub Hdepth Hsize.
  { apply subseteq_size in Hsub. simpl in Hsize. lia. }
  simpl. case_bool_decide as Hcr.
  { injection Hcr as ->. eexists. split; [done|]. apply walk_root. }
  assert (c ≠ r) as Hne by congruence.
  destruct (hierarchy_rooted _ _ Hh c a Ho) as [Hr|(q & Hq & Hoq)]; [congruence|].
  pose proof (GetOwner_is_Some _ _ _ Ho) as Hc.
  rewrite (extends_GetAttachParent w0 w c Hext Hc), Hq. simpl.
  destruct (OcCc !! q) as [kq|] eqn:Hk.
  { eexists. split; [done|]. by eapply walk_found. }
  assert (c ∉ visited) as Hnin by (intros Hin; specialize (Hdepth c Hin); lia).
  destruct (IH ({[c]} ∪ visited) q) as (target & Hw & Hu); [done| | | |].
  - apply union_subseteq. split; [|done].
    apply singleton_subseteq_l, elem_of_dom. done.
  - pose proof (hierarchy_acyclic _ _ Hh c q Hq) as Hlt.
    intros v [->%elem_of_singleton|Hv]%elem_of_union; [done|].
    specialize (Hdepth v Hv). lia.
  - rewrite size_union by (apply disjoint_singleton_l; done). rewrite size_singleton. lia.
  - exists target. split; [done|]. by eapply walk_next.
Qed.

(** The original parent of a clone is a component of the same actor. *)
Lemma original_parent_spec w depth t a :
  hierarchy w depth → GetOwner w t = Some a →
  ∃ P, original_parent w t = Some P ∧ GetOwner w P = Some a ∧
       (P = t ∧ GetRootComponent w a = Some t ∨
        GetAttachParent w t = Some P ∧ GetRootComponent w a ≠ Some t).
Proof.
  intros Hh Ho. unfold original_parent.
  pose proof Ho as Ho'. unfold GetOwner in Ho'.
  destruct (comps w !! t) as [d|] eqn:Hd; [|done]. simpl in Ho'. rewrite Ho'.
  case_bool_decide as Hr.
  - exists t. rewrite <- Hr. auto.
  - destruct (hierarchy_rooted _ _ Hh t a Ho) as [Hr'|(p & Hp & Hop)]; [congruence|].
    exists p. unfold GetAttachParent in Hp. rewrite Hd in Hp. simpl in Hp.
    split; [done|]. split; [done|]. right. split; [|congruence].
    unfold GetAttachParent. by rewrite Hd.
Qed.

Lemma reparent_target_spec w0 depth w OcCc k P a fuel :
  hierarchy w0 depth → extends w0 w → GetOwner w0 P = Some a →
  size (dom (comps w0)) < fuel →
  ∃ target, reparent_target fuel w OcCc k (Some P) = Done (Some target) ∧
            attach_target w0 OcCc k P target.
Proof.
  intros Hh Hext Ho Hfuel. unfold reparent_target.
  destruct (OcCc !! P) as [kp|] eqn:Hk.
  { case_bool_decide as Heq; eexists; (split; [done|]).
    - subst. by apply target_original_root.
    - by apply target_clone_of_parent. }
  rewrite (extends_GetOwner w0 w P Hext (GetOwner_is_Some _ _ _ Ho)), Ho.
  destruct (hierarchy_has_root _ _ _ _ Hh Ho) as [r Hr].
  rewrite (extends_GetRootComponent w0 w a Hext), Hr.
  destruct (reparent_walk_spec w0 depth w OcCc a r P Hh Hext Hr fuel ∅ P)
    as (target & Hw & Hu); [done|done|set_solver| |].
  - rewrite size_empty. lia.
  - exists target. split; [done|]. by eapply target_walk.
Qed.

Lemma clone_map_snoc tc t k : clone_map (tc ++ [(t, k)]) = <[t := k]> (clone_map tc).
Proof. unfold clone_map. by rewrite foldl_app. Qed.

Lemma clone_step_spec w0 tc acc p :
  duplicated w0 tc acc →
  (∀ t, p = Some t → is_Some (comps w0 !! t)) →
  duplicated w0 (tc ++ from_option (λ t, [(t, fresh (dom (comps acc.1.1.1)))]) []
                                   (cloneable w0 p)) (clone_step acc p).
Proof.
  destruct acc as [[[w outClones] OcCc] CcOp]. simpl.
  intros (Hout & Hmap & Hcc & Hext & Hnd & Hdom & Hpairs) Hvalid. simpl in *.
  destruct p as [t|]; simpl; [|by rewrite app_nil_r].
  destruct (Hvalid t eq_refl) as [d Hd].
  destruct Hext as [Hact Hcomps].
  unfold GetOwner. rewrite (Hcomps t), Hd by by eexists. simpl.
  destruct (c_owner d) as [a|] eqn:Ha; simpl; [|by rewrite app_nil_r].
  set (k := fresh (dom (comps w))).
  assert (k ∉ dom (comps w)) as Hk by apply is_fresh.
  assert (comps w !! k = None) as HkNone by by apply not_elem_of_dom.
  assert (comps w0 !! k = None) as Hk0.
  { apply not_elem_of_dom. rewrite Hdom in Hk. intros Hin. apply Hk, elem_of_union. by left. }
  assert (k ∉ tc.*2) as Hktc.
  { rewrite Hdom in Hk. intros Hin. apply Hk, elem_of_union. right.
    by apply elem_of_list_to_set. }
  split_and!; simpl.
  - by rewrite Hout, !fmap_app.
  - by rewrite Hmap, clone_map_snoc.
  - rewrite Hcc, fmap_app. simpl. f_equal. f_equal. f_equal.
    unfold original_parent, GetRootComponent. by rewrite Hd, Ha, Hact.
  - split; [done|]. intros c Hc. simpl. rewrite lookup_insert_ne; [by apply Hcomps|].
    intros <-. rewrite Hk0 in Hc. by destruct Hc.
  - rewrite fmap_app. apply NoDup_app. split; [done|]. split; [|apply NoDup_singleton].
    intros x Hx ->%list_elem_of_singleton. done.
  - rewrite dom_insert_L, Hdom, fmap_app, list_to_set_app_L. simpl.
    rewrite (right_id_L ∅ (∪)). rewrite (comm_L (∪) {[k]}). by rewrite (assoc_L (∪)).
  - intros t' k' [Hin|[= -> ->]%list_elem_of_singleton]%elem_of_app.
    + destruct (Hpairs _ _ Hin) as (? & d' & a' & ? & ? & Hlk). split; [done|].
      exists d', a'. split; [done|]. split; [done|]. rewrite lookup_insert_ne; [done|].
      intros <-. by rewrite HkNone in Hlk.
    + split; [done|]. exists d, a. by rewrite lookup_insert_eq.
Qed.

Lemma clone_phase_spec w0 Components :
  (∀ t, Some t ∈ Components → is_Some (comps w0 !! t)) →
  ∃ tc, duplicated w0 tc (foldl clone_step (w0, [], ∅, []) Components) ∧
        tc.*1 = omap (cloneable w0) Components.
Proof.
  intros Hvalid.
  assert (∀ acc tc, duplicated w0 tc acc →
            ∃ tc', duplicated w0 (tc ++ tc') (foldl clone_step acc Components) ∧
                   tc'.*1 = omap (cloneable w0) Components) as Hloop.
  { induction Components as [|p ps IH]; intros acc tc Hacc; simpl.
    { exists []. by rewrite app_nil_r. }
    assert (∀ t, p = Some t → is_Some (comps w0 !! t)) as Hv1
      by (intros t ->; apply Hvalid; left).
    assert (∀ t, Some t ∈ ps → is_Some (comps w0 !! t)) as Hv2
      by (intros t Ht; apply Hvalid; by right).
    destruct (IH Hv2 _ _ (clone_step_spec w0 tc acc p Hacc Hv1)) as (tc' & Hdup & Htc').
    eexists. rewrite app_assoc. split; [exact Hdup|].
    rewrite fmap_app, Htc'. by destruct (cloneable w0 p). }
  destruct (Hloop (w0, [], ∅, []) []) as (tc & Hdup & Htc); [|by exists tc].
  split_and!; simpl; try done;
    [apply NoDup_nil_2|by rewrite (right_id_L ∅ (∪))|by intros ?? ?%elem_of_nil].
Qed.

Lemma extends_AttachToComponent w0 w (k : nat) parent :
  extends w0 w → comps w0 !! k = None → extends w0 (AttachToComponent k parent w).
Proof.
  intros [Ha Hc] Hk. split; [done|]. intros c Hin. simpl.
  rewrite lookup_alter_ne; [by apply Hc|]. intros <-. rewrite Hk in Hin. by destruct Hin.
Qed.

(** The reparenting phase: every clone is attached as [attach_target]
    says, and nothing else changes. *)
Lemma reparent_phase_spec w0 depth OcCc fuel :
  hierarchy w0 depth → size (dom (comps w0)) < fuel →
  ∀ (tc : list (nat * nat)) w,
    extends w0 w → NoDup tc.*2 →
    (∀ t k, (t, k) ∈ tc → comps w0 !! k = None ∧ is_Some (GetOwner w0 t)) →
    ∃ w2,
      foldl (reparent_step fuel OcCc) (Done w)
            ((λ x, (x.2, original_parent w0 x.1)) <$> tc) = Done w2 ∧
      extends w0 w2 ∧
      dom (comps w2) = dom (comps w) ∧
      (∀ c : nat, c ∉ tc.*2 → comps w2 !! c = comps w !! c) ∧
      (∀ t k, (t, k) ∈ tc →
         ∃ P target, original_parent w0 t = Some P ∧ attach_target w0 OcCc k P target ∧
                     comps w2 !! k = set_c_parent (Some target) <$> comps w !! k).
Proof.
  intros Hh Hfuel. induction tc as [|[t k] tc IH]; intros w Hext Hnd Hpairs.
  { exists w. split_and!; try done. by intros ?? ?%elem_of_nil. }
  simpl in *. apply NoDup_cons in Hnd as [Hk Hnd].
  destruct (Hpairs t k) as (Hk0 & [a Ha]); [by left|].
  destruct (original_parent_spec w0 depth t a Hh Ha) as (P & HP & HoP & _).
  destruct (reparent_target_spec w0 depth w OcCc k P a fuel Hh Hext HoP Hfuel)
    as (target & Htarget & Hattach).
  rewrite HP, Htarget.
  destruct (IH (AttachToComponent k (Some target) w)) as (w2 & Hfold & Hext2 & Hdom & Hother & Hin).
  { by apply extends_AttachToComponent. }
  { done. }
  { intros t' k' Hin. apply Hpairs. by right. }
  exists w2. split_and!; try done.
  - rewrite Hdom. simpl. apply dom_alter_L.
  - intros c [Hck Hc]%not_elem_of_cons. rewrite Hother by done. simpl.
    by rewrite lookup_alter_ne.
  - intros t' k' [[= -> ->]|Hin']%elem_of_cons.
    + exists P, target. split_and!; try done. rewrite Hother by done. simpl.
      by rewrite lookup_alter_eq.
    + destruct (Hin t' k' Hin') as (P' & target' & ? & ? & Hlk).
      exists P', target'. split_and!; try done. rewrite Hlk. simpl.
      rewrite lookup_alter_ne; [done|]. intros <-. apply Hk.
      apply list_elem_of_fmap. by exists (t', k).
Qed.

Lemma clone_map_elem tc t k : clone_map tc !! t = Some k → (t, k) ∈ tc.
Proof.
  induction tc as [|[t' k'] tc IH] using rev_ind; [done|].
  rewrite clone_map_snoc, lookup_insert. case_decide as Heq.
  - intros [= <-]. subst. apply elem_of_app. right. by left.
  - intros Hl. apply elem_of_app. left. auto.
Qed.

(** [CloneComponents] on a hierarchy: it returns, every template is
    cloned into a new component, and every clone is attached as
    [attach_target] says. *)
Lemma CloneComponents_world_spec w depth Components :
  hierarchy w depth →
  (∀ t, Some t ∈ Components → is_Some (comps w !! t)) →
  ∃ tc w',
    CloneComponents_world Components w = Done (Some <$> tc.*2, w') ∧
    tc.*1 = omap (cloneable w) Components ∧
    NoDup tc.*2 ∧
    extends w w' ∧
    dom (comps w') = dom (comps w) ∪ list_to_set tc.*2 ∧
    (∀ t k, (t, k) ∈ tc →
       comps w !! k = None ∧ is_Some (GetOwner w t) ∧
       ∃ P target, original_parent w t = Some P ∧
         attach_target w (clone_map tc) k P target ∧
         GetAttachParent w' k = Some target).
Proof.
  intros Hh Hvalid.
  destruct (clone_phase_spec w Components Hvalid) as (tc & Hdup & Htc).
  unfold CloneComponents_world.
  destruct (foldl clone_step _ _) as [[[w1 outClones] OcCc] CcOp].
  destruct Hdup as (Hout & Hmap & Hcc & Hext & Hnd & Hdom & Hpairs). simpl in *. subst.
  assert (∀ t k, (t, k) ∈ tc → comps w !! k = None ∧ is_Some (GetOwner w t)) as Hpairs'.
  { intros t k Hin. destruct (Hpairs t k Hin) as (? & d & a & Hd & Ha & _).
    split; [done|]. exists a. unfold GetOwner. by rewrite Hd. }
  destruct (reparent_phase_spec w depth (clone_map tc) (S (size (comps w1))) Hh) with
    (tc := tc) (w := w1) as (w2 & -> & Hext2 & Hdom2 & Hother & Hin); try done.
  { rewrite <- size_dom. apply Nat.lt_succ_r, subseteq_size. rewrite Hdom.
    apply union_subseteq_l. }
  exists tc, w2. split_and!; try done; [by rewrite Hdom2|].
  intros t k Hin'. destruct (Hpairs' t k Hin') as (? & ?). split; [done|]. split; [done|].
  destruct (Hin t k Hin') as (P & target & ? & ? & Hlk).
  exists P, target. split_and!; try done.
  destruct (Hpairs t k Hin') as (_ & d & a & _ & _ & Hk1).
  unfold GetAttachParent. by rewrite Hlk, Hk1.
Qed.

Lemma check_hierarchy_sound w depth : check_hierarchy w depth = true → hierarchy w depth.
Proof.
  intros Hc. apply Is_true_true, forallb_True in Hc. rewrite Forall_forall in Hc.
  assert (∀ (c : nat) d, comps w !! c = Some d → check_component w depth c d = true) as Hall.
  { intros c d Hd. apply Is_true_true, (Hc (c, d)), elem_of_map_to_list. done. }
  clear Hc. split.
  - intros c p. unfold GetAttachParent. destruct (comps w !! c) as [d|] eqn:Hd; [|done].
    simpl. intros Hp. specialize (Hall c d Hd). unfold check_component in Hall.
    rewrite Hp in Hall. apply andb_true_iff in Hall as [[H1 _]%andb_true_iff _].
    by apply bool_decide_eq_true in H1.
  - intros c p. unfold GetAttachParent. destruct (comps w !! c) as [d|] eqn:Hd; [|done].
    simpl. intros Hp. specialize (Hall c d Hd). unfold check_component in Hall.
    rewrite Hp in Hall. apply andb_true_iff in Hall as [[_ H2]%andb_true_iff _].
    by apply bool_decide_eq_true in H2.
  - intros c a. unfold GetOwner at 1, GetAttachParent.
    destruct (comps w !! c) as [d|] eqn:Hd; [|done].
    simpl. intros Ha. specialize (Hall c d Hd). unfold check_component in Hall.
    rewrite Ha in Hall. apply andb_true_iff in Hall as [_ [H1|H2]%orb_true_iff].
    + left. by apply bool_decide_eq_true in H1.
    + right. destruct (c_parent d) as [p|]; [|done]. exists p.
      by apply bool_decide_eq_true in H2.
Qed.

Lemma depth_bound_lt w depth (c : nat) :
  is_Some (comps w !! c) → depth c < depth_bound w depth.
Proof.
  intros Hc. unfold depth_bound. apply Nat.lt_succ_r, max_list_elem_of_le.
  apply list_elem_of_fmap_2, elem_of_elements, elem_of_dom. done.
Qed.

Lemma prod_swap_keys (tc : list (nat * nat)) : (prod_swap <$> tc).*1 = tc.*2.
Proof. induction tc as [|[t k] tc IH]; [done|]. rewrite !fmap_cons. by f_equal. Qed.

Lemma template_map_elem tc t k :
  NoDup tc.*2 → template_map tc !! k = Some t ↔ (t, k) ∈ tc.
Proof.
  intros Hnd. unfold template_map. rewrite <- elem_of_list_to_map.
  - rewrite list_elem_of_fmap. split.
    + intros ([t' k'] & [= -> ->] & Hin). done.
    + intros Hin. by exists (t, k).
  - by rewrite prod_swap_keys.
Qed.

(** The end of a walk is the original parent, or the clone of a
    component of smaller rank than the start. *)
Lemma walk_up_rank w depth OcCc r P (c : nat) target :
  hierarchy w depth → walk_up w OcCc r P c target →
  target = P ∨ ∃ q, OcCc !! q = Some target ∧ depth q < depth c.
Proof.
  intros Hh. induction 1 as [|c q kq Hne Hq Hk|c q target Hne Hq Hk _ IH]; [by left|..].
  - right. exists q. split; [done|]. by eapply hierarchy_acyclic.
  - destruct IH as [->|(q' & Hq' & Hlt)]; [by left|]. right. exists q'. split; [done|].
    pose proof (hierarchy_acyclic _ _ Hh c q Hq). lia.
Qed.

(** The rank decreases along every attachment of the store after
    cloning. *)
Lemma cloned_rank_decreases w depth tc w' :
  hierarchy w depth → NoDup tc.*2 → extends w w' →
  dom (comps w') = dom (comps w) ∪ list_to_set tc.*2 →
  (∀ t k, (t, k) ∈ tc →
     comps w !! k = None ∧ is_Some (GetOwner w t) ∧
     ∃ P target, original_parent w t = Some P ∧
       attach_target w (clone_map tc) k P target ∧
       GetAttachParent w' k = Some target) →
  ∀ (c : nat) p, GetAttachParent w' c = Some p →
    cloned_rank w depth tc p < cloned_rank w depth tc c.
Proof.
  intros Hh Hnd Hext Hdom Hpairs.
  assert (∀ c : nat, is_Some (comps w !! c) → cloned_rank w depth tc c = depth c) as Horig.
  { intros c Hc. unfold cloned_rank.
    destruct (template_map tc !! c) as [t|] eqn:Ht; [|done].
    apply template_map_elem in Ht; [|done]. destruct (Hpairs t c Ht) as (Hnone & _).
    rewrite Hnone in Hc. by destruct Hc. }
  assert (∀ q kq, clone_map tc !! q = Some kq →
            cloned_rank w depth tc kq = depth_bound w depth + 2 * depth q) as Hlatest.
  { intros q kq Hq. unfold cloned_rank.
    rewrite (proj2 (template_map_elem tc q kq Hnd) (clone_map_elem _ _ _ Hq)).
    rewrite bool_decide_true by done. lia. }
  intros c p Hcp.
  destruct (decide (is_Some (comps w !! c))) as [Hc|Hc].
  { rewrite (extends_GetAttachParent w w' c Hext Hc) in Hcp.
    rewrite !Horig by eauto using hierarchy_closed. by eapply hierarchy_acyclic. }
  assert (c ∈ tc.*2) as Hin.
  { apply GetAttachParent_is_Some, elem_of_dom in Hcp. rewrite Hdom in Hcp.
    apply elem_of_union in Hcp as [Hcp|Hcp]; [by apply elem_of_dom in Hcp|].
    by apply elem_of_list_to_set in Hcp. }
  apply list_elem_of_fmap in Hin as ([t k] & -> & Hin). cbn [snd] in *.
  destruct (Hpairs t k Hin) as (_ & [a Ha] & P & target & HP & Hattach & Hk).
  rewrite Hk in Hcp. injection Hcp as <-.
  destruct (original_parent_spec w depth t a Hh Ha) as (P' & HP' & HoP & Hcase).
  rewrite HP in HP'. injection HP' as <-.
  assert (depth_bound w depth + 2 * depth t ≤ cloned_rank w depth tc k) as Hk_rank.
  { unfold cloned_rank. rewrite (proj2 (template_map_elem tc t k Hnd) Hin). lia. }
  assert (cloned_rank w depth tc P < depth_bound w depth) as HP_rank.
  { rewrite Horig by by eapply GetOwner_is_Some. by eapply depth_bound_lt, GetOwner_is_Some. }
  assert (depth P ≤ depth t) as HPt.
  { destruct Hcase as [[-> _]|[Hpar _]]; [done|].
    pose proof (hierarchy_acyclic _ _ Hh t P Hpar). lia. }
  destruct Hattach as [kp Hkp Hne| |a' r target Hnone _ _ Hwalk].
  - rewrite (Hlatest P kp Hkp). destruct Hcase as [[-> _]|[Hpar _]].
    + unfold cloned_rank. rewrite (proj2 (template_map_elem tc t k Hnd) Hin).
      rewrite bool_decide_false by congruence. lia.
    + pose proof (hierarchy_acyclic _ _ Hh t P Hpar). lia.
  - lia.
  - destruct (walk_up_rank w depth _ r P P target Hh Hwalk) as [->|(q & Hq & Hlt)]; [lia|].
    rewrite (Hlatest q target Hq). lia.
Qed.

(** ** Termination of the walk

    Without a cycle among the attachments the pass never runs out of
    steps, whether or not the components hang below the roots of their
    actors: it returns or it dereferences a null pointer.  On a cycle
    that holds neither a clone's original nor the root, the loop goes
    round for ever. *)






Lemma reparent_walk_cycle w OcCc root P (a b : nat) :
  GetAttachParent w a = Some b → GetAttachParent w b = Some a →
  Some a ≠ root → Some b ≠ root → OcCc !! a = None → OcCc !! b = None →
  ∀ fuel, reparent_walk fuel w OcCc root P (Some a) = Diverges ∧
          reparent_walk fuel w OcCc root P (Some b) = Diverges.
Proof.
  intros Hab Hba Ha Hb Hca Hcb. induction fuel as [|fuel [IHa IHb]]; [done|].
  simpl. rewrite !bool_decide_eq_false_2 by done.
  rewrite Hab, Hba. simpl. by rewrite Hca, Hcb.
Qed.

End Properties.

(** * Lemmas on the traces, the handlers and the clones *)

Section Auxiliary.
Context {F : Type} `{!Scalar F}.
Implicit Types (s : State F) (w : World) (c : Ptr) (l : list Ptr).

(** ** The gizmo and the selection *)

Lemma SetGizmo_Gizmo_nil s : SelectedComponents s = [] → Gizmo (SetGizmo s) = None.
Proof.
  intros Hnil. unfold SetGizmo.
  case_bool_decide as Hlen; [rewrite Hnil in Hlen; simpl in Hlen; lia|].
  by destruct (Gizmo s) eqn:Hg.
Qed.

Lemma UpdateGizmoPlacement_Gizmo s : Gizmo (UpdateGizmoPlacement s) = Gizmo (SetGizmo s).
Proof. unfold UpdateGizmoPlacement. by destruct (Gizmo (SetGizmo s)) eqn:Hg. Qed.

Lemma UpdateGizmoPlacement_needs s : gizmo_needs_selection (UpdateGizmoPlacement s).
Proof.
  intros Hnil. rewrite UpdateGizmoPlacement_Gizmo. apply SetGizmo_Gizmo_nil.
  by destruct (UpdateGizmoPlacement_spec s) as (_ & <- & _).
Qed.

(** A change that touches neither the selection nor the gizmo. *)
Lemma needs_kept s s' :
  SelectedComponents s' = SelectedComponents s → Gizmo s' = Gizmo s →
  gizmo_needs_selection s → gizmo_needs_selection s'.
Proof. unfold gizmo_needs_selection. intros -> ->. done. Qed.

Lemma DestroyDeselected_Gizmo l : ∀ s, Gizmo (foldl DestroyDeselected s l) = Gizmo s.
Proof.
  induction l as [|c l IH]; intros s; simpl; [done|]. rewrite IH.
  unfold DestroyDeselected. destruct c as [k|]; [|done].
  destruct (negb _); [done|]. destruct (GetOwner _ _); [|done]. by destruct (_ && _).
Qed.

Lemma DeselectAll_needs b s : gizmo_needs_selection (DeselectAll b s).2.
Proof.
  unfold DeselectAll. simpl. destruct b; [|apply UpdateGizmoPlacement_needs].
  eapply needs_kept; [| |apply UpdateGizmoPlacement_needs].
  - by destruct (DestroyDeselected_loop (SelectedComponents s)
      (UpdateGizmoPlacement (set_SelectedComponents []
         (foldl (λ s i, DeselectComponent i s) s (SelectedComponents s))))) as (_ & ? & _).
  - apply DestroyDeselected_Gizmo.
Qed.

Lemma SelectComponent_needs c b s :
  gizmo_needs_selection s → gizmo_needs_selection (SelectComponent c b s).
Proof.
  intros Hs. unfold SelectComponent. destruct c as [k|]; [|done].
  destruct (ShouldSelect _ _ _); [apply UpdateGizmoPlacement_needs|done].
Qed.

Lemma SelectActor_needs a b s :
  gizmo_needs_selection s → gizmo_needs_selection (SelectActor a b s).
Proof.
  intros Hs. unfold SelectActor. destruct a as [k|]; [|done].
  destruct (ShouldSelect _ _ _); [apply UpdateGizmoPlacement_needs|done].
Qed.

Lemma DeselectComponent_needs c s :
  gizmo_needs_selection s → gizmo_needs_selection (DeselectComponent c s).
Proof.
  intros Hs. unfold DeselectComponent. destruct c; [apply UpdateGizmoPlacement_needs|done].
Qed.

(** While no entry has been taken up, the loops of the two functions
    that select a list leave the state as it is. *)
Lemma SelectMultipleComponents_loop_untouched cs : ∀ b s,
  (foldl SelectMultipleComponents_step (b, false, s) cs).1.2 = false →
  foldl SelectMultipleComponents_step (b, false, s) cs = (b, false, s).
Proof.
  induction cs as [|c cs IH]; intros b s; simpl; [done|].
  destruct c as [k|]; [|apply IH].
  destruct (negb _); [apply IH|].
  assert (∀ acc : bool * bool * State F, acc.1.2 = true →
            (foldl SelectMultipleComponents_step acc cs).1.2 = true) as Hmono.
  { clear. induction cs as [|c cs IH]; intros [[b v] s] Hv; simpl in *; [done|].
    apply IH. destruct c as [k|]; [|done]. by destruct (negb _). }
  intros Hf. by rewrite Hmono in Hf.
Qed.

Lemma SelectMultipleActors_loop_untouched (acs : list (option Actor)) : ∀ b s,
  (foldl SelectMultipleActors_step (b, false, s) acs).1.2 = false →
  foldl SelectMultipleActors_step (b, false, s) acs = (b, false, s).
Proof.
  induction acs as [|a acs IH]; intros b s; simpl; [done|].
  destruct a as [k|]; [|apply IH].
  destruct (negb _); [apply IH|].
  assert (∀ acc : bool * bool * State F, acc.1.2 = true →
            (foldl SelectMultipleActors_step acc acs).1.2 = true) as Hmono.
  { clear. induction acs as [|a acs IH]; intros [[b v] s] Hv; simpl in *; [done|].
    apply IH. destruct a as [k|]; [|done]. by destruct (negb _). }
  intros Hf. by rewrite Hmono in Hf.
Qed.

Lemma SelectMultipleComponents_needs cs b s :
  gizmo_needs_selection s → gizmo_needs_selection (SelectMultipleComponents cs b s).
Proof.
  intros Hs. unfold SelectMultipleComponents.
  pose proof (SelectMultipleComponents_loop_untouched cs b s) as Hu.
  destruct (foldl _ _ _) as [[b' v] s1]. destruct v; [apply UpdateGizmoPlacement_needs|].
  by injection (Hu eq_refl) as _ <-.
Qed.

Lemma SelectMultipleActors_needs (acs : list (option Actor)) b s :
  gizmo_needs_selection s → gizmo_needs_selection (SelectMultipleActors acs b s).
Proof.
  intros Hs. unfold SelectMultipleActors.
  pose proof (SelectMultipleActors_loop_untouched acs b s) as Hu.
  destruct (foldl _ _ _) as [[b' v] s1]. destruct v; [apply UpdateGizmoPlacement_needs|].
  by injection (Hu eq_refl) as _ <-.
Qed.

Lemma run_op_needs s op : gizmo_needs_selection s → gizmo_needs_selection (run_op s op).
Proof.
  intros Hs. destruct op as [c b|a b|cs b|acs b|c|a|b]; simpl.
  - by apply SelectComponent_needs.
  - by apply SelectActor_needs.
  - by apply SelectMultipleComponents_needs.
  - by apply SelectMultipleActors_needs.
  - by apply DeselectComponent_needs.
  - unfold DeselectActor. destruct a; [by apply DeselectComponent_needs|done].
  - apply DeselectAll_needs.
Qed.

Lemma SetDomain_kept d s :
  SelectedComponents (SetDomain d s) = SelectedComponents s ∧ Gizmo (SetDomain d s) = Gizmo s.
Proof. unfold SetDomain. simpl. by destruct (Gizmo s) eqn:Hg. Qed.

Lemma SetDomain_needs d s : gizmo_needs_selection s → gizmo_needs_selection (SetDomain d s).
Proof. destruct (SetDomain_kept d s). by apply needs_kept. Qed.

Lemma ClearDomain_needs s : gizmo_needs_selection s → gizmo_needs_selection (ClearDomain s).
Proof. intros Hs. unfold ClearDomain. by apply SetDomain_needs. Qed.

Lemma SetTransformationType_needs k s :
  gizmo_needs_selection s → gizmo_needs_selection (SetTransformationType k s).
Proof.
  intros Hs. unfold SetTransformationType. case_bool_decide; [done|].
  apply UpdateGizmoPlacement_needs.
Qed.

Lemma call_multicast_needs m impl s :
  (∀ s, gizmo_needs_selection s → gizmo_needs_selection (impl s)) →
  gizmo_needs_selection s → gizmo_needs_selection (call_multicast m impl s).
Proof. intros Himpl Hs. unfold call_multicast. apply Himpl. by destruct (HasAuthority s). Qed.

Lemma call_server_needs r impl s :
  (∀ s, gizmo_needs_selection s → gizmo_needs_selection (impl s)) →
  gizmo_needs_selection s → gizmo_needs_selection (call_server r impl s).
Proof. intros Himpl Hs. unfold call_server. destruct (HasAuthority s); [by apply Himpl|done]. Qed.

Lemma MulticastSetSelectedComponents_Implementation_needs cs s :
  gizmo_needs_selection (MulticastSetSelectedComponents_Implementation cs s).
Proof.
  unfold MulticastSetSelectedComponents_Implementation.
  set (s2 := SelectMultipleComponents cs true _).
  assert (gizmo_needs_selection s2) as H2
    by apply SelectMultipleComponents_needs, DeselectAll_needs.
  simpl. destruct (negb (bool_decide _)); simpl; [|done].
  destruct (HasWorld _); [|done]. by destruct (negb _).
Qed.

Lemma MulticastSetSelectedComponents_needs cs s :
  gizmo_needs_selection (MulticastSetSelectedComponents cs s).
Proof.
  unfold MulticastSetSelectedComponents, call_multicast.
  apply MulticastSetSelectedComponents_Implementation_needs.
Qed.

Lemma MulticastSetDomain_needs d s :
  gizmo_needs_selection s → gizmo_needs_selection (MulticastSetDomain d s).
Proof. apply call_multicast_needs. intros s'. apply SetDomain_needs. Qed.

Lemma ServerDeselectAll_needs b s :
  gizmo_needs_selection s → gizmo_needs_selection (ServerDeselectAll b s).
Proof.
  apply call_server_needs. intros s1 _.
  unfold ServerDeselectAll_Implementation, MulticastDeselectAll, call_multicast,
    MulticastDeselectAll_Implementation. apply DeselectAll_needs.
Qed.

Lemma HandleTracedObjects_gizmo_kept g hits : ∀ s,
  SelectedComponents (HandleTracedObjects_gizmo g hits s).2 = SelectedComponents s ∧
  Gizmo (HandleTracedObjects_gizmo g hits s).2 = Gizmo s.
Proof.
  induction hits as [|h hits IH]; intros s; simpl; [done|].
  case_bool_decide; [|apply IH]. destruct (hit_component h) as [k|]; [|apply IH].
  destruct (SetDomain_kept (GetTransformationDomain (cfg s) k) s) as [Hs Hg].
  case_bool_decide; [|done]. destruct (IH (SetDomain (GetTransformationDomain (cfg s) k) s)).
  split; congruence.
Qed.

Lemma HandleTracedObjects_select_needs hits b : ∀ s,
  gizmo_needs_selection s → gizmo_needs_selection (HandleTracedObjects_select hits b s).2.
Proof.
  induction hits as [|h hits IH]; intros s Hs; simpl; [done|].
  destruct (IsGizmo _ _); [by apply IH|].
  destruct (bComponentBased s); simpl; [by apply SelectComponent_needs|by apply SelectActor_needs].
Qed.

Lemma HandleTracedObjects_needs hits b s :
  gizmo_needs_selection s → gizmo_needs_selection (HandleTracedObjects hits b s).2.
Proof.
  intros Hs%ClearDomain_needs. unfold HandleTracedObjects.
  set (s1 := ClearDomain s) in *.
  assert (∀ r : bool * State F,
            (SelectedComponents r.2 = SelectedComponents s1 ∧ Gizmo r.2 = Gizmo s1) →
            gizmo_needs_selection
              (let '(bGizmo, s2) := r in
               if bGizmo then (true, s2) else HandleTracedObjects_select hits b s2).2) as Hr.
  { intros [ok s2] [Hsel Hg]. simpl in *.
    assert (gizmo_needs_selection s2) by (by eapply needs_kept).
    destruct ok; [done|]. by apply HandleTracedObjects_select_needs. }
  destruct (Gizmo s1) as [g|] eqn:Hg1.
  - apply (Hr (HandleTracedObjects_gizmo g hits s1)).
    rewrite <- Hg1. apply HandleTracedObjects_gizmo_kept.
  - by apply (Hr (false, s1)).
Qed.

Lemma TraceBy_needs q st en ig b s :
  gizmo_needs_selection s → gizmo_needs_selection (TraceBy q st en ig b s).2.
Proof.
  intros Hs. unfold TraceBy. destruct (HasWorld _); [|done].
  destruct (LineTraceMulti _ _ _ _ _) as [[] hits]; [|done].
  unfold FilterHits. destruct (bIgnoreNonReplicatedObjects _);
    by apply HandleTracedObjects_needs.
Qed.

Lemma after_miss_needs (b1 b2 : bool) s :
  gizmo_needs_selection s →
  gizmo_needs_selection (if negb b1 && negb b2 then ServerDeselectAll false s else s).
Proof. intros Hs. destruct (negb b1 && negb b2); [by apply ServerDeselectAll_needs|done]. Qed.

Lemma MouseTraceBy_needs d (ch pn : nat) chs ig b s :
  gizmo_needs_selection s →
  gizmo_needs_selection (MouseTraceByObjectTypes d chs ig b s).2 ∧
  gizmo_needs_selection (MouseTraceByChannel d ch ig b s).2 ∧
  gizmo_needs_selection (MouseTraceByProfile d pn ig b s).2.
Proof.
  intros Hs.
  unfold MouseTraceByObjectTypes, MouseTraceByChannel, MouseTraceByProfile,
    TraceByObjectTypes, TraceByChannel, TraceByProfile.
  destruct (GetMouseStartEndPoints d s) as [[st en]|]; [|done].
  pose proof (TraceBy_needs (ByObjectType chs) st en ig b s Hs) as H1.
  pose proof (TraceBy_needs (ByChannel ch) st en ig b s Hs) as H2.
  pose proof (TraceBy_needs (ByProfile pn) st en ig b s Hs) as H3.
  destruct (TraceBy (ByObjectType chs) _ _ _ _ _) as [ok1 s1].
  destruct (TraceBy (ByChannel ch) _ _ _ _ _) as [ok2 s2].
  destruct (TraceBy (ByProfile pn) _ _ _ _ _) as [ok3 s3].
  simpl in *. split_and!; by apply after_miss_needs.
Qed.

Lemma ServerTraceBy_Implementation_needs q st en b s s' :
  ServerTraceBy_Implementation q st en b s = Done s' → gizmo_needs_selection s'.
Proof.
  unfold ServerTraceBy_Implementation.
  destruct (GetIgnoredActorsForServerTrace s) as [ig| |]; [|done|done].
  destruct (TraceBy _ _ _ _ _ _) as [ok s1]. intros [= <-].
  apply MulticastSetSelectedComponents_needs.
Qed.

Lemma ReplicateServerTraceResults_needs ok b s :
  gizmo_needs_selection s → gizmo_needs_selection (ReplicateServerTraceResults ok b s).
Proof.
  intros Hs. unfold ReplicateServerTraceResults.
  destruct (negb (HasAuthority s)); [apply MulticastSetSelectedComponents_needs|done].
Qed.

Lemma ServerTraceBy_needs q st en b s s' :
  ServerTraceBy q st en b s = Done s' → gizmo_needs_selection s → gizmo_needs_selection s'.
Proof.
  unfold ServerTraceBy, try_call_server. destruct (HasAuthority s).
  - intros ?%ServerTraceBy_Implementation_needs. done.
  - by intros [= <-].
Qed.

Lemma ServerSetDomain_needs d s :
  gizmo_needs_selection s → gizmo_needs_selection (ServerSetDomain d s).
Proof. apply call_server_needs. intros s'. apply MulticastSetDomain_needs. Qed.

Lemma ReplicatedMouseTraceBy_needs q d b s s' :
  ReplicatedMouseTraceBy q d b s = Done s' →
  gizmo_needs_selection s → gizmo_needs_selection s'.
Proof.
  intros Hd Hs. revert Hd. unfold ReplicatedMouseTraceBy.
  destruct (GetMouseStartEndPoints d s) as [[st en]|]; [|by intros [= <-]].
  pose proof (TraceBy_needs q st en [] b s Hs) as H1.
  destruct (TraceBy q st en [] b s) as [ok s1]. simpl in H1.
  case_bool_decide; [intros [= <-]; by apply ReplicateServerTraceResults_needs|].
  pose proof (after_miss_needs ok b s1 H1) as H2.
  case_bool_decide.
  - intros Hd. by eapply ServerTraceBy_needs.
  - intros [= <-]. by apply ServerSetDomain_needs.
Qed.

Lemma ReplicatedMouseTraceByObjectTypes_needs d chs b s s' :
  ReplicatedMouseTraceByObjectTypes d chs b s = Done s' →
  gizmo_needs_selection s → gizmo_needs_selection s'.
Proof.
  intros Hd Hs. revert Hd. unfold ReplicatedMouseTraceByObjectTypes, TraceByObjectTypes.
  destruct (GetMouseStartEndPoints d s) as [[st en]|]; [|by intros [= <-]].
  pose proof (TraceBy_needs (ByObjectType chs) st en [] b s Hs) as H1.
  destruct (TraceBy _ st en [] b s) as [ok s1]. simpl in H1.
  case_bool_decide; [intros [= <-]; by apply ReplicateServerTraceResults_needs|].
  destruct (negb ok && negb b); [intros [= <-]; by apply ServerDeselectAll_needs|].
  case_bool_decide.
  - intros Hd. by eapply ServerTraceBy_needs.
  - intros [= <-]. by apply ServerSetDomain_needs.
Qed.

Lemma MulticastApplyTransform_Implementation_needs D s s' :
  MulticastApplyTransform_Implementation D s = Done s' →
  gizmo_needs_selection s → gizmo_needs_selection s'.
Proof.
  intros (_ & Hsel & Hg & _)%MulticastApplyTransform_Implementation_Done Hs.
  by eapply needs_kept.
Qed.

Lemma ServerApplyTransform_needs D s s' :
  ServerApplyTransform D s = Done s' → gizmo_needs_selection s → gizmo_needs_selection s'.
Proof.
  unfold ServerApplyTransform, try_call_server, ServerApplyTransform_Implementation,
    MulticastApplyTransform, try_call_multicast.
  destruct (HasAuthority s); [|by intros [= <-]].
  intros Hd Hs. by eapply MulticastApplyTransform_Implementation_needs.
Qed.

Lemma CloneActors_kept (acs : list (option Actor)) s :
  SelectedComponents (CloneActors acs s).2 = SelectedComponents s ∧
  Gizmo (CloneActors acs s).2 = Gizmo s.
Proof.
  unfold CloneActors. destruct (HasWorld _); [|done].
  by destruct (foldl _ _ _) as [[? ?] ?].
Qed.

Lemma CloneFromList_kept l s r s' :
  CloneFromList l s = Done (r, s') →
  SelectedComponents s' = SelectedComponents s ∧ Gizmo s' = Gizmo s.
Proof.
  unfold CloneFromList, CloneComponents.
  assert (∀ (x : Outcome (list Ptr * State F)),
    (∀ r1 s1, x = Done (r1, s1) →
       SelectedComponents s1 = SelectedComponents s ∧ Gizmo s1 = Gizmo s) →
    match x with
    | Done (outClones, s1) =>
        Done (outClones,
              match Gizmo s1 with
              | Some g =>
                  if bool_decide (CurrentDomain s1 = TD_None) then s1
                  else set_world (alter_gizmo (SetTransformProgressState true (CurrentDomain s1))
                                              g (world s1)) s1
              | None => s1
              end)
    | NullDereference => NullDereference
    | Diverges => Diverges
    end = Done (r, s') →
    SelectedComponents s' = SelectedComponents s ∧ Gizmo s' = Gizmo s) as Hx.
  { intros [[r1 s1]| |] Hk; try done. destruct (Hk r1 s1 eq_refl) as [Hs Hg].
    intros [= <- <-]. destruct (Gizmo s1) eqn:Hg1; [case_bool_decide|]; simpl; by rewrite ?Hg1. }
  apply Hx. intros r1 s1. destruct (bComponentBased s).
  - destruct (HasWorld _); [|by intros [= <- <-]].
    destruct (CloneComponents_world _ _) as [[cl w]| |]; [|done|done]. by intros [= <- <-].
  - intros [= Heq]. pose proof (CloneActors_kept
      (omap (λ i : Ptr, GetOwner (world s) <$> i) l) s) as Hk.
    by rewrite Heq in Hk.
Qed.

Lemma ServerCloneSelected_needs b1 b2 s s' :
  ServerCloneSelected_Implementation b1 b2 s = Done s' →
  gizmo_needs_selection s → gizmo_needs_selection s'.
Proof.
  unfold ServerCloneSelected_Implementation. destruct (bComponentBased s).
  { by intros [= <-]. }
  destruct (CloneFromList _ _) as [[cl s1]| |] eqn:Hc; try done.
  apply CloneFromList_kept in Hc as [Hsel Hg]. intros Hd Hs.
  assert (gizmo_needs_selection s1) as H1 by (by eapply needs_kept).
  destruct b1; [|by injection Hd as <-].
  pose proof (SelectMultipleComponents_needs cl b2 s1 H1) as H2.
  injection Hd as <-. simpl. destruct (HasWorld _); [|done]. by destruct (negb _).
Qed.

Lemma server_handler_needs r s s' :
  server_handler r s = Done s' → gizmo_needs_selection s → gizmo_needs_selection s'.
Proof.
  destruct r as [q st en b| |dt|b|d| |b1 b2]; simpl.
  1: by intros ?%ServerTraceBy_Implementation_needs.
  2: { unfold ServerApplyTransform_Implementation, MulticastApplyTransform,
         try_call_multicast. intros Hd Hs.
       eapply MulticastApplyTransform_Implementation_needs; [done|].
       by destruct (HasAuthority s). }
  5: apply ServerCloneSelected_needs.
  all: intros [= <-] Hs.
  - unfold ServerClearDomain_Implementation, MulticastClearDomain.
    apply call_multicast_needs; [|done]. intros s1. apply ClearDomain_needs.
  - unfold ServerDeselectAll_Implementation, MulticastDeselectAll, call_multicast,
      MulticastDeselectAll_Implementation. apply DeselectAll_needs.
  - by apply MulticastSetDomain_needs.
  - apply MulticastSetSelectedComponents_needs.
Qed.

Lemma multicast_handler_needs m s s' :
  multicast_handler m s = Done s' → gizmo_needs_selection s → gizmo_needs_selection s'.
Proof.
  destruct m as [ |dt|b|d|cs]; simpl.
  2: apply MulticastApplyTransform_Implementation_needs.
  all: intros [= <-] Hs.
  - by apply ClearDomain_needs.
  - apply DeselectAll_needs.
  - by apply SetDomain_needs.
  - apply MulticastSetSelectedComponents_Implementation_needs.
Qed.

Lemma ResyncSelection_timer_needs s :
  gizmo_needs_selection s → gizmo_needs_selection (ResyncSelection_timer s).
Proof.
  intros Hs. unfold ResyncSelection_timer, ResyncSelection.
  destruct (ResyncSelectionTimerHandle s); [|done].
  destruct (bResyncSelection s); [|done].
  apply call_server_needs; [|done]. intros s1 _. apply MulticastSetSelectedComponents_needs.
Qed.

Lemma CheckUnreplicatedActors_timer_needs t s :
  gizmo_needs_selection s → gizmo_needs_selection (CheckUnreplicatedActors_timer t s).
Proof.
  intros Hs. unfold CheckUnreplicatedActors_timer, CheckUnreplicatedActors.
  destruct (CheckUnrepTimerHandle s); [|done].
  case_bool_decide; [apply MulticastSetSelectedComponents_needs|done].
Qed.

Lemma ReplicateFinishTransform_needs s s' :
  ReplicateFinishTransform s = Done s' → gizmo_needs_selection s → gizmo_needs_selection s'.
Proof.
  intros Hd Hs. revert Hd. unfold ReplicateFinishTransform.
  destruct (ServerApplyTransform _ _) as [s2| |] eqn:H2; [|done|done]. intros [= <-].
  apply (needs_kept s2); [done|done|].
  eapply ServerApplyTransform_needs; [done|].
  apply call_server_needs; [|done]. intros s1 H1.
  unfold ServerClearDomain_Implementation, MulticastClearDomain.
  apply call_multicast_needs; [|done]. intros s3. apply ClearDomain_needs.
Qed.

Lemma run_operation_needs s o s' :
  run_operation s o = Done s' → gizmo_needs_selection s → gizmo_needs_selection s'.
Proof.
  destruct o as [op|k|d| |d chs ig b|d ch ig b|d pn ig b|d chs b|d ch b|d pn b|
                 |r|m| |t|]; simpl.
  8: apply ReplicatedMouseTraceByObjectTypes_needs.
  8, 9: apply ReplicatedMouseTraceBy_needs.
  9: apply server_handler_needs.
  9: apply multicast_handler_needs.
  11: apply ReplicateFinishTransform_needs.
  all: try (intros [= <-] Hs).
  - by apply run_op_needs.
  - by apply SetTransformationType_needs.
  - by apply SetDomain_needs.
  - by apply ClearDomain_needs.
  - by destruct (MouseTraceBy_needs d 0 0 chs ig b s Hs) as (? & _ & _).
  - by destruct (MouseTraceBy_needs d ch 0 [] ig b s Hs) as (_ & ? & _).
  - by destruct (MouseTraceBy_needs d 0 pn [] ig b s Hs) as (_ & _ & ?).
  - destruct (CloneFromList _ _) as [[cl s1]| |] eqn:Hc; try done.
    intros [= <-] Hs. apply CloneFromList_kept in Hc as [? ?]. by eapply needs_kept.
  - by apply ResyncSelection_timer_needs.
  - by apply CheckUnreplicatedActors_timer_needs.
Qed.

(** ** The selection as a list *)

Lemma accepted_frame s s' c : sel_frame s s' → accepted s' c = accepted s c.
Proof.
  intros (Hcfg & _ & _ & _ & _ & _ & _ & _ & _ & _ & Hown & _).
  unfold accepted. destruct c as [k|]; [|done]. by rewrite Hcfg, Hown.
Qed.

Lemma accepted_actor_frame s s' a : sel_frame s s' → accepted_actor s' a = accepted_actor s a.
Proof.
  intros (Hcfg & _ & _ & _ & _ & _ & _ & _ & _ & _ & _ & _ & _ & Hroot).
  unfold accepted_actor. destruct a as [k|]; [|done]. by rewrite Hcfg, Hroot.
Qed.

Lemma sel_frame_cfg s s' : sel_frame s s' → cfg s' = cfg s.
Proof. by intros (? & _). Qed.

Lemma AddComponent_Internal_list s c :
  sel_frame s (AddComponent_Internal c s) ∧
  SelectedComponents (AddComponent_Internal c s)
    = toggle_in (bToggleSelectedInMultiSelection (cfg s)) (SelectedComponents s) c.
Proof.
  unfold toggle_in. destruct (Find (SelectedComponents s) c) as [i|] eqn:Hf.
  - destruct (bToggleSelectedInMultiSelection (cfg s)) eqn:Ht.
    + by destruct (AddComponent_Internal_toggle s c i Hf Ht) as (? & ? & _).
    + rewrite AddComponent_Internal_keep; [by split; [apply sel_frame_refl|]| |done].
      apply Find_Some in Hf. by eapply list_elem_of_lookup_2.
  - apply Find_None in Hf. by destruct (AddComponent_Internal_new s c Hf) as (? & ? & _).
Qed.

Lemma foldl_agree {A B} (f g : A → B → A) (bs : list B) : ∀ a,
  (∀ a b, f a b = g a b) → foldl f a bs = foldl g a bs.
Proof. induction bs as [|b bs IH]; intros a Hfg; simpl; [done|]. rewrite Hfg. by apply IH. Qed.

(** The loop of [SelectMultipleComponents] in append mode, on the list. *)
Lemma SelectMultipleComponents_loop_list cs : ∀ (v : bool) s,
  let r := foldl SelectMultipleComponents_step (true, v, s) cs in
  sel_frame s r.2 ∧
  SelectedComponents r.2
    = foldl (λ l c, if accepted s c
                    then toggle_in (bToggleSelectedInMultiSelection (cfg s)) l c else l)
            (SelectedComponents s) cs.
Proof.
  induction cs as [|c cs IH]; intros v s; simpl; [by split; [apply sel_frame_refl|]|].
  destruct c as [k|]; simpl; [|apply IH].
  destruct (ShouldSelect (cfg s) (GetOwner (world s) k) (Some k)) eqn:Hsel; simpl; [|apply IH].
  destruct (AddComponent_Internal_list s (Some k)) as [Hfr Hl].
  destruct (IH true (AddComponent_Internal (Some k) s)) as [Hfr' Hl'].
  split; [by eapply sel_frame_trans|].
  rewrite Hl', Hl, (sel_frame_cfg _ _ Hfr). apply foldl_agree.
  intros l c. by rewrite (accepted_frame _ _ c Hfr).
Qed.

Lemma SelectMultipleComponents_append_list cs s :
  sel_frame s (SelectMultipleComponents cs true s) ∧
  SelectedComponents (SelectMultipleComponents cs true s)
    = select_all s (SelectedComponents s) cs.
Proof.
  unfold SelectMultipleComponents, select_all.
  destruct (SelectMultipleComponents_loop_list cs false s) as [Hfr Hl].
  destruct (foldl SelectMultipleComponents_step _ _) as [[b v] s1]. simpl in *.
  destruct v; [|done].
  destruct (UpdateGizmoPlacement_spec s1) as (Hfr' & -> & _).
  split; [by eapply sel_frame_trans|done].
Qed.

Lemma Find_app_new l c : c ∉ l → Find (l ++ [c]) c = Some (length l).
Proof.
  intros Hnin. unfold Find.
  induction l as [|x l IH]; simpl.
  - by rewrite decide_True.
  - apply not_elem_of_cons in Hnin as [Hne Hnin].
    rewrite decide_False by done. simpl.
    specialize (IH Hnin). destruct (list_find _ (l ++ [c])) as [[i y]|]; simpl in *; [|done].
    by injection IH as ->.
Qed.

Lemma delete_app_last l c : delete (length l) (l ++ [c]) = l.
Proof. induction l as [|x l IH]; simpl; [done|]. by f_equal. Qed.

Lemma toggle_in_length b l c : length (toggle_in b l c) ≤ S (length l).
Proof.
  unfold toggle_in. destruct (Find l c) as [i|] eqn:Hf.
  - destruct b; [|lia]. apply Find_Some in Hf.
    rewrite length_delete by eauto. lia.
  - rewrite length_app. simpl. lia.
Qed.

Lemma toggle_in_grows b l c :
  length (toggle_in b l c) = S (length l) → (c ∉ l) ∧ toggle_in b l c = l ++ [c].
Proof.
  unfold toggle_in. destruct (Find l c) as [i|] eqn:Hf.
  - destruct b; [|lia]. apply Find_Some in Hf.
    rewrite length_delete by eauto. pose proof (lookup_lt_Some _ _ _ Hf). lia.
  - intros _. by apply Find_None in Hf.
Qed.

Lemma select_all_length s cs : ∀ l, length (select_all s l cs) ≤ length l + length cs.
Proof.
  unfold select_all. induction cs as [|c cs IH]; intros l; simpl; [lia|].
  etrans; [apply IH|]. destruct (accepted s c); [|lia].
  pose proof (toggle_in_length (bToggleSelectedInMultiSelection (cfg s)) l c). lia.
Qed.

(** The list grows by one entry per reference exactly when every
    reference is accepted, occurs once and is not yet in the list. *)
Lemma select_all_full s cs : ∀ l,
  length (select_all s l cs) = length l + length cs ↔
  (Forall (λ c, accepted s c = true) cs ∧ NoDup cs ∧ (∀ c, c ∈ cs → c ∉ l)).
Proof.
  induction cs as [|c cs IH]; intros l.
  { simpl. split; [intros _|lia]. split_and!; [done|apply NoDup_nil_2|by intros ? ?%elem_of_nil]. }
  change (select_all s l (c :: cs))
    with (select_all s (if accepted s c
                        then toggle_in (bToggleSelectedInMultiSelection (cfg s)) l c else l) cs).
  split.
  - intros Hlen. simpl in Hlen.
    pose proof (select_all_length s cs
      (if accepted s c then toggle_in (bToggleSelectedInMultiSelection (cfg s)) l c else l))
      as Hle.
    destruct (accepted s c) eqn:Hacc; [|lia].
    pose proof (toggle_in_length (bToggleSelectedInMultiSelection (cfg s)) l c) as Hle'.
    destruct (toggle_in_grows (bToggleSelectedInMultiSelection (cfg s)) l c) as [Hnin Heq];
      [lia|].
    rewrite Heq in Hlen.
    assert (length (select_all s (l ++ [c]) cs) = length (l ++ [c]) + length cs) as Hlen'
      by (rewrite length_app; simpl; lia).
    apply IH in Hlen' as (Hall & Hnd & Hdis).
    split_and!.
    + by constructor.
    + apply NoDup_cons. split; [|done]. intros Hin.
      apply (Hdis c Hin), elem_of_app. right. by left.
    + intros x [->|Hx]%elem_of_cons; [done|].
      intros Hxl. apply (Hdis x Hx), elem_of_app. by left.
  - intros (Hall & Hnd & Hdis). apply Forall_cons in Hall as [Hc Hall].
    apply NoDup_cons in Hnd as [Hnin Hnd]. rewrite Hc.
    assert (c ∉ l) as Hcl by (apply Hdis; left).
    assert (toggle_in (bToggleSelectedInMultiSelection (cfg s)) l c = l ++ [c]) as ->.
    { unfold toggle_in. apply Find_None in Hcl. by rewrite Hcl. }
    assert (length (select_all s (l ++ [c]) cs) = length (l ++ [c]) + length cs) as Hlen.
    { apply IH. split_and!; [done|done|].
      intros x Hx [Hxl|Hxc]%elem_of_app.
      - by apply (Hdis x); [right|].
      - apply list_elem_of_singleton in Hxc. by subst. }
    rewrite Hlen, length_app. simpl. lia.
Qed.

Lemma select_all_fresh s cs : ∀ l,
  Forall (λ c, accepted s c = true) cs → NoDup cs → (∀ c, c ∈ cs → c ∉ l) →
  select_all s l cs = l ++ cs.
Proof.
  induction cs as [|c cs IH]; intros l Hall Hnd Hdis; [by rewrite app_nil_r|].
  apply Forall_cons in Hall as [Hc Hall]. apply NoDup_cons in Hnd as [Hnin Hnd].
  unfold select_all. simpl. rewrite Hc.
  assert (c ∉ l) as Hcl by (apply Hdis; left).
  assert (toggle_in (bToggleSelectedInMultiSelection (cfg s)) l c = l ++ [c]) as ->.
  { unfold toggle_in. apply Find_None in Hcl. by rewrite Hcl. }
  change (select_all s (l ++ [c]) cs = l ++ c :: cs).
  rewrite IH; [by rewrite <- app_assoc|done|done|].
  intros x Hx [Hxl|Hxc]%elem_of_app.
  - by apply (Hdis x); [right|].
  - apply list_elem_of_singleton in Hxc. by subst.
Qed.

Lemma SelectMultipleComponents_step_accepted (b v : bool) s c :
  SelectMultipleComponents_step (b, v, s) c
  = if accepted s c
    then (true, true,
          AddComponent_Internal c
            (if b then s else (DeselectAll (DeselectAll_default (cfg s)) s).2))
    else (b, v, s).
Proof.
  unfold SelectMultipleComponents_step, accepted. destruct c as [k|]; [|done].
  by destruct (ShouldSelect _ _ _).
Qed.

Lemma SelectMultipleActors_step_accepted (b v : bool) s (a : option Actor) :
  SelectMultipleActors_step (b, v, s) a
  = if accepted_actor s a
    then (true, true,
          let s1 := if b then s else (DeselectAll (DeselectAll_default (cfg s)) s).2 in
          AddComponent_Internal (a ≫= GetRootComponent (world s1)) s1)
    else (b, v, s).
Proof.
  unfold SelectMultipleActors_step, accepted_actor. destruct a as [k|]; [|done].
  by destruct (ShouldSelect _ _ _).
Qed.

Lemma SelectMultipleComponents_rejected cs : ∀ (b : bool) s,
  Forall (λ c, accepted s c = false) cs →
  foldl SelectMultipleComponents_step (b, false, s) cs = (b, false, s).
Proof.
  induction cs as [|c cs IH]; intros b s Hall; [done|].
  apply Forall_cons in Hall as [Hc Hall]. cbn [foldl].
  rewrite SelectMultipleComponents_step_accepted, Hc. by apply IH.
Qed.

Lemma SelectMultipleActors_rejected (acs : list (option Actor)) : ∀ (b : bool) s,
  Forall (λ a, accepted_actor s a = false) acs →
  foldl SelectMultipleActors_step (b, false, s) acs = (b, false, s).
Proof.
  induction acs as [|a acs IH]; intros b s Hall; [done|].
  apply Forall_cons in Hall as [Ha Hall]. cbn [foldl].
  rewrite SelectMultipleActors_step_accepted, Ha. by apply IH.
Qed.

Lemma SelectMultipleComponents_clear_first cs : ∀ s,
  Exists (λ c, accepted s c = true) cs →
  foldl SelectMultipleComponents_step (false, false, s) cs
  = foldl SelectMultipleComponents_step
      (true, false, (DeselectAll (DeselectAll_default (cfg s)) s).2) cs.
Proof.
  induction cs as [|c cs IH]; intros s Hex; [by apply Exists_nil in Hex|].
  destruct (DeselectAll_spec (DeselectAll_default (cfg s)) s) as (_ & Hfr & _).
  cbn [foldl]. rewrite !SelectMultipleComponents_step_accepted.
  rewrite (accepted_frame _ _ c Hfr).
  destruct (accepted s c) eqn:Hc; [done|].
  apply IH. apply Exists_cons in Hex as [Hex|Hex]; [congruence|done].
Qed.

Lemma select_all_frame s s' l cs : sel_frame s s' → select_all s' l cs = select_all s l cs.
Proof.
  intros Hfr. unfold select_all. rewrite (sel_frame_cfg _ _ Hfr). apply foldl_agree.
  intros l' c. by rewrite (accepted_frame _ _ c Hfr).
Qed.

(** The selection after a selection broadcast is a function of the list
    that is broadcast. *)
Lemma MulticastSetSelectedComponents_Implementation_list cs s :
  SelectedComponents (MulticastSetSelectedComponents_Implementation cs s) = select_all s [] cs.
Proof.
  destruct (MulticastSetSelectedComponents_Implementation_spec cs s) as (_ & _ & _ & -> & _).
  destruct (DeselectAll_spec (DeselectAll_default (cfg s)) s) as (_ & Hfr & Hnil & _).
  destruct (SelectMultipleComponents_append_list cs
              (DeselectAll (DeselectAll_default (cfg s)) s).2) as [_ ->].
  rewrite Hnil. by apply select_all_frame.
Qed.

Lemma in_sync_selection cs s :
  bResyncSelection (MulticastSetSelectedComponents_Implementation cs s) = false →
  SelectedComponents (MulticastSetSelectedComponents_Implementation cs s) = cs.
Proof.
  destruct (MulticastSetSelectedComponents_Implementation_spec cs s)
    as (_ & _ & _ & _ & _ & -> & _).
  rewrite MulticastSetSelectedComponents_Implementation_list, negb_false_iff,
    bool_decide_eq_true.
  intros Hlen. symmetry in Hlen.
  apply (select_all_full s cs []) in Hlen as (Hall & Hnd & Hdis).
  by rewrite select_all_fresh.
Qed.

(** ** The messages an operation sends *)

Lemma messages_app (l1 l2 : list (Event F)) : messages (l1 ++ l2) = messages l1 ++ messages l2.
Proof. unfold messages. by rewrite filter_app. Qed.

Lemma messages_SelectEvents s c : messages (SelectEvents s c) = [].
Proof. unfold SelectEvents. by destruct (GetUFocusable s c). Qed.

Lemma messages_DeselectEvents s c : messages (DeselectEvents s c) = [].
Proof. unfold DeselectEvents. by destruct (GetUFocusable s c). Qed.

Lemma messages_DeselectAllEvents s l : messages (DeselectAllEvents s l) = [].
Proof.
  unfold DeselectAllEvents. induction l as [|c l IH]; [done|].
  rewrite bind_cons, messages_app, IH, app_nil_r.
  destruct c; [apply messages_DeselectEvents|done].
Qed.

Lemma sel_step_messages nn s s' : sel_step nn s s' → messages (out s') = messages (out s).
Proof.
  intros [c _ _ _ _ ->|i c _ _ _ ->|_ _ ->|_ _ ->]; rewrite ?messages_app,
    ?messages_SelectEvents, ?messages_DeselectEvents, ?messages_DeselectAllEvents,
    ?app_nil_r; done.
Qed.

Lemma sel_steps_messages nn s s' :
  rtc (sel_step nn) s s' → messages (out s') = messages (out s).
Proof.
  induction 1 as [|s1 s2 s3 Hstep _ IH]; [done|]. rewrite IH. by eapply sel_step_messages.
Qed.

Lemma run_op_messages s op : messages (out (run_op s op)) = messages (out s).
Proof. by apply (sel_steps_messages false), steps_run_op. Qed.

Lemma DeselectAll_messages b s : messages (out (DeselectAll b s).2) = messages (out s).
Proof. apply (run_op_messages s (OpDeselectAll b)). Qed.

Lemma SelectMultipleComponents_messages cs b s :
  messages (out (SelectMultipleComponents cs b s)) = messages (out s).
Proof. apply (run_op_messages s (OpSelectMultipleComponents cs b)). Qed.

Lemma MulticastSetSelectedComponents_Implementation_messages cs s :
  messages (out (MulticastSetSelectedComponents_Implementation cs s)) = messages (out s).
Proof.
  destruct (MulticastSetSelectedComponents_Implementation_spec cs s)
    as (_ & _ & _ & _ & -> & _).
  by rewrite SelectMultipleComponents_messages, DeselectAll_messages.
Qed.

Lemma SetDomain_out d s : out (SetDomain d s) = out s.
Proof. by destruct (SetDomain_fields d s) as (_ & _ & ?). Qed.



Lemma messages_FilterHits_warning (hits : list FHitResult) :
  messages (hits ≫= FilterHits_warning (F:=F)) = [].
Proof.
  induction hits as [|h hits IH]; [done|].
  rewrite bind_cons, messages_app, IH, app_nil_r. unfold FilterHits_warning.
  by destruct (hit_actor h), (hit_component h).
Qed.

(** What "supported for networking" comes to, in terms of the flags of
    the objects hit. *)
Lemma hit_supported_spec s (h : FHitResult) :
  hit_supported s h = true ↔
  IsGizmo (world s) (hit_actor h) = true ∨
  ∃ a, hit_actor h = Some a ∧ actor_flag a_net (world s) a = true ∧
       (bComponentBased s = true →
        ∃ k, hit_component h = Some k ∧ comp_flag c_net (world s) k = true).
Proof.
  unfold hit_supported. destruct (IsGizmo (world s) (hit_actor h)); simpl.
  { split; [by left|done]. }
  destruct (hit_actor h) as [a|].
  2: { split; [done|]. by intros [?|(a & ? & _)]. }
  destruct (actor_flag a_net (world s) a) eqn:Hnet; simpl.
  2: { split; [done|]. intros [?|(a' & [= <-] & ? & _)]; congruence. }
  destruct (bComponentBased s).
  - destruct (hit_component h) as [k|].
    + destruct (comp_flag c_net (world s) k) eqn:Hn; simpl.
      * split; [|done]. intros _. right. exists a. split_and!; [done|done|].
        intros _. by exists k.
      * split; [done|]. intros [?|(a' & _ & _ & Hk)]; [done|].
        destruct (Hk eq_refl) as (k' & [= <-] & ?). congruence.
    + split; [done|]. intros [?|(a' & _ & _ & Hk)]; [done|].
      by destruct (Hk eq_refl) as (k' & ? & _).
  - split; [|done]. intros _. right. exists a. by split_and!.
Qed.

(** The warnings of [FilterHits] are those of the hits it removes that
    have an actor and a valid component. *)
Lemma FilterHits_warning_spec (hs : list FHitResult) (e : Event F) :
  e ∈ hs ≫= FilterHits_warning ↔
  ∃ h a k, h ∈ hs ∧ hit_actor h = Some a ∧ hit_component h = Some k ∧
           e = LogWarning (RemovingHitNotSupportedForNetworking a k).
Proof.
  rewrite list_elem_of_bind. split.
  - intros (h & He & Hh). unfold FilterHits_warning in He.
    destruct (hit_actor h) as [a|] eqn:Ha; [|by apply elem_of_nil in He].
    destruct (hit_component h) as [k|] eqn:Hk; [|by apply elem_of_nil in He].
    apply list_elem_of_singleton in He. by exists h, a, k.
  - intros (h & a & k & Hh & Ha & Hk & ->). exists h. split; [|done].
    unfold FilterHits_warning. rewrite Ha, Hk. by left.
Qed.


Lemma call_multicast_authority m impl s :
  HasAuthority s = true → call_multicast m impl s = impl (emit (SendToAll m) s).
Proof. intros Ha. unfold call_multicast. by rewrite Ha. Qed.

Lemma messages_emit_broadcast m s :
  messages (out (emit (SendToAll m) s)) = messages (out s) ++ [SendToAll m].
Proof. simpl. by rewrite messages_app. Qed.



Lemma SetDomain_cfg d s : cfg (SetDomain d s) = cfg s.
Proof. by destruct (SetDomain_fields d s) as (? & _). Qed.





Lemma HasAuthority_cfg s s' : cfg s' = cfg s → HasAuthority s' = HasAuthority s.
Proof. unfold HasAuthority. by intros ->. Qed.

Lemma HasAuthority_emit e s : HasAuthority (emit e s) = HasAuthority s.
Proof. done. Qed.

(** ** Traces *)

Lemma SetDomain_accumulated d s :
  AccumulatedDeltaTransform (SetDomain d s) = AccumulatedDeltaTransform s.
Proof. by destruct (SetDomain_accumulators d s) as (? & _). Qed.

Lemma SetDomain_domain d s : CurrentDomain (SetDomain d s) = d.
Proof. by destruct (SetDomain_accumulators d s) as (_ & _ & ?). Qed.

(** The first loop of [HandleTracedObjects], started without a domain. *)
Lemma HandleTracedObjects_gizmo_spec g hits : ∀ s,
  CurrentDomain s = TD_None →
  let r := HandleTracedObjects_gizmo g hits s in
  cfg r.2 = cfg s ∧ SelectedComponents r.2 = SelectedComponents s ∧ out r.2 = out s ∧
  AccumulatedDeltaTransform r.2 = AccumulatedDeltaTransform s ∧
  (r.1 = true →
   ∃ h k, h ∈ hits ∧ hit_actor h = Some g ∧ hit_component h = Some k ∧
          GetTransformationDomain (cfg s) k = CurrentDomain r.2 ∧
          CurrentDomain r.2 ≠ TD_None) ∧
  (r.1 = false → CurrentDomain r.2 = TD_None).
Proof.
  induction hits as [|h hits IH]; intros s Hd; simpl; [done|].
  assert (∀ s0, CurrentDomain s0 = TD_None → cfg s0 = cfg s →
            SelectedComponents s0 = SelectedComponents s → out s0 = out s →
            AccumulatedDeltaTransform s0 = AccumulatedDeltaTransform s →
            let r := HandleTracedObjects_gizmo g hits s0 in
            cfg r.2 = cfg s ∧ SelectedComponents r.2 = SelectedComponents s ∧
            out r.2 = out s ∧
            AccumulatedDeltaTransform r.2 = AccumulatedDeltaTransform s ∧
            (r.1 = true →
             ∃ h' k, h' ∈ h :: hits ∧ hit_actor h' = Some g ∧ hit_component h' = Some k ∧
                    GetTransformationDomain (cfg s) k = CurrentDomain r.2 ∧
                    CurrentDomain r.2 ≠ TD_None) ∧
            (r.1 = false → CurrentDomain r.2 = TD_None)) as Hrest.
  { intros s0 Hd0 Hc0 Hs0 Ho0 Ha0.
    destruct (IH s0 Hd0) as (Hc & Hs & Ho & Ha & Ht & Hf).
    split_and!; [congruence|congruence|congruence|congruence| |done].
    intros Hr. destruct (Ht Hr) as (h' & k & Hin & ? & ? & Hdom & ?).
    exists h', k. split_and!; [by right|done|done|by rewrite <- Hc0|done]. }
  case_bool_decide as Hg; [|by apply Hrest].
  destruct (hit_component h) as [k|] eqn:Hk; [|by apply Hrest].
  case_bool_decide as Hnone.
  - apply Hrest; [done|apply SetDomain_cfg| | |apply SetDomain_accumulated].
    + by destruct (SetDomain_fields (GetTransformationDomain (cfg s) k) s) as (_ & ? & _).
    + apply SetDomain_out.
  - simpl. rewrite SetDomain_cfg, SetDomain_out, SetDomain_accumulated.
    destruct (SetDomain_fields (GetTransformationDomain (cfg s) k) s) as (_ & -> & _).
    split_and!; try done. intros _. exists h, k.
    rewrite SetDomain_domain in *. split_and!; [by left|done..].
Qed.

Lemma HandleTracedObjects_gizmo_first g hits1 h k hits2 : ∀ s,
  CurrentDomain s = TD_None →
  Forall (no_domain_hit s g) hits1 →
  hit_actor h = Some g → hit_component h = Some k →
  GetTransformationDomain (cfg s) k ≠ TD_None →
  let r := HandleTracedObjects_gizmo g (hits1 ++ h :: hits2) s in
  r.1 = true ∧ CurrentDomain r.2 = GetTransformationDomain (cfg s) k.
Proof.
  induction hits1 as [|h1 hits1 IH]; intros s Hd Hall Hg Hk Hdom; simpl.
  - rewrite bool_decide_true by done. rewrite Hk.
    rewrite bool_decide_false by (by rewrite SetDomain_domain). simpl.
    by rewrite SetDomain_domain.
  - apply Forall_cons in Hall as [H1 Hall].
    case_bool_decide as Hg1; [|by apply IH].
    destruct (hit_component h1) as [k1|] eqn:Hk1; [|by apply IH].
    specialize (H1 Hg1 k1 Hk1). rewrite H1.
    rewrite bool_decide_true by (by rewrite SetDomain_domain).
    destruct (IH (SetDomain TD_None s)) as [Hr Hdr]; try done.
    + by rewrite SetDomain_domain.
    + eapply Forall_impl; [exact Hall|]. intros h' Hh'. unfold no_domain_hit.
      by rewrite SetDomain_cfg.
    + by rewrite SetDomain_cfg.
    + split; [done|]. by rewrite Hdr, SetDomain_cfg.
Qed.

Lemma HandleTracedObjects_select_frame hits b : ∀ s,
  sel_frame s (HandleTracedObjects_select hits b s).2.
Proof.
  induction hits as [|h hits IH]; intros s; simpl; [apply sel_frame_refl|].
  destruct (IsGizmo _ _); [apply IH|]. destruct (bComponentBased s); simpl.
  - apply (sel_steps_frame false), steps_SelectComponent.
  - by apply (sel_steps_frame false), steps_SelectActor.
Qed.

Lemma ClearDomain_fields s :
  CurrentDomain (ClearDomain s) = TD_None ∧
  AccumulatedDeltaTransform (ClearDomain s) = SetScale3D ZeroVector FTransform_Identity ∧
  cfg (ClearDomain s) = cfg s ∧ Gizmo (ClearDomain s) = Gizmo s ∧
  SelectedComponents (ClearDomain s) = SelectedComponents s ∧ out (ClearDomain s) = out s.
Proof.
  unfold ClearDomain.
  rewrite SetDomain_domain, SetDomain_accumulated, SetDomain_cfg, SetDomain_out.
  destruct (SetDomain_kept TD_None
    (set_AccumulatedDeltaTransform (ResetDeltaTransform (AccumulatedDeltaTransform s)) s))
    as [-> ->]. done.
Qed.

(** ** When the flush of the replication layer fails *)

(** [ServerApplyTransform] stops on a null pointer exactly when it runs
    on the authority for a player controller that is not local, there is
    no gizmo, and a selected component is movable or forced to be. *)
Lemma ServerApplyTransform_crash D s :
  (ServerApplyTransform D s = NullDereference ↔
   HasAuthority s = true ∧
   OwnerIsPlayerController (cfg s) = true ∧ IsLocalController (cfg s) = false ∧
   Gizmo s = None ∧
   ∃ k, Some k ∈ SelectedComponents s ∧
        bForceMobility (cfg s) || comp_flag c_movable (world s) k = true) ∧
  ServerApplyTransform D s ≠ Diverges.
Proof.
  unfold ServerApplyTransform, try_call_server, ServerApplyTransform_Implementation,
    MulticastApplyTransform, try_call_multicast, MulticastApplyTransform_Implementation.
  destruct (HasAuthority s) eqn:Ha; [|split; [split; [done|by intros [? _]]|done]].
  set (s1 := emit (SendToAll (BcastApplyTransform D)) s).
  change (cfg s1) with (cfg s).
  destruct (ApplyDeltaTransform_spec D s1) as [Hcrash Hok].
  change (Gizmo s1) with (Gizmo s) in Hcrash. change (cfg s1) with (cfg s) in Hcrash.
  change (world s1) with (world s) in Hcrash.
  change (SelectedComponents s1) with (SelectedComponents s) in Hcrash.
  destruct (OwnerIsPlayerController (cfg s)); simpl;
    [destruct (IsLocalController (cfg s)); simpl|].
  2: { split.
       - rewrite Hcrash. split; [by intros [? ?]|by intros (_ & _ & _ & ? & ?)].
       - intros Hd. destruct Hok as (s' & Hs' & _); [by rewrite Hd|]. congruence. }
  all: split; [split; [done|by intros (_ & ? & ? & _)]|done].
Qed.

Lemma ServerClearDomain_kept s :
  cfg (ServerClearDomain s) = cfg s ∧ Gizmo (ServerClearDomain s) = Gizmo s ∧
  SelectedComponents (ServerClearDomain s) = SelectedComponents s ∧
  comps (world (ServerClearDomain s)) = comps (world s).
Proof.
  unfold ServerClearDomain, call_server, ServerClearDomain_Implementation,
    MulticastClearDomain, call_multicast, MulticastClearDomain_Implementation,
    ClearDomain, SetDomain.
  destruct (HasAuthority s); simpl; [|done].
  destruct (Gizmo s) eqn:Hg; split_and!; try reflexivity; exact Hg.
Qed.

(** So does [ReplicateFinishTransform], which clears the domain first. *)
Lemma ReplicateFinishTransform_crash s :
  (ReplicateFinishTransform s = NullDereference ↔
   HasAuthority s = true ∧
   OwnerIsPlayerController (cfg s) = true ∧ IsLocalController (cfg s) = false ∧
   Gizmo s = None ∧
   ∃ k, Some k ∈ SelectedComponents s ∧
        bForceMobility (cfg s) || comp_flag c_movable (world s) k = true) ∧
  ReplicateFinishTransform s ≠ Diverges.
Proof.
  unfold ReplicateFinishTransform.
  destruct (ServerClearDomain_kept s) as (Hc & Hg & Hs & Hw).
  destruct (ServerApplyTransform_crash
              (NetworkDeltaTransform (ServerClearDomain s)) (ServerClearDomain s))
    as [Hcrash Hdiv].
  rewrite (HasAuthority_cfg s (ServerClearDomain s)) in Hcrash by done.
  rewrite Hc, Hg, Hs in Hcrash. unfold comp_flag in Hcrash. rewrite Hw in Hcrash.
  destruct (ServerApplyTransform _ _) as [s2| |]; [|by split|done].
  split; [|done]. split; [done|]. intros H'. by apply Hcrash in H'.
Qed.

(** ** Cloning of actors *)











(** ** The gizmo after a change of kind *)

Lemma actor_flag_valid_DestroyActor g w : actor_flag a_valid (DestroyActor g w) g = false.
Proof.
  unfold actor_flag, DestroyActor. simpl. rewrite lookup_alter_eq.
  by destruct (actors w !! g).
Qed.

Lemma GetGizmoClass_current s :
  GetGizmoClass s (CurrentTransformation s) = GizmoClassFor (cfg s) (CurrentTransformation s).
Proof. unfold GetGizmoClass, GizmoClassFor. by destruct (CurrentTransformation s). Qed.

(** [SetGizmo] when something is selected and the gizmo, if there is
    one, is of another kind than the current one. *)
Lemma SetGizmo_mismatch s :
  SelectedComponents s ≠ [] →
  (∀ g, Gizmo s = Some g →
     ∃ gd, GetGizmoData (world s) g = Some gd ∧ gz_type gd ≠ CurrentTransformation s) →
  let w1 := match Gizmo s with Some g => DestroyActor g (world s) | None => world s end in
  SetGizmo s
  = if HasWorld (cfg s) then
      match GizmoClassFor (cfg s) (CurrentTransformation s) with
      | Some ty => set_Gizmo (Some (SpawnGizmo ty w1).1)
                     (set_world (SpawnGizmo ty w1).2 (set_world w1 s))
      | None => set_world w1 s
      end
    else set_world w1 s.
Proof.
  intros Hsel Hg. unfold SetGizmo.
  rewrite bool_decide_true by (destruct (SelectedComponents s); [done|simpl; lia]).
  destruct (Gizmo s) as [g|] eqn:HG.
  - destruct (Hg g eq_refl) as (gd & Hgd & Hty). rewrite Hgd. simpl.
    rewrite bool_decide_false by congruence.
    change (cfg (set_world ?w s)) with (cfg s).
    destruct (HasWorld (cfg s)); [|done].
    rewrite GetGizmoClass_current. simpl.
    destruct (GizmoClassFor _ _) as [ty|]; [|done].
    by destruct (SpawnGizmo ty (DestroyActor g (world s))).
  - destruct (HasWorld (cfg s)); [|by destruct s].
    rewrite GetGizmoClass_current.
    destruct (GizmoClassFor _ _) as [ty|]; [|by destruct s].
    destruct (SpawnGizmo ty (world s)) eqn:Hsp. simpl. by destruct s.
Qed.

(** The same when the pointer may also name an object that reports no
    kind at all. *)
Lemma SetGizmo_other_kind s :
  SelectedComponents s ≠ [] →
  (∀ g, Gizmo s = Some g →
     gz_type <$> GetGizmoData (world s) g ≠ Some (CurrentTransformation s)) →
  let w1 := match Gizmo s with Some g => DestroyActor g (world s) | None => world s end in
  SetGizmo s
  = if HasWorld (cfg s) then
      match GizmoClassFor (cfg s) (CurrentTransformation s) with
      | Some ty => set_Gizmo (Some (SpawnGizmo ty w1).1)
                     (set_world (SpawnGizmo ty w1).2 (set_world w1 s))
      | None => set_world w1 s
      end
    else set_world w1 s.
Proof.
  intros Hsel Hg. unfold SetGizmo.
  rewrite bool_decide_true by (destruct (SelectedComponents s); [done|simpl; lia]).
  destruct (Gizmo s) as [g|] eqn:HG.
  - rewrite bool_decide_false by (by apply Hg).
    change (cfg (set_world ?w s)) with (cfg s).
    destruct (HasWorld (cfg s)); [|done].
    rewrite GetGizmoClass_current. simpl.
    destruct (GizmoClassFor _ _) as [ty|]; [|done].
    by destruct (SpawnGizmo ty (DestroyActor g (world s))).
  - destruct (HasWorld (cfg s)); [|by destruct s].
    rewrite GetGizmoClass_current.
    destruct (GizmoClassFor _ _) as [ty|]; [|by destruct s].
    destruct (SpawnGizmo ty (world s)) eqn:Hsp. simpl. by destruct s.
Qed.

(** [SetGizmo] when something is selected and the pointer names a gizmo
    of the current kind: nothing to do. *)
Lemma SetGizmo_same_kind s g :
  SelectedComponents s ≠ [] →
  Gizmo s = Some g →
  gz_type <$> GetGizmoData (world s) g = Some (CurrentTransformation s) →
  SetGizmo s = s.
Proof.
  intros Hsel HG Hty. unfold SetGizmo.
  rewrite bool_decide_true by (destruct (SelectedComponents s); [done|simpl; lia]).
  rewrite HG. by rewrite bool_decide_true.
Qed.

Lemma actor_flag_valid_alter_gizmo f g w (a : Actor) :
  actor_flag a_valid (alter_gizmo f g w) a = actor_flag a_valid w a.
Proof.
  unfold actor_flag, alter_gizmo. simpl. destruct (decide (a = g)) as [->|Hne].
  - rewrite lookup_alter_eq. by destruct (actors w !! g).
  - by rewrite lookup_alter_ne.
Qed.

(** ** Change of mode *)

Lemma owners_of_spec w l :
  if bool_decide (None ∈ l) then owners_of w l = NullDereference
  else owners_of w l = Done ((λ c : Ptr, c ≫= GetOwner w) <$> l).
Proof.
  induction l as [|c l IH].
  { case_bool_decide as Hin; [by apply elem_of_nil in Hin|done]. }
  destruct c as [k|]; cbn [owners_of].
  - case_bool_decide as Hin; case_bool_decide as Hin'; rewrite IH; try done.
    + exfalso. apply Hin'. by right.
    + exfalso. apply elem_of_cons in Hin' as [?|?]; done.
  - clear IH. case_bool_decide as Hin; [done|]. exfalso. apply Hin. left.
Qed.

(** [accepted] and the two list functions read the settings, the owners
    and the roots, and nothing else of a state. *)
Lemma select_all_agree s s' l cs :
  cfg s' = cfg s → (∀ k, GetOwner (world s') k = GetOwner (world s) k) →
  select_all s' l cs = select_all s l cs.
Proof.
  intros Hc Ho. unfold select_all. rewrite Hc. apply foldl_agree. intros l' c.
  unfold accepted. destruct c as [k|]; [|done]. by rewrite Hc, Ho.
Qed.

Lemma select_all_actors_agree s s' l (acs : list (option Actor)) :
  cfg s' = cfg s → (∀ a, GetRootComponent (world s') a = GetRootComponent (world s) a) →
  select_all_actors s' l acs = select_all_actors s l acs.
Proof.
  intros Hc Hr. unfold select_all_actors. rewrite Hc. apply foldl_agree. intros l' a.
  unfold accepted_actor. destruct a as [k|]; [|done]. simpl. by rewrite Hc, Hr.
Qed.

Lemma select_all_none s cs : ∀ l,
  Forall (λ c, accepted s c = false) cs → select_all s l cs = l.
Proof.
  unfold select_all. induction cs as [|c cs IH]; intros l Hall; [done|].
  apply Forall_cons in Hall as [Hc Hall]. simpl. rewrite Hc. by apply IH.
Qed.

Lemma select_all_actors_none s (acs : list (option Actor)) : ∀ l,
  Forall (λ a, accepted_actor s a = false) acs → select_all_actors s l acs = l.
Proof.
  unfold select_all_actors. induction acs as [|a acs IH]; intros l Hall; [done|].
  apply Forall_cons in Hall as [Ha Hall]. simpl. rewrite Ha. by apply IH.
Qed.

Lemma sel_frame_roots s s' a :
  sel_frame s s' → GetRootComponent (world s') a = GetRootComponent (world s) a.
Proof. by intros (_ & _ & _ & _ & _ & _ & _ & _ & _ & _ & _ & _ & _ & ?). Qed.

Lemma sel_frame_owners s s' k :
  sel_frame s s' → GetOwner (world s') k = GetOwner (world s) k.
Proof. by intros (_ & _ & _ & _ & _ & _ & _ & _ & _ & _ & ? & _). Qed.

(** The loop of [SelectMultipleActors] in append mode, on the list. *)
Lemma SelectMultipleActors_loop_list (acs : list (option Actor)) : ∀ (v : bool) s,
  let r := foldl SelectMultipleActors_step (true, v, s) acs in
  sel_frame s r.2 ∧
  SelectedComponents r.2 = select_all_actors s (SelectedComponents s) acs.
Proof.
  induction acs as [|a acs IH]; intros v s; [by split; [apply sel_frame_refl|]|].
  cbn [foldl]. rewrite SelectMultipleActors_step_accepted.
  unfold select_all_actors. cbn [foldl].
  destruct (accepted_actor s a) eqn:Ha; [|apply IH].
  destruct (AddComponent_Internal_list s (a ≫= GetRootComponent (world s))) as [Hfr Hl].
  destruct (IH true (AddComponent_Internal (a ≫= GetRootComponent (world s)) s)) as [Hfr' Hl'].
  split; [by eapply sel_frame_trans|].
  rewrite Hl', Hl. apply select_all_actors_agree; [by apply sel_frame_cfg|].
  intros a'. by apply sel_frame_roots.
Qed.

Lemma SelectMultipleActors_clear_first (acs : list (option Actor)) : ∀ s,
  Exists (λ a, accepted_actor s a = true) acs →
  foldl SelectMultipleActors_step (false, false, s) acs
  = foldl SelectMultipleActors_step
      (true, false, (DeselectAll (DeselectAll_default (cfg s)) s).2) acs.
Proof.
  induction acs as [|a acs IH]; intros s Hex; [by apply Exists_nil in Hex|].
  destruct (DeselectAll_spec (DeselectAll_default (cfg s)) s) as (_ & Hfr & _).
  cbn [foldl]. rewrite !SelectMultipleActors_step_accepted.
  rewrite (accepted_actor_frame _ _ a Hfr).
  destruct (accepted_actor s a) eqn:Ha; [done|].
  apply IH. apply Exists_cons in Hex as [Hex|Hex]; [congruence|done].
Qed.

(** The selection after the two functions that select a list, started
    on an empty selection: appending and replacing are the same. *)
Lemma SelectMultipleComponents_from_empty cs b s :
  SelectedComponents s = [] →
  SelectedComponents (SelectMultipleComponents cs b s) = select_all s [] cs.
Proof.
  intros Hnil.
  assert (SelectedComponents (SelectMultipleComponents cs true s) = select_all s [] cs) as Ht.
  { destruct (SelectMultipleComponents_append_list cs s) as [_ ->]. by rewrite Hnil. }
  destruct b; [done|].
  destruct (decide (Exists (λ c, accepted s c = true) cs)) as [Hex|Hno].
  - unfold SelectMultipleComponents. rewrite SelectMultipleComponents_clear_first by done.
    destruct (DeselectAll_spec (DeselectAll_default (cfg s)) s) as (_ & Hfr & Hnil' & _).
    set (s0 := (DeselectAll (DeselectAll_default (cfg s)) s).2) in *.
    destruct (SelectMultipleComponents_append_list cs s0) as [_ Hl].
    unfold SelectMultipleComponents in Hl. rewrite Hl, Hnil'. by apply select_all_frame.
  - assert (Forall (λ c, accepted s c = false) cs) as Hall.
    { apply Forall_forall. intros c Hc. destruct (accepted s c) eqn:Ha; [|done].
      exfalso. apply Hno, Exists_exists. eauto. }
    unfold SelectMultipleComponents. rewrite SelectMultipleComponents_rejected by done.
    by rewrite select_all_none.
Qed.

Lemma SelectMultipleActors_from_empty (acs : list (option Actor)) b s :
  SelectedComponents s = [] →
  SelectedComponents (SelectMultipleActors acs b s) = select_all_actors s [] acs.
Proof.
  intros Hnil.
  assert (∀ s, SelectedComponents s = [] →
            SelectedComponents (SelectMultipleActors acs true s)
            = select_all_actors s [] acs) as Ht.
  { clear s Hnil. intros s Hnil. unfold SelectMultipleActors.
    destruct (SelectMultipleActors_loop_list acs false s) as [Hfr Hl].
    destruct (foldl SelectMultipleActors_step _ _) as [[b' v] s1]. simpl in *.
    rewrite Hnil in Hl. destruct v; [|done].
    by destruct (UpdateGizmoPlacement_spec s1) as (_ & -> & _). }
  destruct b; [by apply Ht|].
  destruct (decide (Exists (λ a, accepted_actor s a = true) acs)) as [Hex|Hno].
  - destruct (DeselectAll_spec (DeselectAll_default (cfg s)) s) as (_ & Hfr & Hnil' & _).
    specialize (Ht _ Hnil'). unfold SelectMultipleActors in *.
    rewrite SelectMultipleActors_clear_first by done. rewrite Ht.
    apply select_all_actors_agree; [by apply sel_frame_cfg|].
    intros a. by apply sel_frame_roots.
  - assert (Forall (λ a, accepted_actor s a = false) acs) as Hall.
    { apply Forall_forall. intros a Ha. destruct (accepted_actor s a) eqn:Hacc; [|done].
      exfalso. apply Hno, Exists_exists. eauto. }
    unfold SelectMultipleActors. rewrite SelectMultipleActors_rejected by done.
    by rewrite select_all_actors_none.
Qed.

(** ** Cloning and selecting *)





(** ** The notifications, read off the objects *)

Lemma GetUFocusable_notified s (k : nat) :
  GetUFocusable s (Some k) = notified (world s) (bComponentBased s) k.
Proof. done. Qed.

Lemma SelectEvents_notifications s (k : nat) :
  SelectEvents s (Some k) = focus_notifications (world s) (bComponentBased s) k.
Proof. done. Qed.

Lemma DeselectEvents_notifications s (k : nat) :
  DeselectEvents s (Some k) = unfocus_notifications (world s) (bComponentBased s) k.
Proof. done. Qed.

Lemma DeselectAllEvents_notifications s l :
  DeselectAllEvents s l = omap id l ≫= unfocus_notifications (world s) (bComponentBased s).
Proof.
  induction l as [|x l IH]; [done|]. destruct x as [k|]; [|exact IH].
  change (DeselectAllEvents s (Some k :: l))
    with (DeselectEvents s (Some k) ++ DeselectAllEvents s l).
  by rewrite IH.
Qed.

(** ** The resync poll, step by step *)

Lemma sync_requests_messages (log : list (Event F)) :
  sync_requests (messages log) = sync_requests log.
Proof.
  unfold sync_requests, messages. f_equal. rewrite list_filter_filter.
  apply list_filter_iff. intros e. split; [by intros [? _]|].
  intros He. split; [done|]. by destruct e as [| | | | | |r|].
Qed.

Lemma proxy_step_accepted s i c :
  OwnerRole (cfg s) ≠ ROLE_Authority → accepted (proxy_step s i) c = accepted s c.
Proof.
  intros Hrole. destruct i as [cs|]; simpl.
  - destruct (MulticastSetSelectedComponents_Implementation_spec cs s) as (Hfr & _).
    rewrite <- (accepted_frame s _ c Hfr).
    unfold MulticastSetSelectedComponents_Implementation.
    by repeat case_match.
  - unfold ResyncSelection_timer, ResyncSelection, ServerSyncSelectedComponents, call_server,
      HasAuthority.
    destruct (ResyncSelectionTimerHandle s); [|done].
    destruct (bResyncSelection s); [|done]. simpl. by rewrite bool_decide_false.
Qed.

Lemma proxy_step_Broadcast cs s :
  let s' := proxy_step s (Broadcast cs) in
  SelectedComponents s' = select_all s [] cs ∧
  bResyncSelection s' = negb (bool_decide (length cs = length (select_all s [] cs))) ∧
  (bResyncSelection s' = false ↔ NoDup cs ∧ Forall (λ c, accepted s c = true) cs) ∧
  (bResyncSelection s' = false → SelectedComponents s' = cs) ∧
  ResyncSelectionTimerHandle s'
    = ResyncSelectionTimerHandle s || (bResyncSelection s' && HasWorld (cfg s)) ∧
  sync_requests (out s') = sync_requests (out s).
Proof.
  intros s'. subst s'. simpl.
  destruct (MulticastSetSelectedComponents_Implementation_spec cs s)
    as (_ & _ & _ & _ & _ & Hflag & Htimer & _).
  rewrite MulticastSetSelectedComponents_Implementation_list in Hflag.
  split_and!; [apply MulticastSetSelectedComponents_Implementation_list|done| |
               apply in_sync_selection|done|].
  - rewrite Hflag, negb_false_iff, bool_decide_eq_true. split.
    + intros Hlen. symmetry in Hlen.
      by apply (select_all_full s cs []) in Hlen as (? & ? & _).
    + intros [Hnd Hall]. symmetry. apply (select_all_full s cs []).
      split_and!; [done|done|]. intros c _. apply not_elem_of_nil.
  - rewrite <- sync_requests_messages,
      MulticastSetSelectedComponents_Implementation_messages.
    apply sync_requests_messages.
Qed.

Lemma sel_frame_session s s' : sel_frame s s' → same_session s s'.
Proof. intros (? & ? & ? & ? & ? & ? & ? & ? & ? & ? & _). by repeat split. Qed.

End Auxiliary.

(** * The properties of the specification *)

Section Specification.
Context {F : Type} `{!Scalar F}.
Implicit Types (s : State F) (w : World) (c : Ptr) (l : list Ptr).

(** ** No duplicates in the selection *)

(** Whatever sequence of select and deselect operations is run, a
    selection without duplicates stays without duplicates: adding a
    component that is present never creates a second entry.  When the
    references are valid (the entries are not null, and each actor that is
    selected has a root component), the selection-change events balance
    the length of the selection.  The second part needs its premises: an
    actor without a root component puts a null pointer into the selection,
    which is shown on a run at the end of this file. *)
Lemma selection_set_invariant s ops :
  NoDup (SelectedComponents s) →
  NoDup (SelectedComponents (run_ops s ops)) ∧
  (Forall is_Some (SelectedComponents s) →
   length (SelectedComponents s) + removed (out s) = added (out s) →
   Forall (op_valid (world s)) ops →
   Forall is_Some (SelectedComponents (run_ops s ops)) ∧
   length (SelectedComponents (run_ops s ops)) + removed (out (run_ops s ops))
     = added (out (run_ops s ops))).
Proof.
  intros Hnd. split.
  - assert (rtc (sel_step false) s (run_ops s ops)) as Hsteps
      by (by apply steps_run_ops).
    induction Hsteps as [|s1 s2 s3 Hstep _ IH]; [done|].
    eauto using sel_step_NoDup.
  - intros Hsome Hbal Hv.
    assert (rtc (sel_step true) s (run_ops s ops)) as Hsteps
      by (by apply steps_run_ops).
    clear Hnd Hv. induction Hsteps as [|s1 s2 s3 Hstep _ IH]; [done|].
    destruct (sel_step_balance _ _ Hstep Hsome Hbal). auto.
Qed.

(** ** Re-selecting a member (C4) *)

(** C4, as the code has it.  Let an object be in the selection, which
    holds no reference twice.  When [ShouldSelect] accepts it, selecting
    it again with append and the toggle policy removes it and fires its
    unfocus notification; selecting
    it again without append first clears the whole selection, firing the
    unfocus notification of every prior member in order, and then adds it:
    the selection is that one object, and its focus notification is fired
    last.  When [ShouldSelect] rejects it, either call returns at once and
    changes nothing.  The notifications are those of [notified]: the part
    itself in part-based mode and its owner otherwise is called when it
    implements [UFocusableObject], and the selection-change event follows
    in any case. *)
Theorem SelectComponent_reselect s (k : nat) :
  NoDup (SelectedComponents s) →
  Some k ∈ SelectedComponents s →
  let w := world s in
  let partBased := bComponentBased s in
  if ShouldSelect (cfg s) (GetOwner w k) (Some k) then
    (bToggleSelectedInMultiSelection (cfg s) = true →
       (Some k ∉ SelectedComponents (SelectComponent (Some k) true s)) ∧
       (∃ i, SelectedComponents s !! i = Some (Some k) ∧
             SelectedComponents (SelectComponent (Some k) true s)
               = delete i (SelectedComponents s)) ∧
       out (SelectComponent (Some k) true s) = out s ++ unfocus_notifications w partBased k ∧
       (∀ o, notified w partBased k = Some o →
             Unfocus o (Some k) partBased ∈ out (SelectComponent (Some k) true s))) ∧
    (SelectedComponents (SelectComponent (Some k) false s) = [Some k] ∧
     out (SelectComponent (Some k) false s)
       = out s ++ (omap id (SelectedComponents s) ≫= unfocus_notifications w partBased)
               ++ focus_notifications w partBased k ∧
     (∀ k' o, Some k' ∈ SelectedComponents s → notified w partBased k' = Some o →
              Unfocus o (Some k') partBased ∈ out (SelectComponent (Some k) false s)) ∧
     (∀ o, notified w partBased k = Some o →
           last (out (SelectComponent (Some k) false s))
             = Some (OnComponentSelectionChange (Some k) true true) ∧
           Focus o (Some k) partBased ∈ out (SelectComponent (Some k) false s)))
  else
    SelectComponent (Some k) true s = s ∧ SelectComponent (Some k) false s = s.
Proof.
  intros Hnd Hin w partBased.
  destruct (ShouldSelect (cfg s) (GetOwner w k) (Some k)) eqn:Hsel;
    [|unfold SelectComponent; fold w; by rewrite Hsel].
  split.
  - intros Ht. destruct (Find_is_Some _ _ Hin) as [i Hi].
    destruct (SelectComponent_append s k Hsel) as (_ & -> & ->).
    destruct (AddComponent_Internal_toggle s (Some k) i Hi Ht) as (_ & -> & ->).
    rewrite DeselectEvents_notifications. fold w partBased.
    apply Find_Some in Hi. split_and!; [|by exists i|done|].
    + rewrite (delete_Permutation _ _ _ Hi) in Hnd. by apply NoDup_cons in Hnd as [? _].
    + intros o Ho. apply elem_of_app. right. unfold unfocus_notifications.
      rewrite Ho. left.
  - destruct (SelectComponent_replace s k Hsel) as (_ & -> & ->).
    rewrite DeselectAllEvents_notifications, SelectEvents_notifications. fold w partBased.
    split_and!; [done|done| |].
    + intros k' o Hk' Ho. apply elem_of_app. right. apply elem_of_app. left.
      apply list_elem_of_bind. exists k'. split.
      * unfold unfocus_notifications. rewrite Ho. left.
      * apply list_elem_of_omap. by exists (Some k').
    + intros o Ho. unfold focus_notifications. rewrite Ho. split.
      * by rewrite !last_app.
      * apply elem_of_app. right. apply elem_of_app. right. left.
Qed.

(** ** A miss of the replicated trace on the authority (C5) *)

(** C5 fails on one path.  On the authority, the three replicated mouse
    traces hand the outcome of the local trace to
    [ReplicateServerTraceResults], which acts only when the owner has no
    authority: after a trace that hits nothing the call returns and the
    state is exactly what it was, with or without append.  The selection is not emptied and
    nothing is sent to the other participants.  (The local mouse traces,
    the replicated traces of a proxy and the handlers of the trace
    requests do deselect all on such a miss: see
    [MouseTraceByObjectTypes_miss],
    [ReplicatedMouseTraceByObjectTypes_proxy_miss] and
    [ServerTraceBy_Implementation_miss].) *)
Theorem replicated_trace_miss_on_authority s TraceDistance CollisionChannels CollisionChannel
    ProfileName bAppendToList :
  OwnerRole (cfg s) = ROLE_Authority →
  (∀ q st en ig, (LineTraceMulti (cfg s) q st en ig).1 = false) →
  ReplicatedMouseTraceByObjectTypes TraceDistance CollisionChannels bAppendToList s = Done s ∧
  ReplicatedMouseTraceByChannel TraceDistance CollisionChannel bAppendToList s = Done s ∧
  ReplicatedMouseTraceByProfile TraceDistance ProfileName bAppendToList s = Done s.
Proof.
  intros Hrole Hmiss.
  unfold ReplicatedMouseTraceByObjectTypes, ReplicatedMouseTraceByChannel,
    ReplicatedMouseTraceByProfile, ReplicatedMouseTraceBy, TraceByObjectTypes.
  destruct (GetMouseStartEndPoints TraceDistance s) as [[st en]|]; [|done].
  rewrite !TraceBy_miss by done. rewrite !bool_decide_true by done.
  unfold ReplicateServerTraceResults, HasAuthority. by rewrite bool_decide_true.
Qed.

(** ** The value returned by the mouse traces (C10) *)

(** C10.  [MouseTraceByChannel] returns false for every input.  When the
    mouse can be deprojected and the trace succeeds, it returns false
    together with the state the successful trace left (the selection made,
    or the gizmo domain engaged).  [MouseTraceByObjectTypes] and
    [MouseTraceByProfile] return the result of their trace. *)
Theorem MouseTraceByChannel_returns_false s TraceDistance TraceChannel CollisionChannels
    ProfileName IgnoredActors bAppendToList :
  (MouseTraceByChannel TraceDistance TraceChannel IgnoredActors bAppendToList s).1 = false ∧
  match GetMouseStartEndPoints TraceDistance s with
  | Some (start, end_) =>
      (if (TraceByChannel start end_ TraceChannel IgnoredActors bAppendToList s).1
       then MouseTraceByChannel TraceDistance TraceChannel IgnoredActors bAppendToList s
            = (false, (TraceByChannel start end_ TraceChannel IgnoredActors bAppendToList s).2)
       else True) ∧
      (MouseTraceByObjectTypes TraceDistance CollisionChannels IgnoredActors bAppendToList s).1
        = (TraceByObjectTypes start end_ CollisionChannels IgnoredActors bAppendToList s).1 ∧
      (MouseTraceByProfile TraceDistance ProfileName IgnoredActors bAppendToList s).1
        = (TraceByProfile start end_ ProfileName IgnoredActors bAppendToList s).1
  | None =>
      (MouseTraceByObjectTypes TraceDistance CollisionChannels IgnoredActors bAppendToList s).1
        = false ∧
      (MouseTraceByProfile TraceDistance ProfileName IgnoredActors bAppendToList s).1 = false
  end.
Proof.
  unfold MouseTraceByChannel, MouseTraceByObjectTypes, MouseTraceByProfile.
  destruct (GetMouseStartEndPoints TraceDistance s) as [[start end_]|]; [|done].
  destruct (TraceByChannel _ _ _ _ _ _) as [ok1 s1].
  destruct (TraceByObjectTypes _ _ _ _ _ _) as [ok2 s2].
  destruct (TraceByProfile _ _ _ _ _ _) as [ok3 s3].
  simpl. by destruct ok1.
Qed.

(** ** Resync on mismatch (C2) *)

Lemma sync_requests_app (l1 l2 : list (Event F)) :
  sync_requests (l1 ++ l2) = sync_requests l1 + sync_requests l2.
Proof. unfold sync_requests. by rewrite filter_app, length_app. Qed.

Lemma intervals_requests n : ∀ s,
  OwnerRole (cfg s) ≠ ROLE_Authority →
  (bResyncSelection s = true → ResyncSelectionTimerHandle s = true) →
  sync_requests (out (proxy_run s (replicate n TimerInterval)))
    = sync_requests (out s) + (if bResyncSelection s then n else 0).
Proof.
  induction n as [|n IH]; intros s Hrole Hinv.
  { simpl. destruct (bResyncSelection s); lia. }
  destruct (ResyncSelection_timer_spec s Hrole) as (Hcfg & _ & Hb & Ht & Ho).
  change (proxy_run s (replicate (S n) TimerInterval))
    with (proxy_run (ResyncSelection_timer s) (replicate n TimerInterval)).
  rewrite IH.
  - rewrite Hb, Ho, sync_requests_app.
    assert (sync_requests [LogWarning ResyncingSelection;
                           SendToServer ReqSyncSelectedComponents : Event F] = 1) as H1 by done.
    assert (sync_requests [LogWarning ResyncingFinished : Event F] = 0) as H2 by done.
    assert (sync_requests ([] : list (Event F)) = 0) as H3 by done.
    destruct (bResyncSelection s); [rewrite Hinv by done; lia|].
    destruct (ResyncSelectionTimerHandle s); lia.
  - by rewrite Hcfg.
  - rewrite Hb, Ht. intros Hflag. by rewrite Hinv, Hflag.
Qed.

(** C2, as the code has it.  On a proxy with a world:
    - the handler of a selection broadcast selects the references that
      are resolved and accepted by [ShouldSelect], as [select_all] lists
      them, and sets the out-of-sync flag to the comparison of the number
      of references received with the number selected: the flag is clear
      exactly when every reference is resolved, accepted and carried once,
      and the selection is then the list received; when the flag is set
      the resync timer runs afterwards; the handler sends nothing and
      never stops the timer;
    - each interval of the running timer with the flag set sends one
      request for the authority's selection and keeps the timer running;
      the first interval with the flag clear stops the timer and sends
      nothing, and a stopped timer does nothing;
    - so, when the timer runs whenever the proxy is out of sync, as it
      does from the constructor on, it does so after every sequence of
      broadcasts and intervals, and [n] intervals in a row send [n]
      requests while the proxy is out of sync and none otherwise;
    - and a poll from a broadcast that does not resolve to one that does:
      [n] intervals send [n] requests; the broadcast with matching counts
      clears the flag and leaves the timer running; no interval after it
      sends anything, and the first of them stops the timer. *)
Theorem resync_poll s :
  OwnerRole (cfg s) ≠ ROLE_Authority →
  HasWorld (cfg s) = true →
  (∀ Components,
     let s' := proxy_step s (Broadcast Components) in
     SelectedComponents s' = select_all s [] Components ∧
     bResyncSelection s'
       = negb (bool_decide (length Components = length (select_all s [] Components))) ∧
     (bResyncSelection s' = false ↔
      NoDup Components ∧ Forall (λ c, accepted s c = true) Components) ∧
     (bResyncSelection s' = false → SelectedComponents s' = Components) ∧
     ResyncSelectionTimerHandle s' = ResyncSelectionTimerHandle s || bResyncSelection s' ∧
     sync_requests (out s') = sync_requests (out s)) ∧
  (let s' := proxy_step s TimerInterval in
   SelectedComponents s' = SelectedComponents s ∧
   bResyncSelection s' = bResyncSelection s ∧
   ResyncSelectionTimerHandle s' = ResyncSelectionTimerHandle s && bResyncSelection s ∧
   out s' = out s ++
     (if ResyncSelectionTimerHandle s then
        if bResyncSelection s
        then [LogWarning ResyncingSelection; SendToServer ReqSyncSelectedComponents]
        else [LogWarning ResyncingFinished]
      else [])) ∧
  (∀ inputs,
     (bResyncSelection s = true → ResyncSelectionTimerHandle s = true) →
     bResyncSelection (proxy_run s inputs) = true →
     ResyncSelectionTimerHandle (proxy_run s inputs) = true) ∧
  (∀ n,
     (bResyncSelection s = true → ResyncSelectionTimerHandle s = true) →
     sync_requests (out (proxy_run s (replicate n TimerInterval)))
       = sync_requests (out s) + (if bResyncSelection s then n else 0)) ∧
  (∀ Components Components' n m,
     ¬ (NoDup Components ∧ Forall (λ c, accepted s c = true) Components) →
     NoDup Components' → Forall (λ c, accepted s c = true) Components' →
     let s1 := proxy_run s (Broadcast Components :: replicate n TimerInterval) in
     let s2 := proxy_step s1 (Broadcast Components') in
     let s3 := proxy_run s2 (replicate (S m) TimerInterval) in
     (bResyncSelection s1 = true ∧ ResyncSelectionTimerHandle s1 = true ∧
      sync_requests (out s1) = sync_requests (out s) + n) ∧
     (bResyncSelection s2 = false ∧ SelectedComponents s2 = Components' ∧
      ResyncSelectionTimerHandle s2 = true ∧
      sync_requests (out s2) = sync_requests (out s1)) ∧
     (bResyncSelection s3 = false ∧ SelectedComponents s3 = Components' ∧
      ResyncSelectionTimerHandle s3 = false ∧
      sync_requests (out s3) = sync_requests (out s1))).
Proof.
  intros Hrole Hworld.
  assert (∀ s0 inputs, OwnerRole (cfg s0) ≠ ROLE_Authority → HasWorld (cfg s0) = true →
            cfg (proxy_run s0 inputs) = cfg s0 ∧
            (∀ c, accepted (proxy_run s0 inputs) c = accepted s0 c) ∧
            ((bResyncSelection s0 = true → ResyncSelectionTimerHandle s0 = true) →
             bResyncSelection (proxy_run s0 inputs) = true →
             ResyncSelectionTimerHandle (proxy_run s0 inputs) = true)) as Hrun.
  { intros s0 inputs. revert s0.
    induction inputs as [|i inputs IH]; intros s0 Hr Hw; simpl; [done|].
    destruct (IH (proxy_step s0 i)) as (Hcfg & Hacc & Ht);
      rewrite ?proxy_step_cfg by done; try done.
    split_and!; [by rewrite Hcfg, proxy_step_cfg
               |by intros c; rewrite Hacc, proxy_step_accepted|].
    intros Hi. apply Ht. destruct i as [cs|].
    - destruct (proxy_step_Broadcast cs s0) as (_ & _ & _ & _ & -> & _).
      intros ->. by rewrite Hw, orb_true_r.
    - simpl. destruct (ResyncSelection_timer_spec s0 Hr) as (_ & _ & -> & -> & _).
      intros Hb. by rewrite Hi, Hb. }
  assert (∀ s0 n, OwnerRole (cfg s0) ≠ ROLE_Authority →
            let s' := proxy_run s0 (replicate n TimerInterval) in
            bResyncSelection s' = bResyncSelection s0 ∧
            SelectedComponents s' = SelectedComponents s0 ∧
            (bResyncSelection s0 = true → ResyncSelectionTimerHandle s0 = true →
             ResyncSelectionTimerHandle s' = true) ∧
            (bResyncSelection s0 = false → 0 < n → ResyncSelectionTimerHandle s' = false))
    as Hidle.
  { intros s0 n. revert s0. induction n as [|n IH]; intros s0 Hr; simpl.
    { split_and!; try done. lia. }
    destruct (ResyncSelection_timer_spec s0 Hr) as (Hcfg & Hsel & Hb & Ht & _).
    destruct (IH (ResyncSelection_timer s0)) as (Hb' & Hsel' & Hon & Hoff);
      [by rewrite Hcfg|].
    split_and!; [congruence|congruence| |].
    - intros H1 H2. apply Hon; [congruence|]. by rewrite Ht, H1, H2.
    - intros H1 _. destruct n as [|n].
      + simpl. by rewrite Ht, H1, andb_false_r.
      + apply Hoff; [congruence|lia]. }
  split_and!.
  - intros cs. destruct (proxy_step_Broadcast cs s) as (? & ? & ? & ? & Ht & ?).
    split_and!; try done. by rewrite Ht, Hworld, andb_true_r.
  - simpl. by destruct (ResyncSelection_timer_spec s Hrole) as (_ & ? & ? & ? & ?).
  - intros inputs Hinv. by apply Hrun.
  - intros n Hinv. by apply intervals_requests.
  - intros cs cs' n m Hbad Hnd' Hall' s1 s2 s3.
    set (s0 := proxy_step s (Broadcast cs)).
    destruct (proxy_step_Broadcast cs s) as (_ & _ & Hiff & _ & Ht0 & Hr0). fold s0 in Hiff, Ht0, Hr0.
    assert (bResyncSelection s0 = true) as Hb0.
    { destruct (bResyncSelection s0); [done|]. destruct Hbad. by apply Hiff. }
    assert (ResyncSelectionTimerHandle s0 = true) as Hon0
      by (by rewrite Ht0, Hb0, Hworld, orb_true_r).
    assert (OwnerRole (cfg s0) ≠ ROLE_Authority) as Hrole0
      by (unfold s0; by rewrite proxy_step_cfg).
    assert (s1 = proxy_run s0 (replicate n TimerInterval)) as Hs1 by done.
    destruct (Hidle s0 n Hrole0) as (Hb1 & _ & Hon1 & _). rewrite <- Hs1 in Hb1, Hon1.
    assert (sync_requests (out s1) = sync_requests (out s) + n) as Hreq1.
    { rewrite Hs1, intervals_requests, Hb0, Hr0; [done|done|by intros _]. }
    assert (cfg s1 = cfg s ∧ ∀ c, accepted s1 c = accepted s c) as [Hcfg1 Hacc1].
    { destruct (Hrun s (Broadcast cs :: replicate n TimerInterval) Hrole Hworld)
        as (? & ? & _). done. }
    assert (OwnerRole (cfg s1) ≠ ROLE_Authority) as Hrole1 by (by rewrite Hcfg1).
    destruct (proxy_step_Broadcast cs' s1) as (_ & _ & Hiff2 & Hsel2 & Ht2 & Hr2).
    fold s2 in Hiff2, Hsel2, Ht2, Hr2.
    assert (bResyncSelection s2 = false) as Hb2.
    { apply Hiff2. split; [done|]. eapply Forall_impl; [exact Hall'|].
      intros c Hc. by rewrite Hacc1. }
    assert (ResyncSelectionTimerHandle s2 = true) as Hon2.
    { rewrite Ht2, Hon1; [done|congruence|done]. }
    assert (OwnerRole (cfg s2) ≠ ROLE_Authority) as Hrole2
      by (unfold s2; by rewrite proxy_step_cfg).
    destruct (Hidle s2 (S m) Hrole2) as (Hb3 & Hsel3 & _ & Hoff3). fold s3 in Hb3, Hsel3, Hoff3.
    split_and!; try done; try congruence.
    + by apply Hon1.
    + by apply Hsel2.
    + rewrite Hsel3. by apply Hsel2.
    + apply Hoff3; [done|lia].
    + unfold s3. rewrite intervals_requests, Hb2, Hr2; [lia|done|congruence].
Qed.

(** ** Part-based cloning on the network (C7) *)

(** C7.  In part-based mode the authority's handler of a clone request
    writes a warning to the log and returns: the resulting state differs
    from the given one in the log alone, so no clone is created (the
    object store is unchanged), the selection is unchanged, no clone waits
    for replication and the readiness timer is not started. *)
Theorem ServerCloneSelected_component_based s bSelectNewClones bAppendToList :
  bComponentBased s = true →
  ∃ s', ServerCloneSelected_Implementation bSelectNewClones bAppendToList s = Done s' ∧
    s' = emit (LogWarning ComponentCloningNotSupported) s ∧
    world s' = world s ∧
    SelectedComponents s' = SelectedComponents s ∧
    Gizmo s' = Gizmo s ∧
    UnreplicatedComponentClones s' = UnreplicatedComponentClones s ∧
    CheckUnrepTimerHandle s' = CheckUnrepTimerHandle s ∧
    out s' = out s ++ [LogWarning ComponentCloningNotSupported].
Proof.
  intros Hcb. unfold ServerCloneSelected_Implementation. rewrite Hcb.
  eexists. split; [done|]. repeat split.
Qed.

(** ** Reparenting of the clones (C6) *)

(** C6, as the code has it.  On a well-formed acyclic hierarchy
    [CloneComponents] returns: no walk runs out of steps or leaves the
    hierarchy.  The templates that are cloned are the references that
    are not null and have an owner, each clone is a new component, and
    each clone is attached by the rule of [attach_target]:
    - to the clone of its original parent when that parent was cloned
      (the latest clone, when it was cloned twice); a clone of the root,
      whose original parent is taken to be the root itself, is attached
      to the original root instead of to itself;
    - otherwise to the clone of the nearest ancestor of the original
      parent that was cloned, found by walking up the original hierarchy
      to the root of the owner, and to the original parent when the walk
      reaches the root.
    The originals are left as they are, the attachment graph after
    cloning is acyclic, and no clone is attached to itself. *)
Theorem CloneComponents_reparenting w depth Components :
  hierarchy w depth →
  (∀ t, Some t ∈ Components → is_Some (comps w !! t)) →
  ∃ tc w',
    CloneComponents_world Components w = Done (Some <$> tc.*2, w') ∧
    tc.*1 = omap (cloneable w) Components ∧
    NoDup tc.*2 ∧
    (∀ t k, (t, k) ∈ tc →
       comps w !! k = None ∧
       ∃ P target, original_parent w t = Some P ∧
         attach_target w (clone_map tc) k P target ∧
         GetAttachParent w' k = Some target ∧ target ≠ k) ∧
    extends w w' ∧
    acyclic w'.
Proof.
  intros Hh Hvalid.
  destruct (CloneComponents_world_spec w depth Components Hh Hvalid)
    as (tc & w' & Hrun & Htc & Hnd & Hext & Hdom & Hpairs).
  pose proof (cloned_rank_decreases w depth tc w' Hh Hnd Hext Hdom Hpairs) as Hrank.
  exists tc, w'. split_and!; try done.
  - intros t k Hin. destruct (Hpairs t k Hin) as (Hnone & _ & P & target & HP & Hat & Hk).
    split; [done|]. exists P, target. split_and!; try done.
    intros ->. specialize (Hrank k k Hk). lia.
  - by exists (cloned_rank w depth tc).
Qed.

(** ** The two accumulators (C8, C9) *)

(** C8.  Clearing the domain ends the session: the domain is none, the
    frame-level accumulator is the identity with zero scale, and the
    network delta is what it was; the same holds when the clearing
    arrives as a broadcast.  [ReplicateFinishTransform], the flush of the
    replication layer, resets the network delta whenever it returns, and
    it returns unless it runs on the authority for a player controller
    that is not local, without a gizmo and with a selected component that
    is movable or forced to be, where it stops on the null gizmo; no
    other operation of the component writes the network delta; the flush
    clears the
    domain first, so the delta it hands to [ServerApplyTransform] is the
    one the session had before the clearing, and on a proxy the flush
    returns and sends exactly the two requests.
    (The accumulation of the per-frame deltas
    in [TickComponent] is floating point arithmetic on the result of the
    gizmo and is not among the operations.) *)
Theorem ClearDomain_keeps_network_delta s :
  (CurrentDomain (ClearDomain s) = TD_None ∧
   AccumulatedDeltaTransform (ClearDomain s) = SetScale3D ZeroVector FTransform_Identity ∧
   NetworkDeltaTransform (ClearDomain s) = NetworkDeltaTransform s) ∧
  (∃ s', multicast_handler BcastClearDomain s = Done s' ∧
     AccumulatedDeltaTransform s' = SetScale3D ZeroVector FTransform_Identity ∧
     NetworkDeltaTransform s' = NetworkDeltaTransform s) ∧
  ((∀ s', ReplicateFinishTransform s = Done s' →
      NetworkDeltaTransform s' = SetScale3D ZeroVector FTransform_Identity) ∧
   (is_Some (Gizmo s) → ∃ s', ReplicateFinishTransform s = Done s') ∧
   (ReplicateFinishTransform s = NullDereference ↔
    HasAuthority s = true ∧
    OwnerIsPlayerController (cfg s) = true ∧ IsLocalController (cfg s) = false ∧
    Gizmo s = None ∧
    ∃ k, Some k ∈ SelectedComponents s ∧
         bForceMobility (cfg s) || comp_flag c_movable (world s) k = true) ∧
   ReplicateFinishTransform s ≠ Diverges ∧
   NetworkDeltaTransform (ServerClearDomain s) = NetworkDeltaTransform s ∧
   (HasAuthority s = false →
    ∃ s', ReplicateFinishTransform s = Done s' ∧
      out s' = out s ++ [SendToServer ReqClearDomain;
                         SendToServer (ReqApplyTransform (NetworkDeltaTransform s))])) ∧
  (∀ o s', o ≠ OpReplicateFinishTransform → run_operation s o = Done s' →
           NetworkDeltaTransform s' = NetworkDeltaTransform s).
Proof.
  assert (CurrentDomain (ClearDomain s) = TD_None ∧
          AccumulatedDeltaTransform (ClearDomain s) = SetScale3D ZeroVector FTransform_Identity ∧
          NetworkDeltaTransform (ClearDomain s) = NetworkDeltaTransform s) as Hclear.
  { unfold ClearDomain.
    destruct (SetDomain_accumulators TD_None
      (set_AccumulatedDeltaTransform (ResetDeltaTransform (AccumulatedDeltaTransform s)) s))
      as (-> & -> & ->). done. }
  split; [exact Hclear|].
  split; [exists (ClearDomain s); by destruct Hclear as (_ & ? & ?)|].
  split; [|intros o s'; apply run_operation_network].
  split; [|split; [|split; [apply ReplicateFinishTransform_crash|
    split; [apply ReplicateFinishTransform_crash|split; [apply ServerClearDomain_network|]]]]].
  - intros s'. unfold ReplicateFinishTransform.
    destruct (ServerApplyTransform _ _) as [s2| |]; [|done|done]. by intros [= <-].
  - intros [g Hg]. unfold ReplicateFinishTransform.
    assert (Gizmo (ServerClearDomain s) = Some g) as Hg1.
    { unfold ServerClearDomain, call_server, ServerClearDomain_Implementation,
        MulticastClearDomain, call_multicast, MulticastClearDomain_Implementation,
        ClearDomain, SetDomain.
      destruct (HasAuthority s); simpl; by rewrite Hg. }
    generalize dependent (ServerClearDomain s). intros s1 Hg1.
    unfold ServerApplyTransform, try_call_server, ServerApplyTransform_Implementation,
      MulticastApplyTransform, try_call_multicast, MulticastApplyTransform_Implementation.
    destruct (HasAuthority s1); [|by eexists].
    set (s2 := emit _ s1).
    destruct (OwnerIsPlayerController (cfg s2) && negb (IsLocalController (cfg s2)));
      [|by eexists].
    destruct (ApplyDeltaTransform_spec (NetworkDeltaTransform s1) s2) as [Hcrash Hok].
    destruct Hok as (s3 & -> & _); [|by eexists].
    rewrite Hcrash. subst s2. simpl. intros [Hn _]. congruence.
  - intros Hproxy.
    unfold ReplicateFinishTransform, ServerApplyTransform, ServerClearDomain, call_server,
      try_call_server.
    rewrite Hproxy. change (HasAuthority (emit ?e s)) with (HasAuthority s).
    rewrite Hproxy. eexists. split; [done|]. simpl. by rewrite <- app_assoc.
Qed.

(** C9, as the code has it.  Setting the transformation kind to the
    current kind returns at once and changes nothing, the accumulated
    delta included; setting another kind makes it current and resets the
    accumulated delta to the identity with zero scale. *)
Theorem SetTransformationType_accumulated s k :
  if bool_decide (CurrentTransformation s = k)
  then SetTransformationType k s = s
  else CurrentTransformation (SetTransformationType k s) = k ∧
       AccumulatedDeltaTransform (SetTransformationType k s)
         = SetScale3D ZeroVector FTransform_Identity.
Proof.
  unfold SetTransformationType. case_bool_decide; [done|].
  match goal with |- context [UpdateGizmoPlacement ?x] =>
    destruct (UpdateGizmoPlacement_spec x) as ((_ & -> & _ & _ & _ & -> & _) & _) end.
  done.
Qed.

End Specification.

(** * Further properties of the code *)

Section Further.
Context {F : Type} `{!Scalar F}.
Implicit Types (s : State F) (w : World) (c : Ptr) (l : list Ptr).

(** X1.  In every state the component reaches from its constructor by
    the operations, a gizmo exists only while something is selected; the
    same holds after a change of the space, after a change of the mode
    and after a local cloning.  And whenever [SetGizmo] leaves a gizmo,
    the selection is not empty: the reads of [SelectedComponents[0]] and
    [SelectedComponents.Last()] in [UpdateGizmoPlacement] are in bounds. *)
Theorem gizmo_only_with_selection (c0 : Config F) w os s :
  run_operations (UTransformerComponent c0 w) os = Done s →
  gizmo_needs_selection s ∧
  (∀ g, Gizmo (SetGizmo s) = Some g → SelectedComponents s ≠ []) ∧
  (∀ sp, gizmo_needs_selection (SetSpaceType sp s)) ∧
  (∀ b s', SetComponentBased b s = Done s' → gizmo_needs_selection s') ∧
  (∀ b1 b2 s', (CloneSelected b1 b2 s).2 = Done s' → gizmo_needs_selection s').
Proof.
  intros Hrun.
  assert (gizmo_needs_selection s) as Hs.
  { assert (gizmo_needs_selection (UTransformerComponent c0 w)) as H0 by done.
    revert Hrun H0. generalize (UTransformerComponent c0 w).
    induction os as [|o os IH]; intros s0 Hrun H0; simpl in Hrun; [by injection Hrun as <-|].
    destruct (run_operation s0 o) as [s1| |] eqn:Ho; try done.
    eapply IH; [done|]. by eapply run_operation_needs. }
  split_and!; [done| | | |].
  - intros g Hg Hnil. by rewrite SetGizmo_Gizmo_nil in Hg.
  - intros sp Hnil. unfold SetSpaceType. apply SetGizmo_Gizmo_nil.
    by destruct (SetGizmo_spec (set_cfg (set_CurrentSpaceType sp (cfg s)) s)) as (_ & <- & _).
  - intros b s'. unfold SetComponentBased.
    pose proof (DeselectAll_needs (DeselectAll_default (cfg s)) s) as H1.
    destruct (DeselectAll _ s) as [sel s1]. simpl in *.
    assert (gizmo_needs_selection (set_bComponentBased b s1)) as H2 by done.
    destruct b; simpl.
    + intros [= <-]. by apply SelectMultipleComponents_needs.
    + destruct (owners_of _ _) as [acs| |]; try done.
      intros [= <-]. by apply SelectMultipleActors_needs.
  - intros b1 b2 s'. unfold CloneSelected. simpl.
    destruct (CloneFromList _ _) as [[cl s1]| |] eqn:Hc; try done.
    apply CloneFromList_kept in Hc as [Hsel Hg]. intros [= <-].
    assert (gizmo_needs_selection s1) as H1 by (by eapply needs_kept).
    destruct b1; [by apply SelectMultipleComponents_needs|done].
Qed.

(** X2.  A selection broadcast leaves the participant in sync (the
    out-of-sync flag is clear) exactly when every reference it carries is
    resolved, accepted by [ShouldSelect] and carried once; the selection is
    then the list of the broadcast, in its order.  Otherwise the flag is
    set and, with a world, the resync timer runs. *)
Theorem selection_broadcast_in_sync cs s :
  let s' := MulticastSetSelectedComponents_Implementation cs s in
  (bResyncSelection s' = false ↔ NoDup cs ∧ Forall (λ c, accepted s c = true) cs) ∧
  (bResyncSelection s' = false → SelectedComponents s' = cs) ∧
  (bResyncSelection s' = true → HasWorld (cfg s) = true →
   ResyncSelectionTimerHandle s' = true).
Proof.
  intros s'.
  destruct (MulticastSetSelectedComponents_Implementation_spec cs s)
    as (_ & _ & _ & _ & _ & Hflag & Htimer & _).
  fold s' in Hflag, Htimer.
  pose proof (MulticastSetSelectedComponents_Implementation_list cs s) as Hsel.
  fold s' in Hsel.
  pose proof (select_all_full s cs []) as Hfull. simpl in Hfull.
  split_and!.
  - rewrite Hflag, Hsel, negb_false_iff, bool_decide_eq_true. split.
    + intros Hlen. symmetry in Hlen. by apply Hfull in Hlen as (Hall & Hnd & _).
    + intros [Hnd Hall]. symmetry. apply Hfull. split_and!; [done|done|].
      intros c _. apply not_elem_of_nil.
  - apply in_sync_selection.
  - intros Hset Hw. rewrite Htimer, Hset, Hw. apply orb_true_r.
Qed.

(** X3.  A selection broadcast overwrites what was selected: two
    participants whose [ShouldSelect] hooks and toggle policies agree end
    up with the same selection and the same out-of-sync flag, whatever
    each had selected before. *)
Theorem selection_broadcast_converges cs s1 s2 :
  (∀ c, accepted s1 c = accepted s2 c) →
  bToggleSelectedInMultiSelection (cfg s1) = bToggleSelectedInMultiSelection (cfg s2) →
  SelectedComponents (MulticastSetSelectedComponents_Implementation cs s1)
    = SelectedComponents (MulticastSetSelectedComponents_Implementation cs s2) ∧
  bResyncSelection (MulticastSetSelectedComponents_Implementation cs s1)
    = bResyncSelection (MulticastSetSelectedComponents_Implementation cs s2).
Proof.
  intros Hacc Htog.
  assert (SelectedComponents (MulticastSetSelectedComponents_Implementation cs s1)
          = SelectedComponents (MulticastSetSelectedComponents_Implementation cs s2)) as Heq.
  { rewrite !MulticastSetSelectedComponents_Implementation_list. unfold select_all.
    rewrite Htog. apply foldl_agree. intros l c. by rewrite Hacc. }
  split; [done|].
  destruct (MulticastSetSelectedComponents_Implementation_spec cs s1)
    as (_ & _ & _ & _ & _ & -> & _).
  destruct (MulticastSetSelectedComponents_Implementation_spec cs s2)
    as (_ & _ & _ & _ & _ & -> & _).
  by rewrite Heq.
Qed.

(** X4.  [SelectMultipleComponents] and [SelectMultipleActors] do
    nothing at all, also when they are to replace the selection, if the
    list is empty or holds only null and rejected references; if the list
    of components holds a reference that is accepted, replacing the
    selection by it is [DeselectAll] followed by appending it. *)
Theorem SelectMultipleComponents_replace cs (acs : list (option Actor)) s :
  (Forall (λ c, accepted s c = false) cs → ∀ b, SelectMultipleComponents cs b s = s) ∧
  (Forall (λ a, accepted_actor s a = false) acs → ∀ b, SelectMultipleActors acs b s = s) ∧
  (Exists (λ c, accepted s c = true) cs →
   SelectMultipleComponents cs false s
   = SelectMultipleComponents cs true (DeselectAll (DeselectAll_default (cfg s)) s).2).
Proof.
  split_and!.
  - intros Hall b. unfold SelectMultipleComponents.
    by rewrite SelectMultipleComponents_rejected.
  - intros Hall b. unfold SelectMultipleActors.
    by rewrite SelectMultipleActors_rejected.
  - intros Hex. unfold SelectMultipleComponents.
    by rewrite SelectMultipleComponents_clear_first.
Qed.

(** X5.  Selecting a component that is not selected, in append mode, and
    deselecting it again gives the selection back as it was.  The object
    to notify is the component itself in part-based mode and its owner
    otherwise: when that object implements [UFocusableObject] it is called
    with the focus and then with the loss of it, each call followed by
    the selection-change event; when it does not, the two selection-change
    events alone are fired.  The session and the replication state are
    not written. *)
Theorem select_deselect_round_trip s (k : nat) :
  Some k ∉ SelectedComponents s →
  accepted s (Some k) = true →
  let s' := DeselectComponent (Some k) (SelectComponent (Some k) true s) in
  let w := world s in
  let partBased := bComponentBased s in
  SelectedComponents s' = SelectedComponents s ∧
  out s' = out s ++ focus_notifications w partBased k ++ unfocus_notifications w partBased k ∧
  (∀ o, notified w partBased k = Some o →
     out s' = out s ++ [Focus o (Some k) partBased;
                        OnComponentSelectionChange (Some k) true true;
                        Unfocus o (Some k) partBased;
                        OnComponentSelectionChange (Some k) false true]) ∧
  (notified w partBased k = None →
     out s' = out s ++ [OnComponentSelectionChange (Some k) true false;
                        OnComponentSelectionChange (Some k) false false]) ∧
  same_session s s'.
Proof.
  intros Hnin Hacc s' w partBased.
  destruct (SelectComponent_append s k Hacc) as (Hfr & Hs & Ho).
  destruct (AddComponent_Internal_new s (Some k) Hnin) as (_ & Hs1 & Ho1).
  rewrite Hs1 in Hs. rewrite Ho1 in Ho.
  destruct (DeselectComponent_present (SelectComponent (Some k) true s) k
              (length (SelectedComponents s))) as (Hfr2 & Hs2 & Ho2).
  { rewrite Hs. by apply Find_app_new. }
  assert (out s' = out s ++ focus_notifications w partBased k
                         ++ unfocus_notifications w partBased k) as Hout.
  { subst s'. rewrite Ho2, Ho, (DeselectEvents_frame _ _ _ Hfr), <- app_assoc.
    by rewrite SelectEvents_notifications, DeselectEvents_notifications. }
  split_and!; [subst s'; by rewrite Hs2, Hs, delete_app_last|done| | |].
  - intros o Hn. rewrite Hout. unfold focus_notifications, unfocus_notifications.
    by rewrite Hn.
  - intros Hn. rewrite Hout. unfold focus_notifications, unfocus_notifications.
    by rewrite Hn.
  - apply sel_frame_session. by eapply sel_frame_trans.
Qed.



(** X8.  No sequence of select and deselect calls touches the transform
    session or the replication state: the settings, the transformation
    kind, the domain, the mode, the two accumulated deltas, the
    out-of-sync flag, the list of pending clones and the two timers stay
    as they are. *)
Theorem selection_leaves_session_alone s ops : same_session s (run_ops s ops).
Proof. by apply sel_frame_session, (sel_steps_frame false), steps_run_ops. Qed.


(** X10.  One interval of the readiness poll on the authority.  The
    list of pending clones shrinks by the number of clones found ready.
    When that is all of them (an empty list included), the list is empty
    afterwards, the timer is stopped and the selection is broadcast once;
    otherwise the timer stays, nothing is sent and the selection is as it
    was. *)
Theorem readiness_poll_interval t s :
  HasAuthority s = true →
  CheckUnrepTimerHandle s = true →
  let ready := filter (λ c, clone_replicated s t c = true) (UnreplicatedComponentClones s) in
  let s' := CheckUnreplicatedActors_timer t s in
  length (UnreplicatedComponentClones s')
    = length (UnreplicatedComponentClones s) - length ready ∧
  if bool_decide (length ready = length (UnreplicatedComponentClones s)) then
    UnreplicatedComponentClones s' = [] ∧
    CheckUnrepTimerHandle s' = false ∧
    messages (out s')
      = messages (out s) ++ [SendToAll (BcastSetSelectedComponents (SelectedComponents s))]
  else
    CheckUnrepTimerHandle s' = true ∧ out s' = out s ∧
    SelectedComponents s' = SelectedComponents s.
Proof.
  intros Ha Ht ready s'. subst s'. unfold CheckUnreplicatedActors_timer. rewrite Ht.
  destruct (CheckUnreplicatedActors_spec t s) as [Hperm Hcase]. fold ready in Hperm, Hcase.
  split; [by rewrite Hperm, length_drop|].
  case_bool_decide as Hall.
  - destruct Hcase as [Htimer Heq]. split_and!; [|done|].
    + apply Permutation_nil_r. rewrite Hperm, Hall. by rewrite drop_all.
    + rewrite Heq. unfold MulticastSetSelectedComponents.
      rewrite call_multicast_authority by done.
      by rewrite MulticastSetSelectedComponents_Implementation_messages,
        messages_emit_broadcast.
  - destruct Hcase as (-> & ? & ?). done.
Qed.

(** X11.  [FilterHits] does nothing unless non-replicated objects are to
    be ignored.  When they are, it keeps the hits in their order, and it
    keeps a hit exactly when the actor hit is a gizmo, or the actor hit is
    supported for networking and, in part-based mode, the component hit
    is valid and supported for networking as well.  It changes the log
    alone, to which it adds no message for the network but a warning for
    every hit it removes that has an actor and a valid component, and
    nothing else. *)
Theorem FilterHits_keeps_supported hits s :
  let r := FilterHits hits s in
  let kept (h : FHitResult) :=
    IsGizmo (world s) (hit_actor h) = true ∨
    ∃ a, hit_actor h = Some a ∧ actor_flag a_net (world s) a = true ∧
         (bComponentBased s = true →
          ∃ k, hit_component h = Some k ∧ comp_flag c_net (world s) k = true) in
  (bIgnoreNonReplicatedObjects (cfg s) = false → r = (hits, s)) ∧
  (bIgnoreNonReplicatedObjects (cfg s) = true →
   r.1 `sublist_of` hits ∧
   (∀ h, h ∈ r.1 ↔ h ∈ hits ∧ kept h) ∧
   r.2 = set_out (out r.2) s ∧
   messages (out r.2) = messages (out s) ∧
   ∃ warnings, out r.2 = out s ++ warnings ∧
     ∀ e, e ∈ warnings ↔
          ∃ h a k, h ∈ hits ∧ ¬ kept h ∧ hit_actor h = Some a ∧ hit_component h = Some k ∧
                   e = LogWarning (RemovingHitNotSupportedForNetworking a k)).
Proof.
  intros r kept. subst r kept. unfold FilterHits.
  destruct (bIgnoreNonReplicatedObjects (cfg s)) eqn:Hig; simpl; [|done].
  split; [done|]. intros _. split_and!.
  - apply sublist_filter.
  - intros h. rewrite list_elem_of_filter, hit_supported_spec. tauto.
  - done.
  - by rewrite messages_app, messages_FilterHits_warning, app_nil_r.
  - eexists. split; [done|]. intros e. rewrite FilterHits_warning_spec.
    split.
    + intros (h & a & k & Hh & Ha & Hk & ->).
      apply list_elem_of_filter in Hh as [Hns Hh].
      exists h, a, k. split_and!; try done. by rewrite <- hit_supported_spec.
    + intros (h & a & k & Hh & Hns & Ha & Hk & ->).
      exists h, a, k. split_and!; try done. apply list_elem_of_filter.
      split; [|done]. by rewrite hit_supported_spec.
Qed.

(** X12.  [HandleTracedObjects] resets the snapping accumulator in every
    case.  It leaves a domain engaged only when the hits hold a part of
    the component's own gizmo that has a domain; the trace then succeeds
    and neither selection nor log changes.  And the first such part among
    the hits is engaged whatever objects are hit before it: the gizmo goes
    before the objects. *)
Theorem HandleTracedObjects_gizmo_first_of_all hits b s :
  let r := HandleTracedObjects hits b s in
  AccumulatedDeltaTransform r.2 = SetScale3D ZeroVector FTransform_Identity ∧
  (CurrentDomain r.2 ≠ TD_None →
   r.1 = true ∧ SelectedComponents r.2 = SelectedComponents s ∧ out r.2 = out s ∧
   ∃ g h k, Gizmo s = Some g ∧ h ∈ hits ∧ hit_actor h = Some g ∧ hit_component h = Some k ∧
            GetTransformationDomain (cfg s) k = CurrentDomain r.2) ∧
  (∀ g hits1 h k hits2,
     Gizmo s = Some g → hits = hits1 ++ h :: hits2 →
     Forall (no_domain_hit s g) hits1 →
     hit_actor h = Some g → hit_component h = Some k →
     GetTransformationDomain (cfg s) k ≠ TD_None →
     r.1 = true ∧ CurrentDomain r.2 = GetTransformationDomain (cfg s) k ∧
     SelectedComponents r.2 = SelectedComponents s).
Proof.
  intros r. subst r. unfold HandleTracedObjects.
  destruct (ClearDomain_fields s) as (Hd & Ha & Hc & Hg & Hs & Ho).
  set (s1 := ClearDomain s) in *.
  destruct (Gizmo s1) as [g|] eqn:Hg1.
  - destruct (HandleTracedObjects_gizmo_spec g hits s1 Hd) as (Hc2 & Hs2 & Ho2 & Ha2 & Ht & Hf).
    pose proof (HandleTracedObjects_gizmo_first (F:=F) g) as Hfirst.
    destruct (HandleTracedObjects_gizmo g hits s1) as [ok s2] eqn:Hloop. simpl in *.
    destruct ok; simpl.
    + split_and!; [congruence| |].
      * intros _. split_and!; [done|congruence|congruence|].
        destruct (Ht eq_refl) as (h & k & ? & ? & ? & Hdom & _).
        exists g, h, k. split_and!; [congruence|done|done|done|]. by rewrite <- Hc.
      * intros g' hits1 h k hits2 Hg' -> Hall Hh Hk Hdom.
        assert (g' = g) as -> by congruence.
        destruct (Hfirst hits1 h k hits2 s1 Hd) as [_ Hdr]; try done.
        { eapply Forall_impl; [exact Hall|]. intros h'. unfold no_domain_hit. by rewrite Hc. }
        { by rewrite Hc. }
        rewrite Hloop in Hdr. simpl in Hdr. split_and!; [done|by rewrite Hdr, Hc|congruence].
    + pose proof (HandleTracedObjects_select_frame hits b s2)
        as (_ & _ & Hd3 & _ & _ & Ha3 & _).
      split_and!; [congruence| |].
      * intros Hne. rewrite Hd3, (Hf eq_refl) in Hne. done.
      * intros g' hits1 h k hits2 Hg' -> Hall Hh Hk Hdom.
        assert (g' = g) as -> by congruence.
        destruct (Hfirst hits1 h k hits2 s1 Hd) as [Hr _]; try done.
        { eapply Forall_impl; [exact Hall|]. intros h'. unfold no_domain_hit. by rewrite Hc. }
        { by rewrite Hc. }
        by rewrite Hloop in Hr.
  - pose proof (HandleTracedObjects_select_frame hits b s1)
      as (_ & _ & Hd3 & _ & _ & Ha3 & _).
    split_and!; [congruence| |].
    + intros Hne. by rewrite Hd3, Hd in Hne.
    + intros g' hits1 h k hits2 Hg'. congruence.
Qed.

(** X13.  A trace whose first hit is an object, not null and not a
    gizmo, that the [ShouldSelect] hook rejects (asked with the part and
    its owner in part-based mode, with the aggregate and its root
    otherwise), and of which no hit is on the component's own gizmo,
    succeeds and selects nothing.  But for the cleared domain the state is as it was: what was
    selected stays selected, also when the trace is not to append, and
    nothing is written to the log. *)
Theorem HandleTracedObjects_rejected_hit h hits b s :
  Forall (λ h', ∀ g, Gizmo s = Some g → hit_actor h' ≠ Some g) (h :: hits) →
  IsGizmo (world s) (hit_actor h) = false →
  (if bComponentBased s
   then ∃ k, hit_component h = Some k ∧
             ShouldSelect (cfg s) (GetOwner (world s) k) (Some k) = false
   else ∃ a, hit_actor h = Some a ∧
             ShouldSelect (cfg s) (Some a) (GetRootComponent (world s) a) = false) →
  HandleTracedObjects (h :: hits) b s = (true, ClearDomain s) ∧
  SelectedComponents (ClearDomain s) = SelectedComponents s ∧
  out (ClearDomain s) = out s.
Proof.
  intros Hno Hng Hrej. unfold HandleTracedObjects.
  destruct (ClearDomain_fields s) as (Hd & Ha & Hc & Hg & Hs & Ho).
  assert (world (ClearDomain s) = world s ∨
          ∃ g f, Gizmo s = Some g ∧ world (ClearDomain s) = alter_gizmo f g (world s)) as Hw.
  { unfold ClearDomain, SetDomain. simpl. destruct (Gizmo s) as [g|] eqn:Hgs; [|by left].
    right. by eexists _, _. }
  assert (bComponentBased (ClearDomain s) = bComponentBased s) as Hb.
  { unfold ClearDomain, SetDomain. simpl. by destruct (Gizmo s). }
  set (s1 := ClearDomain s) in *.
  assert (∀ (hs : list FHitResult) (x : State F),
            Forall (λ h', ∀ g, Gizmo s = Some g → hit_actor h' ≠ Some g) hs →
            ∀ g, Gizmo s = Some g → HandleTracedObjects_gizmo g hs x = (false, x)) as Hloop.
  { intros hs x Hl g Hgs. induction Hl as [|h' hs Hh' _ IH]; [done|]. simpl.
    rewrite bool_decide_false by (by apply Hh'). exact IH. }
  assert (IsGizmo (world s1) (hit_actor h) = false ∧
          (∀ k, GetOwner (world s1) k = GetOwner (world s) k) ∧
          (∀ a, hit_actor h = Some a →
                GetRootComponent (world s1) a = GetRootComponent (world s) a)) as (Hng1 & Hown & Hroot).
  { destruct Hw as [->|(g & f & Hgs & ->)]; [done|]. split_and!.
    - destruct (hit_actor h) as [a|] eqn:Hh; [|done].
      destruct (decide (a = g)) as [->|Hne].
      + apply Forall_cons in Hno as [Hno _]. by destruct (Hno g Hgs).
      + rewrite <- Hng. simpl. unfold GetGizmoData, alter_gizmo. simpl.
        by rewrite lookup_alter_ne.
    - done.
    - intros a Hh. destruct (decide (a = g)) as [->|Hne].
      + apply Forall_cons in Hno as [Hno _]. by destruct (Hno g Hgs).
      + unfold GetRootComponent, alter_gizmo. simpl. by rewrite lookup_alter_ne. }
  split; [|done].
  assert ((match Gizmo s1 with
           | Some g => HandleTracedObjects_gizmo g (h :: hits) s1
           | None => (false, s1)
           end) = (false, s1)) as ->.
  { destruct (Gizmo s1) as [g|] eqn:Hg1; [|done]. apply Hloop; [done|congruence]. }
  cbn [HandleTracedObjects_select]. rewrite Hng1, Hb.
  destruct (bComponentBased s).
  - destruct Hrej as (k & -> & Hk). unfold SelectComponent. by rewrite Hc, Hown, Hk.
  - destruct Hrej as (a & Ha' & Hk). rewrite Ha'. unfold SelectActor.
    by rewrite Hc, (Hroot a Ha'), Hk.
Qed.




(** X17.  Setting another transformation kind for which a gizmo class is
    configured, while something is selected, in a world.  When the
    component's gizmo pointer names a gizmo that reports the new kind (the
    pointer still names the destroyed gizmo of that kind after the kind
    was set to one without a class), nothing is destroyed and nothing is
    spawned: the pointer stays, the actors of the store are the same, and
    each is valid or not as it was.  In every other case the old gizmo, if
    the store holds one, is destroyed; a new actor is spawned as the
    gizmo, it is attached to the first or the last selected component as
    the placement says, and it is told the current space. *)
Theorem SetTransformationType_replaces_gizmo s k ty :
  CurrentTransformation s ≠ k →
  SelectedComponents s ≠ [] →
  HasWorld (cfg s) = true →
  GizmoClassFor (cfg s) k = Some ty →
  let s' := SetTransformationType k s in
  let reports (g : Actor) := gz_type <$> GetGizmoData (world s) g = Some k in
  CurrentTransformation s' = k ∧
  (∀ g, Gizmo s = Some g → reports g →
     Gizmo s' = Some g ∧
     dom (actors (world s')) = dom (actors (world s)) ∧
     (∀ a, actor_flag a_valid (world s') a = actor_flag a_valid (world s) a)) ∧
  ((∀ g, Gizmo s = Some g → ¬ reports g) →
   ∃ g', Gizmo s' = Some g' ∧ actors (world s) !! g' = None ∧
         GetGizmoData (world s') g'
           = Some {| gz_type := ty; gz_attached := ComponentToAttachTo s;
                     gz_progress := false; gz_domain := TD_None;
                     gz_space := CurrentSpaceType (cfg s) |} ∧
         actor_flag a_valid (world s') g' = true ∧
         (∀ g, Gizmo s = Some g → is_Some (actors (world s) !! g) →
               actor_flag a_valid (world s') g = false)).
Proof.
  intros Hk Hsel Hw Hclass s' reports. subst s' reports. unfold SetTransformationType.
  rewrite bool_decide_false by done.
  rewrite bool_decide_false by (intros ->; done).
  set (s3 := set_AccumulatedDeltaTransform _ (set_CurrentTransformation k s)).
  change (match GizmoPlacement (cfg s) with
          | GP_None => None
          | GP_OnFirstSelection => mjoin (head (SelectedComponents s))
          | GP_OnLastSelection => mjoin (last (SelectedComponents s))
          end) with (ComponentToAttachTo s).
  split_and!.
  - assert ((∃ g, Gizmo s = Some g ∧ gz_type <$> GetGizmoData (world s) g = Some k) ∨
            ¬ (∃ g, Gizmo s = Some g ∧ gz_type <$> GetGizmoData (world s) g = Some k))
      as [(g & HG & Hty)|Hno].
    { destruct (Gizmo s) as [g|]; [|right; by intros (? & ? & _)].
      destruct (decide (gz_type <$> GetGizmoData (world s) g = Some k)) as [Hty|Hty].
      - left. by exists g.
      - right. intros (g0 & [= <-] & ?). done. }
    + unfold UpdateGizmoPlacement. rewrite (SetGizmo_same_kind s3 g Hsel HG Hty).
      change (Gizmo s3) with (Gizmo s). by rewrite HG.
    + unfold UpdateGizmoPlacement. rewrite SetGizmo_other_kind; [|done|].
      2: { intros g HG Hty. apply Hno. by exists g. }
      simpl. rewrite Hw, Hclass. done.
  - intros g HG Hty.
    unfold UpdateGizmoPlacement. rewrite (SetGizmo_same_kind s3 g Hsel HG Hty).
    change (Gizmo s3) with (Gizmo s). rewrite HG. simpl.
    change (match GizmoPlacement (cfg s) with
            | GP_None => None
            | GP_OnFirstSelection => mjoin (head (SelectedComponents s))
            | GP_OnLastSelection => mjoin (last (SelectedComponents s))
            end) with (ComponentToAttachTo s).
    split_and!; [done| |].
    + unfold alter_gizmo. destruct (ComponentToAttachTo s); simpl; by rewrite !dom_alter_L.
    + intros a. rewrite actor_flag_valid_alter_gizmo.
      destruct (ComponentToAttachTo s); [apply actor_flag_valid_alter_gizmo|done].
  - intros Hg.
    pose proof (SetGizmo_other_kind s3 Hsel Hg) as Hset. simpl in Hset.
    rewrite Hw, Hclass in Hset.
    set (w1 := match Gizmo s with Some g => DestroyActor g (world s) | None => world s end) in *.
    assert (dom (actors w1) = dom (actors (world s))) as Hdom.
    { subst w1. destruct (Gizmo s); [|done]. simpl. apply dom_alter_L. }
    set (g' := fresh (dom (actors w1))) in *.
    assert (actors w1 !! g' = None) as Hfresh by apply not_elem_of_dom, is_fresh.
    assert (actors (world s) !! g' = None) as Hfresh0.
    { apply not_elem_of_dom. rewrite <- Hdom. apply is_fresh. }
    unfold UpdateGizmoPlacement. rewrite Hset. simpl.
    exists g'. fold g'.
    change (match GizmoPlacement (cfg s) with
            | GP_None => None
            | GP_OnFirstSelection => mjoin (head (SelectedComponents s))
            | GP_OnLastSelection => mjoin (last (SelectedComponents s))
            end) with (ComponentToAttachTo s).
    split_and!; [done|done| | |].
    + unfold GetGizmoData. destruct (ComponentToAttachTo s) as [c|]; simpl;
        rewrite ?lookup_alter_eq, lookup_insert_eq; done.
    + unfold actor_flag. destruct (ComponentToAttachTo s) as [c|]; simpl;
        rewrite ?lookup_alter_eq, lookup_insert_eq; done.
    + intros g HG [gd Hgd]. subst w1. rewrite HG in *.
      assert (g ≠ g') as Hne by (intros ->; congruence).
      pose proof (actor_flag_valid_DestroyActor g (world s)) as Hdead.
      unfold actor_flag in *. destruct (ComponentToAttachTo s) as [c|]; simpl;
        rewrite ?lookup_alter_ne, lookup_insert_ne by done; exact Hdead.
Qed.

(** X18.  Setting another transformation kind for which no gizmo class
    is configured ([TT_NoTransform] has none), or without a world, while
    something is selected and a gizmo of the old kind exists: the gizmo is
    destroyed and nothing replaces it, yet the component goes on referring
    to the destroyed actor. *)
Theorem SetTransformationType_keeps_destroyed_gizmo s k g gd :
  CurrentTransformation s ≠ k →
  SelectedComponents s ≠ [] →
  Gizmo s = Some g →
  GetGizmoData (world s) g = Some gd → gz_type gd ≠ k →
  GizmoClassFor (cfg s) k = None ∨ HasWorld (cfg s) = false →
  let s' := SetTransformationType k s in
  CurrentTransformation s' = k ∧
  Gizmo s' = Some g ∧
  actor_flag a_valid (world s') g = false.
Proof.
  intros Hk Hsel HG Hgd Hty Hno s'. subst s'. unfold SetTransformationType.
  rewrite bool_decide_false by done.
  set (s1 := if bool_decide (k = TT_NoTransform)
             then emit (LogWarning SettingTransformationTypeToNone) s else s).
  assert (cfg s1 = cfg s ∧ world s1 = world s ∧ Gizmo s1 = Gizmo s ∧
          SelectedComponents s1 = SelectedComponents s) as (Hc1 & Hw1 & Hg1 & Hs1)
    by (subst s1; by case_bool_decide).
  set (s3 := set_AccumulatedDeltaTransform _ (set_CurrentTransformation k s1)).
  assert (SetGizmo s3 = set_world (DestroyActor g (world s)) s3) as Hset.
  { rewrite SetGizmo_mismatch; simpl.
    - rewrite Hg1, HG, Hw1, Hc1. destruct Hno as [->| ->]; [by destruct (HasWorld _)|done].
    - by rewrite Hs1.
    - rewrite Hg1, HG, Hw1. intros g0 [= <-]. by exists gd. }
  unfold UpdateGizmoPlacement. rewrite Hset.
  change (Gizmo (set_world (DestroyActor g (world s)) s3)) with (Gizmo s1).
  rewrite Hg1, HG.
  split_and!; [done|by change (Gizmo s1 = Some g); rewrite Hg1|].
  simpl. rewrite actor_flag_valid_alter_gizmo.
  change (match GizmoPlacement (cfg s1) with
          | GP_None => None
          | GP_OnFirstSelection => mjoin (head (SelectedComponents s1))
          | GP_OnLastSelection => mjoin (last (SelectedComponents s1))
          end) with (ComponentToAttachTo s1).
  destruct (ComponentToAttachTo s1); rewrite ?actor_flag_valid_alter_gizmo;
    apply actor_flag_valid_DestroyActor.
Qed.


(** X20.  [SetComponentBased] deselects everything, sets the mode, and
    selects again what was selected: the components themselves in
    part-based mode, the roots of their owners in aggregate mode.  So a
    selection without duplicates that [ShouldSelect] accepts is kept when
    part-based mode is set; and under the toggle policy, two selected
    components of one actor leave nothing selected when aggregate mode is
    set, for the actor is selected twice. *)
Theorem SetComponentBased_reselects b s s' :
  SetComponentBased b s = Done s' →
  bComponentBased s' = b ∧
  SelectedComponents s'
  = (if b then select_all s [] (SelectedComponents s)
     else select_all_actors s []
            ((λ c : Ptr, c ≫= GetOwner (world s)) <$> SelectedComponents s)) ∧
  (b = true → NoDup (SelectedComponents s) →
   Forall (λ c, accepted s c = true) (SelectedComponents s) →
   SelectedComponents s' = SelectedComponents s) ∧
  (b = false → bToggleSelectedInMultiSelection (cfg s) = true →
   ∀ (c1 c2 a : nat),
     SelectedComponents s = [Some c1; Some c2] →
     GetOwner (world s) c1 = Some a → GetOwner (world s) c2 = Some a →
     accepted_actor s (Some a) = true →
     SelectedComponents s' = []).
Proof.
  unfold SetComponentBased.
  destruct (DeselectAll_spec (DeselectAll_default (cfg s)) s) as (Hsel & Hfr & Hnil & _).
  destruct (DeselectAll _ s) as [sel s1]. simpl in Hsel, Hfr, Hnil. subst sel.
  set (s2 := set_bComponentBased b s1).
  assert (cfg s2 = cfg s) as Hc by apply (sel_frame_cfg _ _ Hfr).
  assert (∀ k, GetOwner (world s2) k = GetOwner (world s) k) as Ho
    by (intros k; apply (sel_frame_owners _ _ k Hfr)).
  assert (∀ a, GetRootComponent (world s2) a = GetRootComponent (world s) a) as Hr
    by (intros a; apply (sel_frame_roots _ _ a Hfr)).
  intros Hdone.
  assert (bComponentBased s' = b ∧
          SelectedComponents s'
          = (if b then select_all s [] (SelectedComponents s)
             else select_all_actors s []
                    ((λ c : Ptr, c ≫= GetOwner (world s)) <$> SelectedComponents s)))
    as [Hmode Hlist].
  { destruct b; simpl in Hdone.
    - injection Hdone as <-. split.
      + by destruct (SelectMultipleComponents_frame (SelectedComponents s) false s2)
          as (_ & _ & _ & -> & _).
      + rewrite SelectMultipleComponents_from_empty by done. by apply select_all_agree.
    - pose proof (owners_of_spec (world s1) (SelectedComponents s)) as Hown.
      change (world s2) with (world s1) in *.
      case_bool_decide; rewrite Hown in Hdone; [done|]. injection Hdone as <-. split.
      + assert (sel_frame s2 (SelectMultipleActors
                  ((λ c : Ptr, c ≫= GetOwner (world s1)) <$> SelectedComponents s) false s2))
          as (_ & _ & _ & -> & _); [|done].
        by apply (sel_steps_frame false), steps_SelectMultipleActors.
      + rewrite SelectMultipleActors_from_empty by done.
        rewrite (select_all_actors_agree s s2) by done. f_equal.
        apply list_fmap_ext. intros _ [k|] _; [apply Ho|done]. }
  split_and!; [done|done| |].
  - intros -> Hnd Hall. rewrite Hlist. rewrite select_all_fresh; try done.
    intros c _. apply not_elem_of_nil.
  - intros -> Ht c1 c2 a Hs H1 H2 Ha. rewrite Hlist, Hs. simpl. rewrite H1, H2.
    unfold select_all_actors. simpl. simpl in Ha. rewrite Ha, Ht.
    unfold toggle_in, Find. simpl. by rewrite decide_True.
Qed.


End Further.

(** * Concrete runs *)

(** ** Selection (C3, C4) *)

(** The invariant on the scene, for a sequence that adds, toggles,
    replaces and removes, started on a fresh component. *)
Lemma selection_set_invariant_run :
  let s := demo_state ROLE_Authority in
  let s' := run_ops s demo_ops in
  NoDup (SelectedComponents s') ∧
  (Forall is_Some (SelectedComponents s) →
   length (SelectedComponents s) + removed (out s) = added (out s) →
   Forall (op_valid (world s)) demo_ops →
   Forall is_Some (SelectedComponents s') ∧
   length (SelectedComponents s') + removed (out s') = added (out s')).
Proof.
  apply (selection_set_invariant (demo_state ROLE_Authority) demo_ops).
  vm_compute. constructor.
Defined.

(** The run, evaluated: the three references selected at the end are
    distinct, six objects were added and three removed. *)
Example selection_set_run :
  let s' := run_ops (demo_state ROLE_Authority) demo_ops in
  SelectedComponents s' = [Some 3; Some 0; Some 2] ∧ added (out s') = 6 ∧ removed (out s') = 3.
Proof. vm_compute. done. Qed.

(** C3 fails on an actor without a root component.  The actor [2] of the
    scene is valid and has no root.  [SelectActor] passes the null root
    to [AddComponent_Internal], which appends it and fires the
    selection-change event for it: the selection has one entry and holds
    no object.  Neither [DeselectActor] on that actor nor
    [DeselectComponent] on the null reference removes the entry.
    [DeselectAll] drops it without an event, so that one addition and no
    removal have been announced when the selection is empty again.
    [SelectComponent], the sibling, returns at once on a null reference. *)
Theorem selection_counts_null_reference :
  let s0 := demo_rootless_state in
  let s1 := run_ops s0 [OpSelectActor (Some 2) true] in
  let s2 := run_ops s1 [OpDeselectActor (Some 2); OpDeselectComponent None] in
  let s3 := run_ops s1 [OpDeselectAll false] in
  (SelectedComponents s0 = [] ∧ out s0 = [] ∧
   actor_flag a_valid (world s0) 2 = true ∧ GetRootComponent (world s0) 2 = None) ∧
  (SelectedComponents s1 = [None] ∧ length (SelectedComponents s1) = 1 ∧
   omap id (SelectedComponents s1) = [] ∧
   out s1 = [OnComponentSelectionChange None true false]) ∧
  s2 = s1 ∧
  (SelectedComponents s3 = [] ∧ out s3 = out s1 ∧
   added (out s3) = 1 ∧ removed (out s3) = 0) ∧
  run_ops s0 [OpSelectComponent None true] = s0.
Proof. vm_compute. done. Qed.

(** C4 on the scene: component [1], whose owner implements
    [UFocusableObject], is selected again, with and without append. *)
Lemma SelectComponent_reselect_witness :
  let s := demo_selected ROLE_Authority in
  let w := world s in
  let partBased := bComponentBased s in
  (bToggleSelectedInMultiSelection (cfg s) = true →
     (Some 1 ∉ SelectedComponents (SelectComponent (Some 1) true s)) ∧
     (∃ i, SelectedComponents s !! i = Some (Some 1) ∧
           SelectedComponents (SelectComponent (Some 1) true s)
             = delete i (SelectedComponents s)) ∧
     out (SelectComponent (Some 1) true s) = out s ++ unfocus_notifications w partBased 1 ∧
     (∀ o, notified w partBased 1 = Some o →
           Unfocus o (Some 1) partBased ∈ out (SelectComponent (Some 1) true s))) ∧
  (SelectedComponents (SelectComponent (Some 1) false s) = [Some 1] ∧
   out (SelectComponent (Some 1) false s)
     = out s ++ (omap id (SelectedComponents s) ≫= unfocus_notifications w partBased)
             ++ focus_notifications w partBased 1 ∧
   (∀ k' o, Some k' ∈ SelectedComponents s → notified w partBased k' = Some o →
            Unfocus o (Some k') partBased ∈ out (SelectComponent (Some 1) false s)) ∧
   (∀ o, notified w partBased 1 = Some o →
         last (out (SelectComponent (Some 1) false s))
           = Some (OnComponentSelectionChange (Some 1) true true) ∧
         Focus o (Some 1) partBased ∈ out (SelectComponent (Some 1) false s))).
Proof.
  apply (SelectComponent_reselect (demo_selected ROLE_Authority) 1).
  - apply (bool_decide_unpack _). vm_compute. exact I.
  - apply (bool_decide_unpack _). vm_compute. exact I.
Defined.

(** The two calls of the witness, evaluated.  The owner of both
    components is the actor [0], which implements [UFocusableObject] and
    is the object notified in aggregate mode. *)
Example SelectComponent_reselect_run :
  let s := demo_selected ROLE_Authority in
  let s1 := SelectComponent (Some 1) true s in
  let s2 := SelectComponent (Some 1) false s in
  SelectedComponents s = [Some 0; Some 1] ∧
  notified (world s) false 0 = Some (UActor 0) ∧
  notified (world s) false 1 = Some (UActor 0) ∧
  (SelectedComponents s1 = [Some 0] ∧
   out s1 = out s ++ [Unfocus (UActor 0) (Some 1) false;
                      OnComponentSelectionChange (Some 1) false true]) ∧
  (SelectedComponents s2 = [Some 1] ∧
   out s2 = out s ++ [Unfocus (UActor 0) (Some 0) false;
                      OnComponentSelectionChange (Some 0) false true;
                      Unfocus (UActor 0) (Some 1) false;
                      OnComponentSelectionChange (Some 1) false true;
                      Focus (UActor 0) (Some 1) false;
                      OnComponentSelectionChange (Some 1) true true]).
Proof. vm_compute. done. Qed.

(** C4 as the spec states it fails for a member that [ShouldSelect]
    rejects.  Components [0] and [1] are selected and the toggle policy is
    on; the hook rejects component [1].  Selecting [1] again with append
    does not remove it and fires nothing; selecting it again without
    append does not clear the selection, which still holds [0], and fires
    nothing. *)
Lemma SelectComponent_reselect_vetoed :
  let s := demo_vetoed in
  (SelectedComponents s = [Some 0; Some 1] ∧
   bToggleSelectedInMultiSelection (cfg s) = true ∧
   ShouldSelect (cfg s) (GetOwner (world s) 1) (Some 1) = false) ∧
  (SelectedComponents (SelectComponent (Some 1) true s) = [Some 0; Some 1] ∧
   out (SelectComponent (Some 1) true s) = out s) ∧
  (SelectedComponents (SelectComponent (Some 1) false s) = [Some 0; Some 1] ∧
   SelectedComponents (SelectComponent (Some 1) false s) ≠ [Some 1] ∧
   out (SelectComponent (Some 1) false s) = out s).
Proof. vm_compute. split_and!; done. Qed.

(** ** Traces (C5, C10) *)

(** C5 on the authority of the scene, whose trace finds nothing. *)
Lemma replicated_trace_miss_on_authority_witness :
  let s := demo_selected ROLE_Authority in
  ReplicatedMouseTraceByObjectTypes 1000%Z [0] false s = Done s ∧
  ReplicatedMouseTraceByChannel 1000%Z 0 false s = Done s ∧
  ReplicatedMouseTraceByProfile 1000%Z 0 false s = Done s.
Proof.
  apply (replicated_trace_miss_on_authority (demo_selected ROLE_Authority) 1000%Z [0] 0 0 false).
  - reflexivity.
  - intros q st en ig. reflexivity.
Defined.

(** The failing run of C5: the authority has two components selected,
    its replicated trace hits nothing and does not append; the two
    components stay selected and the log does not grow. *)
Example replicated_trace_miss_keeps_selection :
  let s := demo_selected ROLE_Authority in
  GetMouseStartEndPoints 1000%Z s ≠ None ∧
  ∃ s', ReplicatedMouseTraceByObjectTypes 1000%Z [0] false s = Done s' ∧
        SelectedComponents s' = [Some 0; Some 1] ∧ out s' = out s.
Proof. split; [done|]. eexists. split; [vm_compute; reflexivity|]. vm_compute. done. Qed.

(** Two runs of C10: the trace by channel selects the object it hits,
    or engages the domain of the gizmo part it hits, and false is
    returned; the trace by object types returns true on the same hits. *)
Example MouseTraceByChannel_selects_and_returns_false :
  let r := MouseTraceByChannel 1000%Z 0 [] false (demo_hit_object ROLE_Authority) in
  r.1 = false ∧ SelectedComponents r.2 = [Some 0] ∧
  (MouseTraceByObjectTypes 1000%Z [0] [] false (demo_hit_object ROLE_Authority)).1 = true.
Proof. vm_compute. done. Qed.

Example MouseTraceByChannel_engages_and_returns_false :
  let r := MouseTraceByChannel 1000%Z 0 [] false (demo_hit_gizmo ROLE_Authority) in
  r.1 = false ∧ CurrentDomain r.2 = TD_X_Axis ∧
  (MouseTraceByObjectTypes 1000%Z [0] [] false (demo_hit_gizmo ROLE_Authority)).1 = true.
Proof. vm_compute. done. Qed.

(** ** Resync (C2) *)

(** C2 on a proxy that is polling: a broadcast of two references, one of
    them null, has left it out of sync with the timer running. *)
Lemma resync_poll_witness :
  let s := demo_out_of_sync in
  (∀ Components,
     let s' := proxy_step s (Broadcast Components) in
     SelectedComponents s' = select_all s [] Components ∧
     bResyncSelection s'
       = negb (bool_decide (length Components = length (select_all s [] Components))) ∧
     (bResyncSelection s' = false ↔
      NoDup Components ∧ Forall (λ c, accepted s c = true) Components) ∧
     (bResyncSelection s' = false → SelectedComponents s' = Components) ∧
     ResyncSelectionTimerHandle s' = ResyncSelectionTimerHandle s || bResyncSelection s' ∧
     sync_requests (out s') = sync_requests (out s)) ∧
  (let s' := proxy_step s TimerInterval in
   SelectedComponents s' = SelectedComponents s ∧
   bResyncSelection s' = bResyncSelection s ∧
   ResyncSelectionTimerHandle s' = ResyncSelectionTimerHandle s && bResyncSelection s ∧
   out s' = out s ++
     (if ResyncSelectionTimerHandle s then
        if bResyncSelection s
        then [LogWarning ResyncingSelection; SendToServer ReqSyncSelectedComponents]
        else [LogWarning ResyncingFinished]
      else [])) ∧
  (∀ inputs,
     (bResyncSelection s = true → ResyncSelectionTimerHandle s = true) →
     bResyncSelection (proxy_run s inputs) = true →
     ResyncSelectionTimerHandle (proxy_run s inputs) = true) ∧
  (∀ n,
     (bResyncSelection s = true → ResyncSelectionTimerHandle s = true) →
     sync_requests (out (proxy_run s (replicate n TimerInterval)))
       = sync_requests (out s) + (if bResyncSelection s then n else 0)) ∧
  (∀ Components Components' n m,
     ¬ (NoDup Components ∧ Forall (λ c, accepted s c = true) Components) →
     NoDup Components' → Forall (λ c, accepted s c = true) Components' →
     let s1 := proxy_run s (Broadcast Components :: replicate n TimerInterval) in
     let s2 := proxy_step s1 (Broadcast Components') in
     let s3 := proxy_run s2 (replicate (S m) TimerInterval) in
     (bResyncSelection s1 = true ∧ ResyncSelectionTimerHandle s1 = true ∧
      sync_requests (out s1) = sync_requests (out s) + n) ∧
     (bResyncSelection s2 = false ∧ SelectedComponents s2 = Components' ∧
      ResyncSelectionTimerHandle s2 = true ∧
      sync_requests (out s2) = sync_requests (out s1)) ∧
     (bResyncSelection s3 = false ∧ SelectedComponents s3 = Components' ∧
      ResyncSelectionTimerHandle s3 = false ∧
      sync_requests (out s3) = sync_requests (out s1))).
Proof.
  apply (resync_poll demo_out_of_sync).
  - discriminate.
  - reflexivity.
Defined.

(** The state of the witness: one of the two references was selected,
    the proxy is out of sync and its timer runs. *)
Example resync_poll_state :
  SelectedComponents demo_out_of_sync = [Some 0] ∧
  bResyncSelection demo_out_of_sync = true ∧
  ResyncSelectionTimerHandle demo_out_of_sync = true.
Proof. vm_compute. done. Qed.

(** C2 as the spec states it fails: the poll does not stop when the
    broadcast with matching counts is applied.  A broadcast of two
    references of which one is null leaves the proxy out of sync, and the
    first interval sends a request.  The broadcast of the one reference
    that resolves clears the flag, one reference received and one
    selected, and the timer is still running after it.  The timer fires
    once more: that interval sends no request, logs that the resync is
    finished, and only then stops the timer. *)
Lemma resync_timer_outlives_match :
  let s1 := proxy_run (demo_state ROLE_AutonomousProxy)
              [Broadcast [Some 0; None]; TimerInterval] in
  let s2 := proxy_step s1 (Broadcast [Some 0]) in
  let s3 := proxy_step s2 TimerInterval in
  let s4 := proxy_step s3 TimerInterval in
  (bResyncSelection s1 = true ∧ ResyncSelectionTimerHandle s1 = true ∧
   sync_requests (out s1) = 1) ∧
  (bResyncSelection s2 = false ∧ SelectedComponents s2 = [Some 0] ∧
   ResyncSelectionTimerHandle s2 = true) ∧
  (out s3 = out s2 ++ [LogWarning ResyncingFinished] ∧
   ResyncSelectionTimerHandle s3 = false ∧ sync_requests (out s3) = 1) ∧
  s4 = s3.
Proof. vm_compute. done. Qed.

(** The scenario of the spec: a broadcast names three objects of which
    two resolve (the third reference arrives null), and the proxy polls;
    the broadcast is repeated with all three resolving, and the poll ends
    at the next interval. *)
Example resync_scenario :
  let s1 := proxy_run (demo_state ROLE_AutonomousProxy)
              [Broadcast [Some 0; None; Some 1]; TimerInterval; TimerInterval] in
  let s2 := proxy_step s1 (Broadcast [Some 0; Some 2; Some 1]) in
  let s3 := proxy_step s2 TimerInterval in
  let s4 := proxy_step s3 TimerInterval in
  (SelectedComponents s1 = [Some 0; Some 1] ∧ bResyncSelection s1 = true ∧
   ResyncSelectionTimerHandle s1 = true ∧
   sync_requests (out s1) = 2) ∧
  (SelectedComponents s2 = [Some 0; Some 2; Some 1] ∧ bResyncSelection s2 = false ∧
   ResyncSelectionTimerHandle s2 = true) ∧
  (ResyncSelectionTimerHandle s3 = false ∧ s4 = s3 ∧ sync_requests (out s4) = 2).
Proof. vm_compute. done. Qed.

(** ** Cloning (C7, C1, C6) *)

(** C7 on the scene: a clone request reaches the authority in part-based
    mode. *)
Lemma ServerCloneSelected_component_based_witness :
  ∃ s', ServerCloneSelected_Implementation true false (demo_parts ROLE_Authority) = Done s' ∧
    s' = emit (LogWarning ComponentCloningNotSupported) (demo_parts ROLE_Authority) ∧
    world s' = world (demo_parts ROLE_Authority) ∧
    SelectedComponents s' = SelectedComponents (demo_parts ROLE_Authority) ∧
    Gizmo s' = Gizmo (demo_parts ROLE_Authority) ∧
    UnreplicatedComponentClones s' = UnreplicatedComponentClones (demo_parts ROLE_Authority) ∧
    CheckUnrepTimerHandle s' = CheckUnrepTimerHandle (demo_parts ROLE_Authority) ∧
    out s' = out (demo_parts ROLE_Authority) ++ [LogWarning ComponentCloningNotSupported].
Proof.
  apply (ServerCloneSelected_component_based (demo_parts ROLE_Authority) true false).
  reflexivity.
Defined.

(** C1 fails.  The authority clones the two selected actors and selects
    the clones, whose roots [4] and [5] then wait for replication.  The
    engine finishes the initialization of [5] alone.  The next call of
    [CheckUnreplicatedActors] counts one replicated clone and removes one
    entry from the front of the list, which is the entry of [4]; the call
    after it finds [5] alone, removes it, stops the timer and broadcasts
    the selection [4; 5], although [4] has not begun play at any time. *)
Theorem clone_readiness_violated :
  ∃ s1, ServerCloneSelected_Implementation true false demo_two_actors = Done s1 ∧
    let s2 := engine_BeginPlay 5 s1 in
    let s3 := CheckUnreplicatedActors_timer 50%Z s2 in
    let s4 := CheckUnreplicatedActors_timer 50%Z s3 in
    (UnreplicatedComponentClones s1 = [Some 4; Some 5] ∧ CheckUnrepTimerHandle s1 = true) ∧
    (clone_replicated s2 50%Z (Some 4) = false ∧ clone_replicated s2 50%Z (Some 5) = true) ∧
    (UnreplicatedComponentClones s3 = [Some 5] ∧ CheckUnrepTimerHandle s3 = true ∧
     out s3 = out s2) ∧
    (UnreplicatedComponentClones s4 = [] ∧ CheckUnrepTimerHandle s4 = false ∧
     SelectedComponents s4 = [Some 4; Some 5] ∧
     filter (λ e, is_broadcast e = true) (out s4)
       = [SendToAll (BcastSetSelectedComponents [Some 4; Some 5])] ∧
     comp_flag c_begun_play (world s4) 4 = false).
Proof. eexists. split; [vm_compute; reflexivity|]. vm_compute. done. Qed.

(** C6 on the two actors of three components each: the root [0], a
    null reference, the grandchild [2] and the grandchild [5] are cloned. *)
Lemma CloneComponents_reparenting_witness :
  ∃ tc w',
    CloneComponents_world [Some 0; None; Some 2; Some 5] demo_tree = Done (Some <$> tc.*2, w') ∧
    tc.*1 = omap (cloneable demo_tree) [Some 0; None; Some 2; Some 5] ∧
    NoDup tc.*2 ∧
    (∀ t k, (t, k) ∈ tc →
       comps demo_tree !! k = None ∧
       ∃ P target, original_parent demo_tree t = Some P ∧
         attach_target demo_tree (clone_map tc) k P target ∧
         GetAttachParent w' k = Some target ∧ target ≠ k) ∧
    extends demo_tree w' ∧
    acyclic w'.
Proof.
  apply (CloneComponents_reparenting demo_tree (λ c, c) [Some 0; None; Some 2; Some 5]).
  - apply check_hierarchy_sound. vm_compute. reflexivity.
  - intros t Ht.
    repeat (apply elem_of_cons in Ht as [Ht|Ht]; [try discriminate Ht; injection Ht as ->;
              eexists; vm_compute; reflexivity|]).
    by apply elem_of_nil in Ht.
Defined.

(** The run of the witness: the clone [6] of the root [0] is attached to
    the original root; the parent [1] of [2] is not cloned and the walk
    finds the cloned root, so the clone [7] of [2] is attached to [6]; no
    ancestor of [5] is cloned, so its clone [8] is attached to [4], the
    original parent. *)
Example CloneComponents_run :
  ∃ w', CloneComponents_world [Some 0; None; Some 2; Some 5] demo_tree
          = Done ([Some 6; Some 7; Some 8], w') ∧
        GetAttachParent w' 6 = Some 0 ∧ GetAttachParent w' 7 = Some 6 ∧
        GetAttachParent w' 8 = Some 4.
Proof. eexists. split; [vm_compute; reflexivity|]. vm_compute. done. Qed.

(** C6 as the spec states it fails.  The components [0], [1] and [5] are
    cloned into [6], [7] and [8].  The original parent of [1] is the root
    [0] of its actor, and the clone [7] is attached to [6], the clone of
    the root, not to the original root.  Neither the parent [4] of [5] nor
    the root [3] above it is cloned, and the clone [8] is attached to [4],
    the original parent, which is neither a cloned ancestor nor the root. *)
Lemma CloneComponents_not_attached_to_root :
  ∃ w', CloneComponents_world [Some 0; Some 1; Some 5] demo_tree
          = Done ([Some 6; Some 7; Some 8], w') ∧
        (GetAttachParent demo_tree 1 = Some 0 ∧ GetRootComponent demo_tree 0 = Some 0 ∧
         GetAttachParent w' 7 = Some 6 ∧ GetAttachParent w' 7 ≠ Some 0) ∧
        (GetAttachParent demo_tree 5 = Some 4 ∧ GetAttachParent demo_tree 4 = Some 3 ∧
         GetRootComponent demo_tree 1 = Some 3 ∧
         GetAttachParent w' 8 = Some 4 ∧ GetAttachParent w' 8 ≠ Some 3).
Proof. eexists. split; [vm_compute; reflexivity|]. vm_compute. done. Qed.

(** The two conditions on the input of C6 are needed.  A component that
    is not attached below the root of its actor has no original parent,
    and the pass dereferences the null pointer ([cp.Value->GetOwner()]);
    on the cycle between [1] and [2] the walk up from the parent of [3]
    never ends, however many steps it is given. *)
Example CloneComponents_detached_component :
  acyclic demo_detached ∧
  CloneComponents_world [Some 1] demo_detached = NullDereference.
Proof.
  split; [|vm_compute; reflexivity].
  exists (λ c, c). intros c p Hp. unfold GetAttachParent, demo_detached in Hp. simpl in Hp.
  rewrite lookup_insert in Hp. case_decide; [done|].
  rewrite lookup_insert in Hp. by case_decide.
Qed.

Example CloneComponents_on_a_cycle :
  CloneComponents_world [Some 3] demo_cycle = Diverges ∧
  ∀ fuel OcCc, OcCc !! 1 = None → OcCc !! 2 = None →
    reparent_walk fuel demo_cycle OcCc (Some 0) 1 (Some 1) = Diverges.
Proof.
  split; [vm_compute; reflexivity|]. intros fuel OcCc H1 H2.
  by apply (reparent_walk_cycle demo_cycle OcCc (Some 0) 1 1 2).
Qed.

(** ** The two accumulators (C8, C9) *)

(** A run of C8 on a proxy in the middle of a drag: clearing the domain
    drops the three units of snapping remainder and keeps the five units
    of the gesture; the flush sends the five units to the authority and
    only then forgets them. *)
Example ClearDomain_then_flush_run :
  let s := demo_dragging ROLE_AutonomousProxy in
  let s1 := ClearDomain s in
  AccumulatedDeltaTransform s = demo_delta 3 ∧
  AccumulatedDeltaTransform s1 = SetScale3D ZeroVector FTransform_Identity ∧
  NetworkDeltaTransform s1 = demo_delta 5 ∧
  ∃ s2, ReplicateFinishTransform s1 = Done s2 ∧
    NetworkDeltaTransform s2 = SetScale3D ZeroVector FTransform_Identity ∧
    out s2 = out s1 ++ [SendToServer ReqClearDomain;
                        SendToServer (ReqApplyTransform (demo_delta 5))].
Proof.
  split_and!; [vm_compute; done..|].
  eexists. split; [vm_compute; reflexivity|]. vm_compute. done.
Qed.

(** C9 as the spec states it fails: with translation current and three
    units accumulated, setting the kind to translation leaves the three
    units accumulated. *)
Lemma SetTransformationType_same_kind_keeps_delta :
  let s := demo_dragging ROLE_Authority in
  CurrentTransformation s = TT_Translation ∧
  AccumulatedDeltaTransform (SetTransformationType TT_Translation s) = demo_delta 3 ∧
  demo_delta 3 ≠ SetScale3D ZeroVector FTransform_Identity.
Proof. repeat split. discriminate. Qed.

(** ** Runs of the further properties *)

(** X1 on the run [demo_operations] of a fresh authority. *)
Lemma gizmo_only_with_selection_witness :
  let s := reached (demo_state ROLE_Authority) demo_operations in
  gizmo_needs_selection s ∧
  (∀ g, Gizmo (SetGizmo s) = Some g → SelectedComponents s ≠ []) ∧
  (∀ sp, gizmo_needs_selection (SetSpaceType sp s)) ∧
  (∀ b s', SetComponentBased b s = Done s' → gizmo_needs_selection s') ∧
  (∀ b1 b2 s', (CloneSelected b1 b2 s).2 = Done s' → gizmo_needs_selection s').
Proof.
  apply (gizmo_only_with_selection (demo_cfg ROLE_Authority) demo_world demo_operations
           (reached (demo_state ROLE_Authority) demo_operations)).
  vm_compute. reflexivity.
Defined.

(** X3: the authority, with two components selected, and a fresh proxy
    apply the same broadcast. *)
Lemma selection_broadcast_converges_witness :
  let cs := [Some 2; None; Some 0] in
  let s1 := demo_selected ROLE_Authority in
  let s2 := demo_state ROLE_AutonomousProxy in
  SelectedComponents (MulticastSetSelectedComponents_Implementation cs s1)
    = SelectedComponents (MulticastSetSelectedComponents_Implementation cs s2) ∧
  bResyncSelection (MulticastSetSelectedComponents_Implementation cs s1)
    = bResyncSelection (MulticastSetSelectedComponents_Implementation cs s2).
Proof.
  apply (selection_broadcast_converges [Some 2; None; Some 0]
           (demo_selected ROLE_Authority) (demo_state ROLE_AutonomousProxy)).
  - intros [k|]; reflexivity.
  - reflexivity.
Defined.

(** X5: component [1], whose owner the actor [0] implements
    [UFocusableObject], is selected and deselected on a fresh authority. *)
Lemma select_deselect_round_trip_witness :
  let s := demo_state ROLE_Authority in
  let s' := DeselectComponent (Some 1) (SelectComponent (Some 1) true s) in
  let w := world s in
  let partBased := bComponentBased s in
  SelectedComponents s' = SelectedComponents s ∧
  out s' = out s ++ focus_notifications w partBased 1 ++ unfocus_notifications w partBased 1 ∧
  (∀ o, notified w partBased 1 = Some o →
     out s' = out s ++ [Focus o (Some 1) partBased;
                        OnComponentSelectionChange (Some 1) true true;
                        Unfocus o (Some 1) partBased;
                        OnComponentSelectionChange (Some 1) false true]) ∧
  (notified w partBased 1 = None →
     out s' = out s ++ [OnComponentSelectionChange (Some 1) true false;
                        OnComponentSelectionChange (Some 1) false false]) ∧
  same_session s s'.
Proof.
  apply (select_deselect_round_trip (demo_state ROLE_Authority) 1).
  - apply (bool_decide_unpack _). vm_compute. exact I.
  - reflexivity.
Defined.

(** The run, evaluated in both modes: in aggregate mode the actor [0] is
    notified; in part-based mode component [1] itself, which implements
    the interface, and component [0], which does not, is not. *)
Example select_deselect_run :
  let s := demo_state ROLE_Authority in
  let p := set_bComponentBased true s in
  out (DeselectComponent (Some 1) (SelectComponent (Some 1) true s))
    = [Focus (UActor 0) (Some 1) false; OnComponentSelectionChange (Some 1) true true;
       Unfocus (UActor 0) (Some 1) false; OnComponentSelectionChange (Some 1) false true] ∧
  out (DeselectComponent (Some 1) (SelectComponent (Some 1) true p))
    = [Focus (UComp 1) (Some 1) true; OnComponentSelectionChange (Some 1) true true;
       Unfocus (UComp 1) (Some 1) true; OnComponentSelectionChange (Some 1) false true] ∧
  out (DeselectComponent (Some 0) (SelectComponent (Some 0) true p))
    = [OnComponentSelectionChange (Some 0) true false;
       OnComponentSelectionChange (Some 0) false false].
Proof. vm_compute. done. Qed.




(** Runs of the handlers.  The authority of a local player answers a
    trace request that hits component [0] with the two broadcasts.  When
    the owner is no player controller the handler of the trace request
    stops on the null pointer.  The handler of the transform request
    stops on the null gizmo in the state of the witness, and with a gizmo
    it relays the transform, tells the owner of the selected component,
    which implements [UFocusableObject], and moves the component. *)
Example authority_relays_runs :
  let st := {| VX := 0; VY := 0; VZ := 0 |}%Z in
  let en := {| VX := 1000; VY := 0; VZ := 0 |}%Z in
  (∃ s', server_handler (ReqTrace (ByChannel 0) st en false) (demo_hit_object ROLE_Authority)
           = Done s' ∧
         messages (out s') = [SendToAll (BcastSetDomain TD_None);
                              SendToAll (BcastSetSelectedComponents [Some 0])]) ∧
  server_handler (ReqTrace (ByChannel 0) st en false)
    (UTransformerComponent (demo_cfg_remote false) demo_world) = NullDereference ∧
  (SelectedComponents demo_no_gizmo = [Some 0] ∧ Gizmo demo_no_gizmo = None ∧
   server_handler (ReqApplyTransform (demo_delta 5)) demo_no_gizmo = NullDereference) ∧
  (let s := SelectComponent (Some 0) false
              (UTransformerComponent (demo_cfg_remote true) demo_world) in
   ∃ s', server_handler (ReqApplyTransform (demo_delta 5)) s = Done s' ∧
         out s' = out s ++ [SendToAll (BcastApplyTransform (demo_delta 5));
                            OnNewTransformation (UActor 0) (Some 0) (demo_delta 5) false;
                            SetWorldTransform 0 (demo_delta 5)]).
Proof.
  split; [|split; [|split]].
  - eexists. split; [vm_compute; reflexivity|]. vm_compute. done.
  - vm_compute. reflexivity.
  - vm_compute. done.
  - eexists. split; [vm_compute; reflexivity|]. vm_compute. done.
Qed.

(** X10: an interval of the poll when both pending clones are ready. *)
Lemma readiness_poll_interval_witness :
  let s := demo_pending in
  let ready := filter (λ c, clone_replicated s 50%Z c = true)
                      (UnreplicatedComponentClones s) in
  let s' := CheckUnreplicatedActors_timer 50%Z s in
  length (UnreplicatedComponentClones s')
    = length (UnreplicatedComponentClones s) - length ready ∧
  if bool_decide (length ready = length (UnreplicatedComponentClones s)) then
    UnreplicatedComponentClones s' = [] ∧
    CheckUnrepTimerHandle s' = false ∧
    messages (out s')
      = messages (out s) ++ [SendToAll (BcastSetSelectedComponents (SelectedComponents s))]
  else
    CheckUnrepTimerHandle s' = true ∧ out s' = out s ∧
    SelectedComponents s' = SelectedComponents s.
Proof.
  apply (readiness_poll_interval 50%Z demo_pending).
  - reflexivity.
  - vm_compute. reflexivity.
Defined.

(** X11 on four hits.  In part-based mode the hit on component [1],
    which is not supported for networking, is removed with a warning, and
    so is the hit on component [3], whose actor is not supported; the hit
    without a valid component is removed without one.  In aggregate mode
    the three hits on the actor [0] are kept. *)
Example FilterHits_run :
  let r := FilterHits demo_hits demo_filtering in
  r.1 = [{| hit_actor := Some 0; hit_component := Some 0 |}] ∧
  out r.2 = [LogWarning (RemovingHitNotSupportedForNetworking 0 1);
             LogWarning (RemovingHitNotSupportedForNetworking 1 3)] ∧
  (FilterHits demo_hits (set_bComponentBased false demo_filtering)).1
    = [{| hit_actor := Some 0; hit_component := Some 0 |};
       {| hit_actor := Some 0; hit_component := Some 1 |};
       {| hit_actor := Some 0; hit_component := None |}].
Proof. vm_compute. done. Qed.

(** X13: in aggregate mode, with component [0] selected and the gizmo
    [2] in place, the first hit is on actor [1], which the hook rejects. *)
Lemma HandleTracedObjects_rejected_hit_witness :
  let h := {| hit_actor := Some 1; hit_component := Some 3 |} in
  let hits := [{| hit_actor := Some 0; hit_component := Some 1 |}] in
  let s := demo_picky in
  HandleTracedObjects (h :: hits) false s = (true, ClearDomain s) ∧
  SelectedComponents (ClearDomain s) = SelectedComponents s ∧
  out (ClearDomain s) = out s.
Proof.
  apply (HandleTracedObjects_rejected_hit
           {| hit_actor := Some 1; hit_component := Some 3 |}
           [{| hit_actor := Some 0; hit_component := Some 1 |}] false demo_picky).
  - repeat constructor; intros g Hg; vm_compute in Hg; injection Hg as <-; discriminate.
  - reflexivity.
  - exists 1. split; reflexivity.
Defined.

(** The state of the witness and the run, evaluated: the hook accepts
    actor [0] and rejects actor [1]; component [0] stays selected although
    the trace does not append, and the trace succeeds. *)
Example HandleTracedObjects_rejected_hit_run :
  let h := {| hit_actor := Some 1; hit_component := Some 3 |} in
  let s := demo_picky in
  let r := HandleTracedObjects [h; {| hit_actor := Some 0; hit_component := Some 1 |}] false s in
  SelectedComponents s = [Some 0] ∧ Gizmo s = Some 2 ∧
  ShouldSelect (cfg s) (Some 1) (GetRootComponent (world s) 1) = false ∧
  ShouldSelect (cfg s) (Some 0) (GetRootComponent (world s) 0) = true ∧
  r.1 = true ∧ SelectedComponents r.2 = [Some 0] ∧ out r.2 = out s.
Proof. vm_compute. done. Qed.



(** The run, evaluated: two clones, the actors [2] and [3] with the roots
    [4] and [5]; the two templates have [bNetStartup] cleared, and a
    clone of the actor [0] alone leaves the actor [1] as it was. *)
Example CloneActors_run :
  let s := demo_state ROLE_Authority in
  let r := CloneActors [Some 0; None; Some 1; Some 0] s in
  r.1 = [Some 4; Some 5] ∧
  GetOwner (world r.2) 4 = Some 2 ∧ GetOwner (world r.2) 5 = Some 3 ∧
  actor_flag a_net_startup (world s) 0 = true ∧
  actor_flag a_net_startup (world r.2) 0 = false ∧
  actor_flag a_net_startup (world r.2) 1 = false ∧
  actor_flag a_net_startup (world (CloneActors [Some 0] s).2) 1 = true.
Proof. vm_compute. done. Qed.


(** X17, twice.  With components [0] and [1] selected and the
    translation gizmo [2] in place, the kind is set to rotation: the gizmo
    is replaced.  And after the kind was set to none, which destroyed the
    translation gizmo and left the pointer, the kind is set to translation
    again: the pointer names a gizmo of that kind, and nothing is
    destroyed or spawned. *)
Lemma SetTransformationType_replaces_gizmo_witness :
  (let s := demo_selected ROLE_Authority in
   let s' := SetTransformationType TT_Rotation s in
   let reports (g : Actor) := gz_type <$> GetGizmoData (world s) g = Some TT_Rotation in
   CurrentTransformation s' = TT_Rotation ∧
   (∀ g, Gizmo s = Some g → reports g →
      Gizmo s' = Some g ∧
      dom (actors (world s')) = dom (actors (world s)) ∧
      (∀ a, actor_flag a_valid (world s') a = actor_flag a_valid (world s) a)) ∧
   ((∀ g, Gizmo s = Some g → ¬ reports g) →
    ∃ g', Gizmo s' = Some g' ∧ actors (world s) !! g' = None ∧
          GetGizmoData (world s') g'
            = Some {| gz_type := TT_Rotation; gz_attached := ComponentToAttachTo s;
                      gz_progress := false; gz_domain := TD_None;
                      gz_space := CurrentSpaceType (cfg s) |} ∧
          actor_flag a_valid (world s') g' = true ∧
          (∀ g, Gizmo s = Some g → is_Some (actors (world s) !! g) →
                actor_flag a_valid (world s') g = false))) ∧
  (let s := demo_gizmo_destroyed in
   let s' := SetTransformationType TT_Translation s in
   let reports (g : Actor) := gz_type <$> GetGizmoData (world s) g = Some TT_Translation in
   CurrentTransformation s' = TT_Translation ∧
   (∀ g, Gizmo s = Some g → reports g →
      Gizmo s' = Some g ∧
      dom (actors (world s')) = dom (actors (world s)) ∧
      (∀ a, actor_flag a_valid (world s') a = actor_flag a_valid (world s) a)) ∧
   ((∀ g, Gizmo s = Some g → ¬ reports g) →
    ∃ g', Gizmo s' = Some g' ∧ actors (world s) !! g' = None ∧
          GetGizmoData (world s') g'
            = Some {| gz_type := TT_Translation; gz_attached := ComponentToAttachTo s;
                      gz_progress := false; gz_domain := TD_None;
                      gz_space := CurrentSpaceType (cfg s) |} ∧
          actor_flag a_valid (world s') g' = true ∧
          (∀ g, Gizmo s = Some g → is_Some (actors (world s) !! g) →
                actor_flag a_valid (world s') g = false))).
Proof.
  split.
  - apply (SetTransformationType_replaces_gizmo (demo_selected ROLE_Authority)
             TT_Rotation TT_Rotation); [discriminate|discriminate|reflexivity|reflexivity].
  - apply (SetTransformationType_replaces_gizmo demo_gizmo_destroyed
             TT_Translation TT_Translation); [discriminate|discriminate|reflexivity|reflexivity].
Defined.

(** The two runs, evaluated.  In the first the translation gizmo [2] is
    destroyed and the rotation gizmo [3] is spawned.  In the second the
    component refers to the destroyed gizmo [2] before and after, and the
    store holds the same three actors. *)
Example SetTransformationType_gizmo_runs :
  (let s := demo_selected ROLE_Authority in
   let s' := SetTransformationType TT_Rotation s in
   Gizmo s = Some 2 ∧ Gizmo s' = Some 3 ∧
   gz_type <$> GetGizmoData (world s') 3 = Some TT_Rotation ∧
   actor_flag a_valid (world s') 2 = false ∧ actor_flag a_valid (world s') 3 = true) ∧
  (let s := demo_gizmo_destroyed in
   let s' := SetTransformationType TT_Translation s in
   CurrentTransformation s = TT_NoTransform ∧ Gizmo s = Some 2 ∧
   gz_type <$> GetGizmoData (world s) 2 = Some TT_Translation ∧
   actor_flag a_valid (world s) 2 = false ∧
   CurrentTransformation s' = TT_Translation ∧ Gizmo s' = Some 2 ∧
   actor_flag a_valid (world s') 2 = false ∧
   size (dom (actors (world s'))) = 3).
Proof. vm_compute. done. Qed.

(** X18: in the same state the kind is set to none. *)
Lemma SetTransformationType_keeps_destroyed_gizmo_witness :
  let s := demo_selected ROLE_Authority in
  let s' := SetTransformationType TT_NoTransform s in
  CurrentTransformation s' = TT_NoTransform ∧
  Gizmo s' = Some 2 ∧
  actor_flag a_valid (world s') 2 = false.
Proof.
  apply (SetTransformationType_keeps_destroyed_gizmo (demo_selected ROLE_Authority)
           TT_NoTransform 2
           {| gz_type := TT_Translation; gz_attached := Some 1; gz_progress := false;
              gz_domain := TD_None; gz_space := ST_World |}).
  - discriminate.
  - discriminate.
  - vm_compute. reflexivity.
  - vm_compute. reflexivity.
  - discriminate.
  - left. reflexivity.
Defined.

(** X20: in part-based mode components [0] and [1] of actor [0] are
    selected, and aggregate mode is set. *)
Lemma SetComponentBased_reselects_witness :
  let s := demo_parts ROLE_Authority in
  let s' := SelectMultipleActors [Some 0; Some 0] false
              (set_bComponentBased false
                 (DeselectAll (DeselectAll_default (cfg s)) s).2) in
  bComponentBased s' = false ∧
  SelectedComponents s'
  = select_all_actors s []
      ((λ c : Ptr, c ≫= GetOwner (world s)) <$> SelectedComponents s) ∧
  (false = true → NoDup (SelectedComponents s) →
   Forall (λ c, accepted s c = true) (SelectedComponents s) →
   SelectedComponents s' = SelectedComponents s) ∧
  (false = false → bToggleSelectedInMultiSelection (cfg s) = true →
   ∀ (c1 c2 a : nat),
     SelectedComponents s = [Some c1; Some c2] →
     GetOwner (world s) c1 = Some a → GetOwner (world s) c2 = Some a →
     accepted_actor s (Some a) = true →
     SelectedComponents s' = []).
Proof.
  apply (SetComponentBased_reselects false (demo_parts ROLE_Authority)).
  vm_compute. reflexivity.
Defined.

(** The runs, evaluated.  After the switch to aggregate mode nothing is
    selected; the actor without a root leaves a null entry, on which the
    switch to aggregate mode stops. *)
Example SetComponentBased_runs :
  (∃ s', SetComponentBased false (demo_parts ROLE_Authority) = Done s' ∧
         SelectedComponents (demo_parts ROLE_Authority) = [Some 0; Some 1] ∧
         SelectedComponents s' = []) ∧
  (let s := SelectActor (Some 2) true
              (UTransformerComponent (demo_cfg ROLE_Authority) demo_rootless) in
   SelectedComponents s = [None] ∧ SetComponentBased false s = NullDereference).
Proof. split; [eexists; split; [vm_compute; reflexivity|]|]; vm_compute; done. Qed.


Example ServerCloneSelected_aggregate_run :
  let s' := reached demo_two_actors [OpServer (ReqCloneSelected true false)] in
  UnreplicatedComponentClones s' = [Some 4; Some 5] ∧
  SelectedComponents s' = [Some 4; Some 5] ∧
  messages (out s') = messages (out demo_two_actors).
Proof. vm_compute. done. Qed.
